(** * DeepLabCut: training-set manipulation

    A shallow embedding of the split engine of
    [deeplabcut/generate_training_dataset/trainingsetmanipulation.py]:
    [SplitTrials], [pad_train_test_indices], [_compute_padding],
    [mergeandsplit], [format_training_data],
    [get_existing_shuffle_indices], [get_largestshuffle_index],
    [validate_shuffles], the split bookkeeping of [create_training_dataset],
    [create_training_dataset_from_existing_split] and
    [create_training_model_comparison], and of its helpers
    [_robust_path_split], [parse_video_filenames], [MakeTrain_pose_yaml],
    [MakeTest_pose_yaml] and [MakeInference_yaml].

    Conventions.
    - Python integers are [Z]; index arrays (lists, ranges, numpy arrays of
      integers) are [list Z].
    - Python floats that are numbers are idealised as exact rationals [Q]:
      a two-digit train fraction is the rational [p/100].  Comparisons and
      [round]/[int]/[math.ceil] are the exact ones.  The float operations
      whose rounding is observable are parameters of the model: the
      product [index_len * train_fraction] of [SplitTrials] (its
      integrality is tested), with the instances [exact_mul] and
      [binary64_mul], and the quotient of two lengths that
      [create_training_dataset] rounds to two digits, with the instances
      [exact_div] and [binary64_div].
    - A train fraction that is an infinity or NaN is a [pyfloat];
      [SplitTrials_float] is [SplitTrials] on these.
    - Strings are sequences of 8-bit characters, a file name being held as
      its UTF-8 bytes.  [str.isdigit] and [int], which depend on the
      Unicode character database outside ASCII, are parameters of the
      shuffle registry; [isdigit] and [int_of_string] are their ASCII
      instances.
    - A Python call either returns or raises: [result]. *)

From Stdlib Require Import ZArith QArith Qround Qabs List Bool Lia Lqa Permutation.
From Stdlib Require Import String Ascii Floats Uint63.
Import ListNotations.

Local Open Scope Z_scope.

(** ** Python results and exceptions *)

(** The payload of the [ValueError]s raised by the modelled code. *)
Inductive value_error : Type :=
| ShuffleExists (shuffle_idx : Z) (existing_shuffles : list Z)
| UnequalLengths
| FractionOutOfRange (train_fraction : Q)
| EngineWithoutFraction
| InvalidLiteral
| ShapeMismatch
| NaNToInteger.

Inductive exn : Type :=
| ZeroDivisionError
| TypeError
| IndexError
| OverflowError
| ValueError (msg : value_error).

Inductive result (A : Type) : Type :=
| Return (a : A)
| Raise (e : exn).

Arguments Return {A} a.
Arguments Raise {A} e.

Definition bind {A B : Type} (r : result A) (k : A -> result B) : result B :=
  match r with
  | Return a => k a
  | Raise e => Raise e
  end.

Notation "x <- r ;; k" := (bind r (fun x => k))
  (at level 61, r at next level, right associativity).

(** ** Python numbers *)

Definition Qlt_bool (a b : Q) : bool := negb (Qle_bool b a).

(** [len(l)] *)
Definition len {A : Type} (l : list A) : Z := Z.of_nat (List.length l).

(** [a / b] on integers: true division. *)
Definition py_truediv (a b : Z) : result Q :=
  if b =? 0 then Raise ZeroDivisionError
  else Return (inject_Z a / inject_Z b)%Q.

(** [a / b] on integers with the quotient as the machine computes it,
    [float_div]: the double nearest to the exact quotient. *)
Definition float_truediv (float_div : Z -> Z -> Q) (a b : Z) : result Q :=
  if b =? 0 then Raise ZeroDivisionError
  else Return (float_div a b).

(** [round(x)]: nearest integer, ties to even. *)
Definition py_round (x : Q) : Z :=
  let fl := Qfloor x in
  match (x - inject_Z fl ?= 1 # 2)%Q with
  | Lt => fl
  | Gt => fl + 1
  | Eq => if Z.even fl then fl else fl + 1
  end.

(** [round(x, 2)] *)
Definition py_round2 (x : Q) : Q := (inject_Z (py_round (x * 100)) / 100)%Q.

(** [int(x)]: truncation toward zero. *)
Definition py_int (x : Q) : Z :=
  if Qle_bool 0 x then Qfloor x else Qceiling x.

(** [x.is_integer()] *)
Definition is_integer (x : Q) : bool := Qeq_bool x (inject_Z (Qfloor x)).

(** [[v] * k]: the empty list when [k <= 0]. *)
Definition py_list_mul {A : Type} (v : A) (k : Z) : list A :=
  repeat v (Z.to_nat k).

(** [range(n)] *)
Definition py_range (n : nat) : list Z := map Z.of_nat (seq 0 n).

(** [l[:k]] and [l[k:]]; a negative [k] counts from the end. *)
Definition slice_index {A : Type} (l : list A) (k : Z) : nat :=
  if k <? 0 then Z.to_nat (len l + k) else Z.to_nat k.

Definition slice_to {A : Type} (l : list A) (k : Z) : list A :=
  firstn (slice_index l k) l.

Definition slice_from {A : Type} (l : list A) (k : Z) : list A :=
  skipn (slice_index l k) l.

(** ** The padding calculator *)

(** The padding sentinel. *)
Definition sentinel : Z := -1.

(** [pad_train_test_indices(train_inds, test_inds, train_fraction)].
    The bare [return] of the first branch hands back Python's [None]. *)
Definition pad_train_test_indices
    (train_inds test_inds : list Z) (train_fraction : Q)
  : result (option (list Z * list Z)) :=
  let n_train_inds := len train_inds in
  let n_test_inds := len test_inds in
  let index_len := n_train_inds + n_test_inds in
  ratio <- py_truediv n_train_inds index_len ;;
  if Qeq_bool ratio train_fraction then Return None
  else
    q <- py_truediv 100 (Z.gcd 100 (py_round (100 * train_fraction))) ;;
    let min_length_req := py_int q in
    let min_n_train := py_round (inject_Z min_length_req * train_fraction) in
    let min_n_test := min_length_req - min_n_train in
    a <- py_truediv n_train_inds min_n_train ;;
    b <- py_truediv n_test_inds min_n_test ;;
    let mult := Z.max (Qceiling a) (Qceiling b) in
    let n_train := mult * min_n_train in
    let n_test := mult * min_n_test in
    Return (Some (train_inds ++ py_list_mul sentinel (n_train - n_train_inds),
                  test_inds ++ py_list_mul sentinel (n_test - n_test_inds))).

(** The [while] loop of [_compute_padding], on fuel; [None] is an exhausted
    budget. *)
Fixpoint compute_padding_loop (fuel : nat)
    (train_step test_step num_train num_test tgt_train tgt_test : Z)
  : option (Z * Z) :=
  match fuel with
  | O => None
  | S fuel' =>
      if (tgt_train <? num_train) || (tgt_test <? num_test) then
        compute_padding_loop fuel' train_step test_step num_train num_test
          (tgt_train + train_step) (tgt_test + test_step)
      else Some (tgt_train, tgt_test)
  end.

(** [_compute_padding(train_fraction, num_train, num_test)] *)
Definition _compute_padding (fuel : nat)
    (train_fraction : Q) (num_train num_test : Z)
  : option (result (Z * Z)) :=
  if Qle_bool train_fraction 0 || Qle_bool 1 train_fraction then
    Some (Raise (ValueError (FractionOutOfRange train_fraction)))
  else
    let base_images := 100 in
    let train_step :=
      py_round (py_round2 train_fraction * inject_Z base_images) in
    let test_step := base_images - train_step in
    match compute_padding_loop fuel train_step test_step num_train num_test
            train_step test_step with
    | None => None
    | Some (tgt_train, tgt_test) =>
        Some (Return (tgt_train - num_train, tgt_test - num_test))
    end.

(** ** Floats that are not numbers *)

Inductive special : Type :=
| PosInf
| NegInf
| NotANumber.

(** A Python float: a number, an infinity or NaN. *)
Inductive pyfloat : Type :=
| Finite (x : Q)
| Special (s : special).

(** [a < b]; [a > b] is [b < a].  Every comparison with NaN is false. *)
Definition pyfloat_ltb (a b : pyfloat) : bool :=
  match a, b with
  | Finite x, Finite y => Qlt_bool x y
  | Finite _, Special PosInf => true
  | Special NegInf, Finite _ => true
  | Special NegInf, Special PosInf => true
  | _, _ => false
  end.

(** [a == b] *)
Definition pyfloat_eqb (a b : pyfloat) : bool :=
  match a, b with
  | Finite x, Finite y => Qeq_bool x y
  | Special PosInf, Special PosInf => true
  | Special NegInf, Special NegInf => true
  | _, _ => false
  end.

(** [round(x, 2)]: an infinity and NaN come back as they are. *)
Definition pyfloat_round2 (x : pyfloat) : pyfloat :=
  match x with
  | Finite x => Finite (py_round2 x)
  | Special s => Special s
  end.

(** [a - b] *)
Definition pyfloat_sub (a b : pyfloat) : pyfloat :=
  match a, b with
  | Finite x, Finite y => Finite (x - y)
  | Finite _, Special PosInf => Special NegInf
  | Finite _, Special NegInf => Special PosInf
  | Special PosInf, Finite _ => Special PosInf
  | Special NegInf, Finite _ => Special NegInf
  | Special PosInf, Special NegInf => Special PosInf
  | Special NegInf, Special PosInf => Special NegInf
  | _, _ => Special NotANumber
  end.

(** [abs(x)] *)
Definition pyfloat_abs (x : pyfloat) : pyfloat :=
  match x with
  | Finite x => Finite (Qabs x)
  | Special NotANumber => Special NotANumber
  | Special _ => Special PosInf
  end.

(** [n * s] for an integer [n]: zero times an infinity is NaN. *)
Definition special_mul (n : Z) (s : special) : special :=
  match s with
  | NotANumber => NotANumber
  | PosInf =>
      if n =? 0 then NotANumber else if 0 <? n then PosInf else NegInf
  | NegInf =>
      if n =? 0 then NotANumber else if 0 <? n then NegInf else PosInf
  end.

(** What [int(s)] raises. *)
Definition special_int (s : special) : exn :=
  match s with
  | NotANumber => ValueError NaNToInteger
  | _ => OverflowError
  end.

(** ** The index splitter *)

Section SplitTrials.

(** [index_len * train_fraction] as the machine computes it. *)
Variable float_mul : Z -> Q -> Q.
(** [np.random.permutation] *)
Variable permutation : list Z -> list Z.

(** [SplitTrials(trialindex, trainFraction, enforce_train_fraction)].
    Unpacking the [None] of [pad_train_test_indices] is a [TypeError]. *)
Definition SplitTrials
    (trialindex : list Z) (trainFraction : Q) (enforce_train_fraction : bool)
  : result (list Z * list Z) :=
  if Qlt_bool 1 trainFraction || Qlt_bool trainFraction 0 then
    Return ([], [])
  else if Qlt_bool 0 (Qabs (trainFraction - py_round2 trainFraction)) then
    Return ([], [])
  else
    let index_len := len trialindex in
    let train_fraction := py_round2 trainFraction in
    let train_size := float_mul index_len train_fraction in
    let shuffle := permutation trialindex in
    let test_indices := slice_from shuffle (py_int train_size) in
    let train_indices := slice_to shuffle (py_int train_size) in
    if enforce_train_fraction && negb (is_integer train_size) then
      padded <- pad_train_test_indices train_indices test_indices
                  train_fraction ;;
      match padded with
      | Some (train_indices, test_indices) =>
          Return (train_indices, test_indices)
      | None => Raise TypeError
      end
    else Return (train_indices, test_indices).

(** [SplitTrials] on any float.  On a number it is the function above; NaN
    passes both guards, every comparison with it being false, and
    [int(train_size)] raises on the product, which is NaN too. *)
Definition SplitTrials_float
    (trialindex : list Z) (trainFraction : pyfloat)
    (enforce_train_fraction : bool)
  : result (list Z * list Z) :=
  if pyfloat_ltb (Finite 1) trainFraction
     || pyfloat_ltb trainFraction (Finite 0) then
    Return ([], [])
  else if pyfloat_ltb (Finite 0)
            (pyfloat_abs
               (pyfloat_sub trainFraction (pyfloat_round2 trainFraction))) then
    Return ([], [])
  else
    let index_len := len trialindex in
    match pyfloat_round2 trainFraction with
    | Special s =>
        (* [train_size = index_len * train_fraction], then [int(train_size)] *)
        Raise (special_int (special_mul index_len s))
    | Finite train_fraction =>
        let train_size := float_mul index_len train_fraction in
        let shuffle := permutation trialindex in
        let test_indices := slice_from shuffle (py_int train_size) in
        let train_indices := slice_to shuffle (py_int train_size) in
        if enforce_train_fraction && negb (is_integer train_size) then
          padded <- pad_train_test_indices train_indices test_indices
                      train_fraction ;;
          match padded with
          | Some (train_indices, test_indices) =>
              Return (train_indices, test_indices)
          | None => Raise TypeError
          end
        else Return (train_indices, test_indices)
    end.

End SplitTrials.

(** The product without rounding. *)
Definition exact_mul (n : Z) (x : Q) : Q := (inject_Z n * x)%Q.

(** The product in IEEE binary64, as CPython computes it: the integer and
    the decimal fraction are converted to the nearest doubles, multiplied,
    and the double obtained is read back as a rational. *)
Definition float_of_Z (n : Z) : float :=
  if n <? 0 then PrimFloat.opp (PrimFloat.of_uint63 (Uint63.of_Z (- n)))
  else PrimFloat.of_uint63 (Uint63.of_Z n).

Definition float_of_Q (x : Q) : float :=
  let r := Qred x in
  PrimFloat.div (float_of_Z (Qnum r)) (float_of_Z (Zpos (Qden r))).

Definition Q_of_float (x : float) : Q :=
  match Prim2SF x with
  | S754_finite s m e =>
      let v := (inject_Z (Zpos m) * Qpower 2 e)%Q in
      Qred (if s then - v else v)%Q
  | _ => 0%Q
  end.

Definition binary64_mul (n : Z) (x : Q) : Q :=
  Q_of_float (PrimFloat.mul (float_of_Z n) (float_of_Q x)).

(** The quotient of two integers without rounding, and in binary64. *)
Definition exact_div (a b : Z) : Q := (inject_Z a / inject_Z b)%Q.

Definition binary64_div (a b : Z) : Q :=
  Q_of_float (PrimFloat.div (float_of_Z a) (float_of_Z b)).

(** Stripping the padding, as [create_training_dataset] does with
    [inds[inds != -1]]. *)
Definition strip_padding (inds : list Z) : list Z :=
  filter (fun i => negb (i =? sentinel)) inds.

(** ** Python sequences *)

(** [l[i]]: a negative [i] counts from the end. *)
Definition py_index {A : Type} (l : list A) (i : Z) : result A :=
  let j := if i <? 0 then len l + i else i in
  if j <? 0 then Raise IndexError
  else match nth_error l (Z.to_nat j) with
       | Some a => Return a
       | None => Raise IndexError
       end.

(** [enumerate(l)] *)
Definition enumerate {A : Type} (l : list A) : list (Z * A) :=
  combine (py_range (List.length l)) l.

(** [range(a, b)] *)
Definition py_range2 (a b : Z) : list Z :=
  map (fun i => a + Z.of_nat i) (seq 0 (Z.to_nat (b - a))).

(** [sorted(l)] on integers. *)
Fixpoint insert_sorted (x : Z) (l : list Z) : list Z :=
  match l with
  | [] => [x]
  | y :: l' => if x <=? y then x :: l else y :: insert_sorted x l'
  end.

Definition sorted (l : list Z) : list Z := fold_right insert_sorted [] l.

(** ** The merged table *)

(** A cell of the table: a float64, possibly missing. *)
Inductive cell : Type :=
| NaN
| Num (v : Q).

(** A row label of the merged table, as [guarantee_multiindex_rows] leaves
    it: [("labeled-data", folder, image)]; [name[1]] is [folder]. *)
Record row_name : Type := {
  level0 : string;
  folder : string;
  image : string
}.

(** The table restricted to a scorer: labels and, per row, the flat
    [x, y] values of the body parts. *)
Definition DataFrame : Type := list (row_name * list cell).

Definition df_index (df : DataFrame) : list row_name := map fst df.

(** The keys of the project configuration that the split engine reads. *)
Record config : Type := {
  TrainingFraction : list Q;
  video_sets : list string
}.

(** ** Merge and split *)

(** The leave-one-folder-out loop of [mergeandsplit]. *)
Fixpoint split_by_folder (test_video_name : string)
    (rows : list (Z * row_name)) (trainIndices testIndices : list Z)
  : list Z * list Z :=
  match rows with
  | [] => (trainIndices, testIndices)
  | (index, name) :: rows' =>
      if String.eqb test_video_name (folder name) then
        split_by_folder test_video_name rows'
          trainIndices (testIndices ++ [index])
      else
        split_by_folder test_video_name rows'
          (trainIndices ++ [index]) testIndices
  end.

Section MergeAndSplit.

Variable float_mul : Z -> Q -> Q.
Variable permutation : list Z -> list Z.
(** [Path(i).stem] *)
Variable path_stem : string -> string.

(** [mergeandsplit(config, trainindex, uniform)].  [stored] is the table
    read from the project's [.h5] file when it exists, [merged] the
    outcome of [merge_annotateddatasets] otherwise. *)
Definition mergeandsplit (cfg : config)
    (stored merged : option DataFrame) (trainindex : Z) (uniform : bool)
  : result (list Z * list Z) :=
  let Data := match stored with Some d => Some d | None => merged end in
  match Data with
  | None => Return ([], [])
  | Some Data =>
      if uniform then
        trainFraction <- py_index (TrainingFraction cfg) trainindex ;;
        SplitTrials float_mul permutation
          (py_range (List.length (df_index Data))) trainFraction true
      else
        let videos := video_sets cfg in
        test_video_name <- py_index (map path_stem videos) trainindex ;;
        Return (split_by_folder test_video_name
                  (enumerate (df_index Data)) [] [])
  end.

End MergeAndSplit.

(** ** Formatting the training data *)

(** [values.reshape(-1, 2)] *)
Fixpoint reshape2 (values : list cell) : result (list (cell * cell)) :=
  match values with
  | [] => Return []
  | [_] => Raise (ValueError ShapeMismatch)
  | x :: y :: rest =>
      rows <- reshape2 rest ;; Return ((x, y) :: rows)
  end.

(** [np.c_[range(nbodyparts), temp]] *)
Definition np_c_ (nbodyparts : Z) (temp : list (cell * cell))
  : result (list (Z * cell * cell)) :=
  if Z.max 0 nbodyparts =? len temp then
    Return (map (fun r => (fst r, fst (snd r), snd (snd r))) (enumerate temp))
  else Raise (ValueError ShapeMismatch).

(** [joints[~np.isnan(joints).any(axis=1)].astype(int)] *)
Fixpoint drop_nan_astype_int (joints : list (Z * cell * cell))
  : list (Z * Z * Z) :=
  match joints with
  | [] => []
  | (b, Num x, Num y) :: rest =>
      (b, py_int x, py_int y) :: drop_nan_astype_int rest
  | _ :: rest => drop_nan_astype_int rest
  end.

(** One entry of [train_data]. *)
Record train_entry : Type := {
  entry_image : row_name;
  entry_size : Z * Z * Z;
  entry_joints : list (Z * Z * Z)
}.

Section FormatTrainingData.

(** [read_image_shape_fast]: bands, height, width. *)
Variable read_image_shape_fast : row_name -> Z * Z * Z.

Definition shape_height (s : Z * Z * Z) : Z := snd (fst s).
Definition shape_width (s : Z * Z * Z) : Z := snd s.

(** The test of the [inside] mask on one joint [(bodypart, x, y)]. *)
Definition inside (img_shape : Z * Z * Z) (joint : Z * Z * Z) : bool :=
  let x := snd (fst joint) in
  let y := snd joint in
  ((x <? shape_width img_shape) && (0 <? x))
  && ((y <? shape_height img_shape) && (0 <? y)).

(** The joints kept for row [i]. *)
Definition frame_joints (df : DataFrame) (i nbodyparts : Z)
  : result (row_name * (Z * Z * Z) * list (Z * Z * Z)) :=
  filename <- py_index (df_index df) i ;;
  let img_shape := read_image_shape_fast filename in
  values <- py_index (map snd df) i ;;
  temp <- reshape2 values ;;
  joints <- np_c_ nbodyparts temp ;;
  let joints := drop_nan_astype_int joints in
  let joints :=
    if negb (forallb (inside img_shape) joints)
    then filter (inside img_shape) joints else joints in
  Return (filename, img_shape, joints).

(** [format_training_data(df, train_inds, nbodyparts, project_path)]:
    the list [train_data]; [matlab_data] holds the same three fields per
    entry. *)
Fixpoint format_training_data (df : DataFrame) (train_inds : list Z)
    (nbodyparts : Z) : result (list train_entry) :=
  match train_inds with
  | [] => Return []
  | i :: rest =>
      r <- frame_joints df i nbodyparts ;;
      let '(filename, img_shape, joints) := r in
      train_data <- format_training_data df rest nbodyparts ;;
      if 0 <? len joints then
        Return ({| entry_image := filename;
                   entry_size := img_shape;
                   entry_joints := joints |} :: train_data)
      else Return train_data
  end.

End FormatTrainingData.

(** ** The shuffle registry *)

(** [s.split(sep)] for a non-empty separator: [skip] counts the characters
    of a separator just matched that are still to be passed over, [cur] is
    the piece being read. *)
Fixpoint split_scan (sep : string) (skip : nat) (cur s : string)
  : list string :=
  match s with
  | EmptyString => [cur]
  | String c s' =>
      match skip with
      | S k => split_scan sep k cur s'
      | O =>
          if String.prefix sep s then
            cur :: split_scan sep (String.length sep - 1) EmptyString s'
          else split_scan sep O (cur ++ String c EmptyString)%string s'
      end
  end.

Definition str_split (s sep : string) : list string :=
  split_scan sep O EmptyString s.

Definition is_digit (c : ascii) : bool :=
  let n := nat_of_ascii c in (48 <=? n)%nat && (n <=? 57)%nat.

Fixpoint all_digits (s : string) : bool :=
  match s with
  | EmptyString => true
  | String c s' => is_digit c && all_digits s'
  end.

(** [s.isdigit()] on an ASCII string *)
Definition isdigit (s : string) : bool :=
  negb (String.length s =? 0)%nat && all_digits s.

Fixpoint digits_value (acc : Z) (s : string) : Z :=
  match s with
  | EmptyString => acc
  | String c s' => digits_value (10 * acc + (Z.of_nat (nat_of_ascii c) - 48)) s'
  end.

(** [int(s)] on an ASCII string without sign, blanks or underscores *)
Definition int_of_string (s : string) : result Z :=
  if isdigit s then Return (digits_value 0 s)
  else Raise (ValueError InvalidLiteral).

(** A directory entry, as [pathlib] splits its name. *)
Record path : Type := {
  stem : string;
  suffix : string
}.

Inductive Engine : Type := TF | PYTORCH.

(** What [get_existing_shuffle_indices] reads of a project: the entries of
    the training-set folder ([None] when the folder is missing) and which
    model folders exist. *)
Record project : Type := {
  trainset_folder : option (list path);
  model_folder_exists : Q -> Z -> Engine -> bool
}.

(** What [isinstance(i, int)] tells apart in a requested list. *)
Inductive pyval : Type :=
| PyInt (i : Z)
| PyOther.

Fixpoint ints (l : list pyval) : list Z :=
  match l with
  | [] => []
  | PyInt i :: l' => i :: ints l'
  | PyOther :: l' => ints l'
  end.

Fixpoint collect {A B : Type} (f : A -> result (option B)) (l : list A)
  : result (list B) :=
  match l with
  | [] => Return []
  | a :: l' =>
      b <- f a ;;
      bs <- collect f l' ;;
      Return (match b with Some b => b :: bs | None => bs end)
  end.

Section ShuffleRegistry.

(** [s.isdigit()] and [int(s)] as the interpreter computes them.  A file
    name need not be ASCII, and beyond ASCII both follow the Unicode
    character database: a superscript two is a digit for [isdigit] and an
    invalid literal for [int], an Arabic-Indic three is a digit for both.
    A string holds the UTF-8 bytes of the name, so that splitting at
    ["_"] and ["shuffle"] and the test of the prefix are those of Python.
    [isdigit] and [int_of_string] above are the two functions on ASCII
    names. *)
Variable str_isdigit : string -> bool.
Variable str_int : string -> result Z.
Variable float_mul : Z -> Q -> Q.

Definition is_valid_data_stem (train_fraction : option Q) (stem : string)
  : result bool :=
  if (String.length stem =? 0)%nat then Return false
  else
    suffix <- py_index (str_split stem "_") (-1) ;;
    if (String.length suffix =? 0)%nat then Return false
    else
      let info := str_split suffix "shuffle" in
      match info with
      | [train_frac; idx] =>
          if str_isdigit train_frac && str_isdigit idx then
            match train_fraction with
            | None => Return true
            | Some train_fraction =>
                pct <- str_int train_frac ;;
                Return (pct =? py_int (float_mul 100 train_fraction))
            end
          else Return false
      | _ => Return false
      end.

(** [get_existing_shuffle_indices(cfg, train_fraction, engine)] *)
Definition get_existing_shuffle_indices (proj : project)
    (train_fraction : option Q) (engine : option Engine)
  : result (list Z) :=
  match trainset_folder proj with
  | None => Return []
  | Some entries =>
      shuffle_indices <-
        collect (fun p =>
          if String.prefix "Documentation_data" (stem p)
             && String.eqb (suffix p) ".pickle" then
            valid <- is_valid_data_stem train_fraction (stem p) ;;
            if valid then
              piece <- py_index (str_split (stem p) "shuffle") (-1) ;;
              idx <- str_int piece ;;
              Return (Some idx)
            else Return None
          else Return None) entries ;;
      shuffle_indices <-
        match engine with
        | None => Return shuffle_indices
        | Some engine =>
            match train_fraction with
            | None => Raise (ValueError EngineWithoutFraction)
            | Some train_fraction =>
                Return (filter (fun idx =>
                          model_folder_exists proj train_fraction idx engine)
                        shuffle_indices)
            end
        end ;;
      Return (sorted shuffle_indices)
  end.

(** The collision loop of [validate_shuffles]. *)
Fixpoint check_shuffles (userfeedback : bool) (existing_shuffles : list Z)
    (shuffles : list Z) : result unit :=
  match shuffles with
  | [] => Return tt
  | shuffle_idx :: rest =>
      if userfeedback && existsb (Z.eqb shuffle_idx) existing_shuffles then
        Raise (ValueError (ShuffleExists shuffle_idx existing_shuffles))
      else check_shuffles userfeedback existing_shuffles rest
  end.

(** [validate_shuffles(cfg, shuffles, num_shuffles, userfeedback)] *)
Definition validate_shuffles (proj : project)
    (shuffles : option (list pyval)) (num_shuffles : Z) (userfeedback : bool)
  : result (list Z) :=
  existing_shuffles <- get_existing_shuffle_indices proj None None ;;
  match shuffles with
  | None =>
      first_index <-
        (if 0 <? len existing_shuffles then
           last_index <- py_index existing_shuffles (-1) ;;
           Return (last_index + 1)
         else Return 1) ;;
      Return (py_range2 first_index (num_shuffles + first_index))
  | Some shuffles =>
      let shuffles := ints shuffles in
      _ <- check_shuffles userfeedback existing_shuffles shuffles ;;
      Return shuffles
  end.

End ShuffleRegistry.

(** ** Creating the training dataset *)

(** An element of [splits]: [(trainFraction, shuffle, (train, test))]. *)
Definition split_entry : Type := (Q * Z * (list Z * list Z))%type.

(** The loop of [create_training_dataset] over caller-supplied splits:
    [for shuffle, (train_inds, test_inds) in enumerate(zip(...))].  The
    quotient that [round(..., 2)] rounds is the machine's. *)
Fixpoint supplied_splits (float_div : Z -> Z -> Q) (Shuffles : list Z)
    (pairs : list (Z * (list Z * list Z))) (splits : list split_entry)
  : result (list split_entry) :=
  match pairs with
  | [] => Return splits
  | (shuffle, (train_inds, test_inds)) :: rest =>
      ratio <- float_truediv float_div (len train_inds)
                 (len train_inds + len test_inds) ;;
      let trainFraction := py_round2 ratio in
      let train_inds := strip_padding train_inds in
      let test_inds := strip_padding test_inds in
      shuffle_idx <- py_index Shuffles shuffle ;;
      supplied_splits float_div Shuffles rest
        (splits ++ [(trainFraction, shuffle_idx, (train_inds, test_inds))])
  end.

(** The chained comparison
    [len(trainIndices) != len(testIndices) != len(Shuffles)]. *)
Definition lengths_rejected {A B C : Type}
    (trainIndices : list A) (testIndices : list B) (Shuffles : list C) : bool :=
  negb (len trainIndices =? len testIndices)
  && negb (len testIndices =? len Shuffles).

Section CreateTrainingDataset.

Variable str_isdigit : string -> bool.
Variable str_int : string -> result Z.
Variable float_mul : Z -> Q -> Q.
(** [a / b] as the machine computes it. *)
Variable float_div : Z -> Z -> Q.
Variable permutation : list Z -> list Z.

(** The files and folders of the project. *)
Variable world : Type.
(** Everything [create_training_dataset] does before it validates the
    shuffles: folders, the metadata file, [merge_annotateddatasets]
    ([None] when there is no data) and the choice of network and
    augmenter. *)
Variable prelude : world -> world * result (option DataFrame).
(** The body of the final loop for one split with train indices: the
    overwrite prompt, the data and metadata files, the model folders and
    the pose configurations. *)
Variable materialize : world -> split_entry -> world * result unit.

Fixpoint materialize_all (w : world) (splits : list split_entry)
  : world * result unit :=
  match splits with
  | [] => (w, Return tt)
  | (trainFraction, shuffle, (trainIndices, testIndices)) :: rest =>
      if 0 <? len trainIndices then
        match materialize w
                (trainFraction, shuffle, (trainIndices, testIndices)) with
        | (w', Return _) => materialize_all w' rest
        | (w', Raise e) => (w', Raise e)
        end
      else materialize_all w rest
  end.

(** [splits] when no indices are supplied: one [SplitTrials] per train
    fraction and shuffle. *)
Definition random_splits (cfg : config) (Data : DataFrame)
    (Shuffles : list Z) : result (list split_entry) :=
  collect (fun fs : Q * Z =>
             split <- SplitTrials float_mul permutation
                        (py_range (List.length (df_index Data)))
                        (fst fs) false ;;
             Return (Some (fst fs, snd fs, split)))
          (list_prod (TrainingFraction cfg) Shuffles).

(** [create_training_dataset] of a single-animal project. *)
Definition create_training_dataset (w : world) (cfg : config)
    (proj : project) (num_shuffles : Z) (Shuffles : option (list pyval))
    (userfeedback : bool) (trainIndices testIndices : option (list (list Z)))
  : world * result (option (list split_entry)) :=
  match prelude w with
  | (w, Raise e) => (w, Raise e)
  | (w, Return None) => (w, Return None)
  | (w, Return (Some Data)) =>
      match validate_shuffles str_isdigit str_int float_mul proj Shuffles
              num_shuffles userfeedback with
      | Raise e => (w, Raise e)
      | Return Shuffles =>
          let splits :=
            match trainIndices, testIndices with
            | None, None => random_splits cfg Data Shuffles
            | Some trainIndices, Some testIndices =>
                if lengths_rejected trainIndices testIndices Shuffles then
                  Raise (ValueError UnequalLengths)
                else
                  supplied_splits float_div Shuffles
                    (enumerate (combine trainIndices testIndices)) []
            | _, _ => Raise TypeError
            end in
          match splits with
          | Raise e => (w, Raise e)
          | Return splits =>
              match materialize_all w splits with
              | (w, Raise e) => (w, Raise e)
              | (w, Return _) => (w, Return (Some splits))
              end
          end
      end
  end.

End CreateTrainingDataset.

(** ** The largest shuffle *)

(** [get_largestshuffle_index(config)] *)
Definition get_largestshuffle_index
    (str_isdigit : string -> bool) (str_int : string -> result Z)
    (float_mul : Z -> Q -> Q) (proj : project)
  : result (option Z) :=
  shuffle_indices <-
    get_existing_shuffle_indices str_isdigit str_int float_mul proj
      None None ;;
  if 0 <? len shuffle_indices then
    largest <- py_index shuffle_indices (-1) ;;
    Return (Some largest)
  else Return None.

(** ** Copying an existing split *)

Section FromExistingSplit.

Variable str_isdigit : string -> bool.
Variable str_int : string -> result Z.
Variable float_mul : Z -> Q -> Q.
Variable float_div : Z -> Z -> Q.
Variable permutation : list Z -> list Z.
Variable world : Type.
Variable prelude : world -> world * result (option DataFrame).
Variable materialize : world -> split_entry -> world * result unit.

(** [create_training_dataset_from_existing_split], from the split that the
    metadata of shuffle [from_shuffle] holds: [loaded] is
    [(split.train_indices, split.test_indices)].  [None] is an exhausted
    budget of the loop of [_compute_padding]. *)
Definition create_training_dataset_from_existing_split (fuel : nat)
    (w : world) (cfg : config) (proj : project) (loaded : list Z * list Z)
    (from_trainsetindex : Z) (num_shuffles : Z) (shuffles : option (list pyval))
    (userfeedback : bool)
  : option (world * result (option (list split_entry))) :=
  let num_copies :=
    match shuffles with Some l => len l | None => num_shuffles end in
  let train_idx := fst loaded in
  let test_idx := snd loaded in
  let n_train := len train_idx in
  let n_test := len test_idx in
  match py_index (TrainingFraction cfg) from_trainsetindex with
  | Raise e => Some (w, Raise e)
  | Return fraction =>
      let train_fraction := py_round2 fraction in
      match float_truediv float_div n_train (n_train + n_test) with
      | Raise e => Some (w, Raise e)
      | Return ratio =>
          let padded :=
            if negb (Qeq_bool (py_round2 ratio) train_fraction) then
              match _compute_padding fuel train_fraction n_train n_test with
              | None => None
              | Some (Raise e) => Some (Raise e)
              | Some (Return (train_padding, test_padding)) =>
                  Some (Return
                          (train_idx ++ py_list_mul sentinel train_padding,
                           test_idx ++ py_list_mul sentinel test_padding))
              end
            else Some (Return (train_idx, test_idx)) in
          match padded with
          | None => None
          | Some (Raise e) => Some (w, Raise e)
          | Some (Return (train_idx, test_idx)) =>
              Some (create_training_dataset str_isdigit str_int float_mul
                      float_div permutation world
                      prelude materialize w cfg proj num_shuffles shuffles
                      userfeedback
                      (Some (py_list_mul train_idx num_copies))
                      (Some (py_list_mul test_idx num_copies)))
          end
      end
  end.

End FromExistingSplit.

(** ** Comparing models *)

(** A [for] loop over [l] that threads the state [w] and the value [acc]
    and stops at the first exception. *)
Fixpoint for_each {W A B : Type} (body : A -> W -> B -> W * result B)
    (l : list A) (w : W) (acc : B) : W * result B :=
  match l with
  | [] => (w, Return acc)
  | a :: rest =>
      match body a w acc with
      | (w', Return acc') => for_each body rest w' acc'
      | (w', Raise e) => (w', Raise e)
      end
  end.

Section ModelComparison.

Variable str_isdigit : string -> bool.
Variable str_int : string -> result Z.
Variable float_mul : Z -> Q -> Q.
Variable world : Type.
(** [mergeandsplit(config, trainindex=trainindex, uniform=True)] *)
Variable mergeandsplit_call : world -> world * result (list Z * list Z).
(** [create_training_dataset(config, Shuffles=[idx], net_type=net,
    trainIndices=[train], testIndices=[test], augmenter_type=aug,
    userfeedback=userfeedback)] *)
Variable create_call :
  world -> Z -> string -> string -> list Z -> list Z -> world * result unit.

(** [create_training_model_comparison]: the list [shuffle_list]. *)
Definition create_training_model_comparison (w : world) (proj : project)
    (num_shuffles : Z) (net_types augmenter_types : list string)
  : world * result (list Z) :=
  match get_existing_shuffle_indices str_isdigit str_int float_mul proj
          None None with
  | Raise e => (w, Raise e)
  | Return existing_shuffles =>
      match (if len existing_shuffles =? 0 then Return 0
             else last_index <- py_index existing_shuffles (-1) ;;
                  Return (last_index + 1)) with
      | Raise e => (w, Raise e)
      | Return largestshuffleindex =>
          for_each
            (fun shuffle w shuffle_list =>
               match mergeandsplit_call w with
               | (w, Raise e) => (w, Raise e)
               | (w, Return (trainIndices, testIndices)) =>
                   for_each
                     (fun net w shuffle_list =>
                        for_each
                          (fun aug w shuffle_list =>
                             let get_max_shuffle_idx :=
                               largestshuffleindex + fst aug
                               + fst net * len augmenter_types
                               + shuffle * len augmenter_types
                                 * len net_types in
                             let shuffle_list :=
                               shuffle_list ++ [get_max_shuffle_idx] in
                             match create_call w get_max_shuffle_idx
                                     (snd net) (snd aug)
                                     trainIndices testIndices with
                             | (w, Raise e) => (w, Raise e)
                             | (w, Return _) => (w, Return shuffle_list)
                             end)
                          (enumerate augmenter_types) w shuffle_list)
                     (enumerate net_types) w shuffle_list
               end)
            (py_range2 0 num_shuffles) w []
      end
  end.

End ModelComparison.

(** ** Video names *)

(** [c in s] for a character [c] *)
Fixpoint char_in (c : ascii) (s : string) : bool :=
  match s with
  | EmptyString => false
  | String d s' => Ascii.eqb d c || char_in c s'
  end.

(** The two sides of the last [sep] of [s], if [s] holds one. *)
Fixpoint rsplit_last (sep : ascii) (s : string) : option (string * string) :=
  match s with
  | EmptyString => None
  | String c s' =>
      match rsplit_last sep s' with
      | Some (before, after) => Some (String c before, after)
      | None => if Ascii.eqb c sep then Some (EmptyString, s') else None
      end
  end.

(** [s.rsplit(sep, 1)] for a one-character separator *)
Definition py_rsplit1 (s : string) (sep : ascii) : list string :=
  match rsplit_last sep s with
  | Some (before, after) => [before; after]
  | None => [s]
  end.

(** A Python [dict] with string keys, in insertion order. *)
Definition dict (V : Type) : Type := list (string * V).

(** [d.get(key)] *)
Fixpoint dict_get {V : Type} (d : dict V) (key : string) : option V :=
  match d with
  | [] => None
  | (k, v) :: d' => if String.eqb k key then Some v else dict_get d' key
  end.

(** [d[key] = value] *)
Fixpoint dict_set {V : Type} (key : string) (value : V) (d : dict V) : dict V :=
  match d with
  | [] => [(key, value)]
  | (k, v) :: d' =>
      if String.eqb k key then (k, value) :: d'
      else (k, v) :: dict_set key value d'
  end.

(** [d.pop(key)] on a key of [d] *)
Fixpoint dict_pop {V : Type} (key : string) (d : dict V) : dict V :=
  match d with
  | [] => []
  | (k, v) :: d' =>
      if String.eqb k key then d' else (k, v) :: dict_pop key d'
  end.

(** [d.keys()] *)
Definition dict_keys {V : Type} (d : dict V) : list string := map fst d.

(** [key in d.keys()] *)
Definition dict_mem {V : Type} (key : string) (d : dict V) : bool :=
  match dict_get d key with Some _ => true | None => false end.

Section VideoNames.

(** [os.path.splitext] *)
Variable splitext : string -> string * string.
(** [Path(v).suffix], [Path(v).stem], [Path(v).parent.name] and
    [Path(v).parent.parent.name] *)
Variable path_suffix : string -> string.
Variable path_stem : string -> string.
Variable parent_name : string -> string.
Variable parent_parent_name : string -> string.
(** [s.lower()] *)
Variable str_lower : string -> string.

(** [_robust_path_split(path)].  The last branch raises a string, which
    is a [TypeError]. *)
Definition _robust_path_split (path : string)
  : result (string * string * string) :=
  let sep := if char_in "\" path then "\"%char else "/"%char in
  let splits := py_rsplit1 path sep in
  parent_file <-
    (if len splits =? 1 then
       file <- py_index splits 0 ;; Return ("."%string, file)
     else if len splits =? 2 then
       parent <- py_index splits 0 ;;
       file <- py_index splits 1 ;;
       Return (parent, file)
     else Raise TypeError) ;;
  let filename_ext := splitext (snd parent_file) in
  Return (fst parent_file, fst filename_ext, snd filename_ext).

(** The name under which [parse_video_filenames] files a video. *)
Definition video_filename (video : string) : result string :=
  if String.eqb (str_lower (path_suffix video)) ".avi" then
    split <- _robust_path_split video ;;
    Return (snd (fst split))
  else
    let filename := path_stem video in
    let parent := parent_name video in
    let parent_parent := parent_parent_name video in
    Return (parent_parent ++ "_" ++ parent ++ "_" ++ filename)%string.

(** The first loop of [parse_video_filenames]. *)
Fixpoint parse_video_loop (videos : list string) (filenames : list string)
    (filename_to_videos : dict (list string))
  : result (list string * dict (list string)) :=
  match videos with
  | [] => Return (filenames, filename_to_videos)
  | video :: rest =>
      filename <- video_filename video ;;
      let videos_with_filename :=
        match dict_get filename_to_videos filename with
        | Some l => l
        | None => []
        end in
      let filenames :=
        if len videos_with_filename =? 0 then filenames ++ [filename]
        else filenames in
      let videos_with_filename := videos_with_filename ++ [video] in
      parse_video_loop rest filenames
        (dict_set filename videos_with_filename filename_to_videos)
  end.

(** [parse_video_filenames(videos)] *)
Definition parse_video_filenames (videos : list string) : result (list string) :=
  r <- parse_video_loop videos [] [] ;;
  Return (fst r).

End VideoNames.

(** ** Pose configuration files *)

(** The outcome of a function that looks keys up: a value or the
    [KeyError] of a missing key. *)
Inductive lookup (A : Type) : Type :=
| Found (a : A)
| KeyError (key : string).

Arguments Found {A} a.
Arguments KeyError {A} key.

Section PoseConfig.

(** The values of a pose configuration, and the string among them. *)
Variable value : Type.
Variable str_value : string -> value.

(** [for key in source.keys(): docs0[key] = source[key]] *)
Definition update_from (source docs0 : dict value) : dict value :=
  fold_left (fun docs0 key =>
               match dict_get source key with
               | Some v => dict_set key v docs0
               | None => docs0
               end)
    (dict_keys source) docs0.

(** [MakeTrain_pose_yaml(itemstochange, saveasconfigfile, defaultconfigfile,
    items2drop, save)]: the mapping returned, which is also the one
    written when [save] holds; [template] is the first document of
    [defaultconfigfile]. *)
Definition MakeTrain_pose_yaml (itemstochange : dict value)
    (template : dict value) (items2drop : option (dict value)) : dict value :=
  let items2drop := match items2drop with Some d => d | None => [] end in
  let docs0 :=
    fold_left (fun docs0 key =>
                 if dict_mem key docs0 then dict_pop key docs0 else docs0)
      (dict_keys items2drop) template in
  update_from itemstochange docs0.

(** [MakeInference_yaml(itemstochange, saveasconfigfile, defaultconfigfile)] *)
Definition MakeInference_yaml (itemstochange : dict value)
    (template : dict value) : dict value :=
  update_from itemstochange template.

(** The first loop of [MakeTest_pose_yaml]. *)
Fixpoint copy_keys (dictionary : dict value) (keys2save : list string)
    (dict_test : dict value) : lookup (dict value) :=
  match keys2save with
  | [] => Found dict_test
  | key :: rest =>
      match dict_get dictionary key with
      | Some v => copy_keys dictionary rest (dict_set key v dict_test)
      | None => KeyError key
      end
  end.

(** [if given is not None: d[key] = given] *)
Definition set_if_given (key : string) (given : option value)
    (d : dict value) : dict value :=
  match given with Some v => dict_set key v d | None => d end.

(** [MakeTest_pose_yaml(dictionary, keys2save, saveasfile, nmsradius,
    minconfidence, sigma, locref_smooth)]: the mapping written. *)
Definition MakeTest_pose_yaml (dictionary : dict value)
    (keys2save : list string)
    (nmsradius minconfidence sigma locref_smooth : option value)
  : lookup (dict value) :=
  match copy_keys dictionary keys2save [] with
  | KeyError key => KeyError key
  | Found dict_test =>
      let dict_test := set_if_given "nmsradius" nmsradius dict_test in
      let dict_test := set_if_given "minconfidence" minconfidence dict_test in
      let dict_test := set_if_given "sigma" sigma dict_test in
      let dict_test := set_if_given "locref_smooth" locref_smooth dict_test in
      Found (dict_set "scoremap_dir" (str_value "test") dict_test)
  end.

End PoseConfig.

(** * Specification vocabulary *)

(** A train fraction of the data model: in (0, 1), two decimal digits. *)
Definition two_digit_fraction (f : Q) : Prop :=
  (0 < f)%Q /\ (f < 1)%Q /\ (py_round2 f == f)%Q.

(** What is assumed of the machine product [n * x]: it is within 1/100 of the
    exact one, and zero rows give zero. *)
Definition faithful_product (float_mul : Z -> Q -> Q) (n : Z) (x : Q) : Prop :=
  (Qabs (float_mul n x - inject_Z n * x) < 1 # 100)%Q
  /\ (n = 0 -> (float_mul n x == 0)%Q).

(** The number of base blocks at which the loop of [_compute_padding]
    stops: the least multiplier, at least 1, that covers both counts. *)
Definition blocks (train_step test_step num_train num_test : Z) : Z :=
  Z.max 1 (Z.max (Qceiling (inject_Z num_train / inject_Z train_step))
                 (Qceiling (inject_Z num_test / inject_Z test_step))).

(** The bounds test as the specification words it:
    [0 <= x < width] and [0 <= y < height]. *)
Definition inside_half_open (img_shape joint : Z * Z * Z) : bool :=
  let x := snd (fst joint) in
  let y := snd joint in
  ((0 <=? x) && (x <? shape_width img_shape))
  && ((0 <=? y) && (y <? shape_height img_shape)).

(** The entries that row [i] contributes to [train_data]. *)
Definition frame_entries (read_image_shape_fast : row_name -> Z * Z * Z)
    (df : DataFrame) (nbodyparts i : Z) : list train_entry :=
  match frame_joints read_image_shape_fast df i nbodyparts with
  | Return (filename, img_shape, joints) =>
      if 0 <? len joints then
        [{| entry_image := filename;
            entry_size := img_shape;
            entry_joints := joints |}]
      else []
  | Raise _ => []
  end.

(** Every element is at most the last one. *)
Definition last_is_max (l : list Z) : Prop :=
  forall x : Z, In x l -> x <= last l 0.

(** The order [sorted] leaves a list in. *)
Inductive ascending : list Z -> Prop :=
| ascending_nil : ascending []
| ascending_one (x : Z) : ascending [x]
| ascending_cons (x y : Z) (l : list Z) :
    x <= y -> ascending (y :: l) -> ascending (x :: y :: l).

(** The entry built for a shuffle and a supplied pair of index lists. *)
Definition supplied_entry (float_div : Z -> Z -> Q) (shuffle_idx : Z)
    (pair : list Z * list Z) : split_entry :=
  (py_round2 (float_div (len (fst pair)) (len (fst pair) + len (snd pair))),
   shuffle_idx,
   (strip_padding (fst pair), strip_padding (snd pair))).

(** What is assumed of the machine quotient [a / b]: it is within 1/1000
    of the exact one. *)
Definition faithful_quotient (float_div : Z -> Z -> Q) (a b : Z) : Prop :=
  (Qabs (float_div a b - inject_Z a / inject_Z b) < 1 # 1000)%Q.

(** The fractions of C3: greater than 1, less than 0, or different from
    their rounding to two digits, as NaN is. *)
Definition rejected_fraction (trainFraction : pyfloat) : Prop :=
  pyfloat_ltb (Finite 1) trainFraction = true
  \/ pyfloat_ltb trainFraction (Finite 0) = true
  \/ pyfloat_eqb (pyfloat_round2 trainFraction) trainFraction = false.

(** A supplied pair that holds at least one index or sentinel. *)
Definition nonempty_pair (pair : list Z * list Z) : Prop :=
  0 < len (fst pair) + len (snd pair).

(** [c] occurs in [s]. *)
Fixpoint occurs (c : ascii) (s : string) : Prop :=
  match s with
  | EmptyString => False
  | String d s' => d = c \/ occurs c s'
  end.

(** The first [k] characters of [s] exist and differ from [c]. *)
Fixpoint clear_ahead (c : ascii) (k : nat) (s : string) : Prop :=
  match k, s with
  | O, _ => True
  | S _, EmptyString => False
  | S k', String d s' => d <> c /\ clear_ahead c k' s'
  end.

(** A training-set folder with the shuffles 1, 2 and 3. *)
Definition sample_project : project :=
  {| trainset_folder :=
       Some [{| stem := "Documentation_data-demo_95shuffle1";
                suffix := ".pickle" |};
             {| stem := "demo_95shuffle1"; suffix := ".mat" |};
             {| stem := "Documentation_data-demo_95shuffle3";
                suffix := ".pickle" |};
             {| stem := "Documentation_data-demo_80shuffle2";
                suffix := ".pickle" |};
             {| stem := "CollectedData_me"; suffix := ".h5" |}];
     model_folder_exists := fun _ _ _ => true |}.

(** A project without a training-set folder. *)
Definition empty_project : project :=
  {| trainset_folder := None; model_folder_exists := fun _ _ _ => false |}.

(** A fraction that passes the guards of [SplitTrials]. *)
Definition accepted_fraction (f : Q) : Prop :=
  (0 <= f)%Q /\ (f <= 1)%Q /\ (py_round2 f == f)%Q.

(** The names of [names] in the order of their first occurrence, those of
    [seen] left out. *)
Fixpoint first_occurrences_from (seen names : list string) : list string :=
  match names with
  | [] => []
  | name :: rest =>
      if existsb (String.eqb name) seen then first_occurrences_from seen rest
      else name :: first_occurrences_from (seen ++ [name]) rest
  end.

Definition first_occurrences (names : list string) : list string :=
  first_occurrences_from [] names.

(** The names filed so far are the keys of the dictionary, each with at
    least one video. *)
Definition filed (filenames : list string) (d : dict (list string)) : Prop :=
  forall name : string,
    match dict_get d name with
    | Some l => l <> [] /\ In name filenames
    | None => ~ In name filenames
    end.

(** What [MakeTest_pose_yaml] was given for one of its four optional
    keys. *)
Definition given_value {value : Type}
    (nmsradius minconfidence sigma locref_smooth : option value)
    (key : string) : option value :=
  if String.eqb key "locref_smooth" then locref_smooth
  else if String.eqb key "sigma" then sigma
  else if String.eqb key "minconfidence" then minconfidence
  else if String.eqb key "nmsradius" then nmsradius
  else None.

(** What one entry of the training-set folder contributes to the list of
    [get_existing_shuffle_indices]: the body of its comprehension. *)
Definition entry_index
    (str_isdigit : string -> bool) (str_int : string -> result Z)
    (float_mul : Z -> Q -> Q) (train_fraction : option Q)
    (p : path) : result (option Z) :=
  if String.prefix "Documentation_data" (stem p)
     && String.eqb (suffix p) ".pickle" then
    valid <- is_valid_data_stem str_isdigit str_int float_mul train_fraction
               (stem p) ;;
    if valid then
      piece <- py_index (str_split (stem p) "shuffle") (-1) ;;
      idx <- str_int piece ;;
      Return (Some idx)
    else Return None
  else Return None.

(** [os.path.splitext] on a name without directories or leading dots: the
    extension starts at the last dot. *)
Definition dot_splitext (p : string) : string * string :=
  match rsplit_last "." p with
  | Some (root, ext) => (root, String "." ext)
  | None => (p, EmptyString)
  end.

(** * Properties *)

(** ** Rationals and rounding *)

#[global] Instance py_round_comp : Proper (Qeq ==> eq) py_round.
Proof.
  intros x y E. unfold py_round.
  rewrite (Qfloor_comp x y E).
  assert (C : (x - inject_Z (Qfloor y) ?= 1 # 2)%Q
              = (y - inject_Z (Qfloor y) ?= 1 # 2)%Q)
    by (apply Qcompare_comp; [rewrite E|]; reflexivity).
  rewrite C. reflexivity.
Qed.

#[global] Instance py_int_comp : Proper (Qeq ==> eq) py_int.
Proof.
  intros x y E. unfold py_int.
  rewrite (Qleb_comp 0%Q 0%Q (Qeq_refl 0) x y E).
  rewrite (Qfloor_comp x y E), (Qceiling_comp x y E). reflexivity.
Qed.

#[global] Instance py_round2_comp : Proper (Qeq ==> Qeq) py_round2.
Proof.
  intros x y E. unfold py_round2.
  assert (H : py_round (x * 100) = py_round (y * 100))
    by (apply py_round_comp; rewrite E; reflexivity).
  rewrite H. reflexivity.
Qed.

Lemma py_round_inject_Z (z : Z) : py_round (inject_Z z) = z.
Proof.
  unfold py_round. rewrite Qfloor_Z.
  destruct (Qcompare_spec (inject_Z z - inject_Z z) (1 # 2)) as [E|L|G];
    [lra | reflexivity | lra].
Qed.

Lemma py_round_eq_Z (x : Q) (z : Z) : (x == inject_Z z)%Q -> py_round x = z.
Proof. intros E. rewrite E. apply py_round_inject_Z. Qed.

Lemma py_int_inject_Z (z : Z) : py_int (inject_Z z) = z.
Proof.
  unfold py_int. rewrite Qfloor_Z, Qceiling_Z. destruct (Qle_bool 0 (inject_Z z)); reflexivity.
Qed.

Lemma py_int_eq_Z (x : Q) (z : Z) : (x == inject_Z z)%Q -> py_int x = z.
Proof. intros E. rewrite E. apply py_int_inject_Z. Qed.

Lemma is_integer_eq_Z (x : Q) (z : Z) : (x == inject_Z z)%Q -> is_integer x = true.
Proof.
  intros E. unfold is_integer. apply Qeq_bool_iff.
  rewrite E at 1. rewrite E, Qfloor_Z. reflexivity.
Qed.

Lemma is_integer_true (x : Q) : is_integer x = true -> (x == inject_Z (Qfloor x))%Q.
Proof. unfold is_integer. apply Qeq_bool_eq. Qed.

Lemma Qlt_bool_iff (a b : Q) : Qlt_bool a b = true <-> (a < b)%Q.
Proof.
  unfold Qlt_bool. rewrite negb_true_iff. split.
  - intros H. apply Qnot_le_lt. intros L. apply Qle_bool_iff in L. congruence.
  - intros H. destruct (Qle_bool b a) eqn:E; [|reflexivity].
    apply Qle_bool_iff in E. lra.
Qed.

Lemma Qlt_bool_false (a b : Q) : Qlt_bool a b = false <-> (b <= a)%Q.
Proof.
  unfold Qlt_bool. rewrite negb_false_iff. apply Qle_bool_iff.
Qed.

Lemma inject_Z_nonzero (z : Z) : z <> 0 -> ~ (inject_Z z == 0)%Q.
Proof.
  intros Hz E. apply Hz.
  apply (proj1 (inject_Z_injective z 0)). exact E.
Qed.

Lemma inject_Z_div_exact (k d : Z) :
  d <> 0 -> (inject_Z (k * d) / inject_Z d == inject_Z k)%Q.
Proof.
  intros Hd. rewrite inject_Z_mult. apply Qdiv_mult_l.
  apply inject_Z_nonzero. exact Hd.
Qed.

Lemma inject_Z_pos (z : Z) : 0 < z -> (0 < inject_Z z)%Q.
Proof. intros H. change 0%Q with (inject_Z 0). rewrite <- Zlt_Qlt. exact H. Qed.

(** The ceiling of a quotient of integers covers the numerator. *)
Lemma ceiling_quotient_covers (n d m : Z) :
  0 < d -> Qceiling (inject_Z n / inject_Z d) <= m -> n <= m * d.
Proof.
  intros Hd Hm. rewrite Zle_Qle, inject_Z_mult.
  pose proof (inject_Z_pos d Hd) as Hd'.
  pose proof (Qle_ceiling (inject_Z n / inject_Z d)) as Hc.
  rewrite Zle_Qle in Hm.
  assert (Hq : (inject_Z n / inject_Z d <= inject_Z m)%Q)
    by (eapply Qle_trans; eassumption).
  apply (Qmult_le_compat_r _ _ (inject_Z d)) in Hq; [|lra].
  setoid_replace (inject_Z n / inject_Z d * inject_Z d)%Q with (inject_Z n) in Hq
    by (field; lra).
  exact Hq.
Qed.

Lemma ceiling_quotient_pos (n d : Z) :
  0 < n -> 0 < d -> 1 <= Qceiling (inject_Z n / inject_Z d).
Proof.
  intros Hn Hd.
  pose proof (Qle_ceiling (inject_Z n / inject_Z d)) as Hc.
  assert (Hq : (0 < inject_Z n / inject_Z d)%Q).
  { apply Qlt_shift_div_l; [apply inject_Z_pos; exact Hd|].
    rewrite Qmult_0_l. apply inject_Z_pos. exact Hn. }
  assert (H0 : (inject_Z 0 < inject_Z (Qceiling (inject_Z n / inject_Z d)))%Q).
  { change (inject_Z 0) with 0%Q. lra. }
  rewrite <- Zlt_Qlt in H0. lia.
Qed.

(** ** Two-digit train fractions *)

Lemma two_digit_percent (f : Q) :
  two_digit_fraction f ->
  exists p : Z, 0 < p < 100 /\ (f == inject_Z p / 100)%Q.
Proof.
  intros (H0 & H1 & H2). exists (py_round (f * 100)).
  unfold py_round2 in H2.
  set (p := py_round (f * 100)) in *.
  assert (Hp : (inject_Z p == f * 100)%Q).
  { setoid_replace (f * 100)%Q with (inject_Z p / 100 * 100)%Q
      by (rewrite H2; reflexivity).
    field. }
  split; [|rewrite Hp; field].
  split; rewrite Zlt_Qlt; rewrite Hp; change (inject_Z 0) with 0%Q;
    change (inject_Z 100) with 100%Q; lra.
Qed.

Lemma percent_two_digit (p : Z) :
  0 < p < 100 -> two_digit_fraction (inject_Z p / 100).
Proof.
  intros [H0 H1]. unfold two_digit_fraction.
  apply inject_Z_pos in H0 as H0'.
  assert (H1' : (inject_Z p < 100)%Q).
  { change 100%Q with (inject_Z 100). rewrite <- Zlt_Qlt. exact H1. }
  split; [|split].
  - apply Qlt_shift_div_l; lra.
  - apply Qlt_shift_div_r; lra.
  - unfold py_round2.
    rewrite (py_round_eq_Z (inject_Z p / 100 * 100) p) by (field).
    reflexivity.
Qed.

(** The block of [pad_train_test_indices] at the fraction [p/100]. *)
Lemma pad_block (f : Q) (p : Z) :
  0 < p < 100 -> (f == inject_Z p / 100)%Q ->
  let g := Z.gcd 100 p in
  py_round (100 * f) = p
  /\ py_int (inject_Z 100 / inject_Z g) = 100 / g
  /\ py_round (inject_Z (100 / g) * f) = p / g
  /\ 0 < g /\ p = p / g * g /\ 100 = 100 / g * g
  /\ 0 < p / g /\ 0 < 100 / g - p / g.
Proof.
  intros Hp Hf g.
  assert (Hg : 0 < g).
  { pose proof (Z.gcd_nonneg 100 p).
    destruct (Z.eq_dec g 0) as [E|]; [|lia].
    apply Z.gcd_eq_0_l in E. discriminate. }
  destruct (Z.gcd_divide_l 100 p) as [a Ha].
  destruct (Z.gcd_divide_r 100 p) as [b Hb].
  fold g in Ha, Hb.
  assert (Ea : 100 / g = a) by (rewrite Ha at 1; apply Z.div_mul; lia).
  assert (Eb : p / g = b) by (rewrite Hb at 1; apply Z.div_mul; lia).
  rewrite Ea, Eb.
  assert (Hg' : ~ (inject_Z g == 0)%Q).
  { apply inject_Z_nonzero. lia. }
  split; [|split; [|split; [|split; [|split; [|split; [|split]]]]]];
    try lia; try nia.
  - apply py_round_eq_Z. rewrite Hf. field.
  - apply py_int_eq_Z. rewrite Ha at 1. apply inject_Z_div_exact. lia.
  - apply py_round_eq_Z. rewrite Hf.
    assert (E : (inject_Z a * inject_Z g == 100)%Q).
    { rewrite <- inject_Z_mult, <- Ha. reflexivity. }
    assert (E' : (inject_Z p == inject_Z b * inject_Z g)%Q).
    { rewrite <- inject_Z_mult, <- Hb. reflexivity. }
    rewrite E'. rewrite <- E. field. split; [exact Hg'|].
    intros Z0. rewrite Z0 in E. lra.
Qed.

(** ** The padding calculator *)

Lemma py_truediv_nonzero (a b : Z) :
  b <> 0 -> py_truediv a b = Return (inject_Z a / inject_Z b)%Q.
Proof.
  intros Hb. unfold py_truediv.
  destruct (Z.eqb_spec b 0); [contradiction|reflexivity].
Qed.

Lemma len_nonneg {A : Type} (l : list A) : 0 <= len l.
Proof. unfold len. lia. Qed.

Lemma len_app {A : Type} (l l' : list A) : len (l ++ l') = len l + len l'.
Proof. unfold len. rewrite length_app. lia. Qed.

Lemma len_repeat {A : Type} (v : A) (k : nat) :
  len (repeat v k) = Z.of_nat k.
Proof. unfold len. rewrite repeat_length. reflexivity. Qed.

Lemma len_py_list_mul {A : Type} (v : A) (k : Z) :
  len (py_list_mul v k) = Z.max 0 k.
Proof. unfold len, py_list_mul. rewrite repeat_length. lia. Qed.

(** The outcome of [pad_train_test_indices] at the fraction [p/100] on a
    non-empty pair whose ratio is not [p/100]. *)
Lemma pad_train_test_indices_percent
    (train_inds test_inds : list Z) (f : Q) (p : Z) :
  0 < p < 100 -> (f == inject_Z p / 100)%Q ->
  0 < len train_inds + len test_inds ->
  ~ (inject_Z (len train_inds) / inject_Z (len train_inds + len test_inds)
     == f)%Q ->
  let g := Z.gcd 100 p in
  let m := Z.max (Qceiling (inject_Z (len train_inds) / inject_Z (p / g)))
                 (Qceiling (inject_Z (len test_inds)
                            / inject_Z (100 / g - p / g))) in
  pad_train_test_indices train_inds test_inds f
  = Return (Some
      (train_inds ++ py_list_mul sentinel (m * (p / g) - len train_inds),
       test_inds
         ++ py_list_mul sentinel (m * (100 / g - p / g) - len test_inds)))
  /\ 1 <= m
  /\ len train_inds <= m * (p / g)
  /\ len test_inds <= m * (100 / g - p / g).
Proof.
  intros Hp Hf Hlen Hratio g m.
  destruct (pad_block f p Hp Hf) as (B1 & B2 & B3 & Bg & Bp & B100 & Bt & Bs).
  fold g in B1, B2, B3, Bg, Bp, B100, Bt, Bs.
  pose proof (len_nonneg train_inds) as Ltr.
  pose proof (len_nonneg test_inds) as Lte.
  split; [|split; [|split]].
  - unfold pad_train_test_indices.
    rewrite py_truediv_nonzero by lia. cbn [bind].
    destruct (Qeq_bool _ f) eqn:E; [apply Qeq_bool_eq in E; contradiction|].
    rewrite B1. fold g.
    rewrite py_truediv_nonzero by lia. cbn [bind].
    rewrite B2, B3.
    rewrite (py_truediv_nonzero _ (p / g)) by lia. cbn [bind].
    rewrite (py_truediv_nonzero _ (100 / g - p / g)) by lia. cbn [bind].
    reflexivity.
  - subst m.
    destruct (Z.eq_dec (len train_inds) 0) as [E0|N0].
    + pose proof (ceiling_quotient_pos (len test_inds) (100 / g - p / g)
                    ltac:(lia) Bs). lia.
    + pose proof (ceiling_quotient_pos (len train_inds) (p / g)
                    ltac:(lia) Bt). lia.
  - apply ceiling_quotient_covers; [exact Bt|subst m; lia].
  - apply ceiling_quotient_covers; [exact Bs|subst m; lia].
Qed.

Lemma block_ratio (m a s g p : Z) :
  1 <= m -> 0 < g -> 0 < s -> p = a * g -> 100 = s * g ->
  (inject_Z (m * a) / inject_Z (m * a + m * (s - a))
   == inject_Z p / 100)%Q.
Proof.
  intros Hm Hg Hs Hp H100.
  replace (m * a + m * (s - a)) with (m * s) by ring.
  assert (E100 : (100 == inject_Z s * inject_Z g)%Q).
  { rewrite <- inject_Z_mult, <- H100. reflexivity. }
  rewrite E100, Hp, !inject_Z_mult.
  pose proof (inject_Z_nonzero m ltac:(lia)).
  pose proof (inject_Z_nonzero g ltac:(lia)).
  pose proof (inject_Z_nonzero s ltac:(lia)).
  field. auto.
Qed.

(** The outcome on a non-empty pair whose ratio is not the two-digit
    fraction: sentinels are appended and the ratio becomes exact. *)
Lemma pad_train_test_indices_padded
    (train_inds test_inds : list Z) (f : Q) :
  two_digit_fraction f ->
  0 < len train_inds + len test_inds ->
  ~ (inject_Z (len train_inds) / inject_Z (len train_inds + len test_inds)
     == f)%Q ->
  exists a b : nat,
    pad_train_test_indices train_inds test_inds f
    = Return (Some (train_inds ++ repeat sentinel a,
                    test_inds ++ repeat sentinel b))
    /\ (inject_Z (len train_inds + Z.of_nat a)
        / inject_Z (len train_inds + Z.of_nat a
                    + (len test_inds + Z.of_nat b)) == f)%Q.
Proof.
  intros Hf Hlen Hratio.
  destruct (two_digit_percent f Hf) as (p & Hp & Ef).
  destruct (pad_block f p Hp Ef) as (_ & _ & _ & Bg & Bp & B100 & Bt & Bs).
  destruct (pad_train_test_indices_percent train_inds test_inds f p
              Hp Ef Hlen Hratio) as (R & Hm & Htr & Hte).
  set (g := Z.gcd 100 p) in *.
  set (m := Z.max _ _) in *.
  exists (Z.to_nat (m * (p / g) - len train_inds)),
         (Z.to_nat (m * (100 / g - p / g) - len test_inds)).
  split; [exact R|].
  rewrite !Z2Nat.id by lia.
  replace (len train_inds + (m * (p / g) - len train_inds))
    with (m * (p / g)) by ring.
  replace (len test_inds + (m * (100 / g - p / g) - len test_inds))
    with (m * (100 / g - p / g)) by ring.
  rewrite Ef. apply (block_ratio m (p / g) (100 / g) g p); lia.
Qed.

(** C1.  On a non-empty pair of index arrays whose ratio is not the
    two-digit fraction [f], [pad_train_test_indices] appends sentinels up to
    the lengths [m * min_train] and [m * min_test], with
    [min_len = 100 / gcd(100, round(100 f))],
    [min_train = round(min_len * f)], [min_test = min_len - min_train] and
    [m = max(ceil(n_train / min_train), ceil(n_test / min_test))]; both
    deltas are non-negative and the ratio of the padded lengths is exactly
    [f]; for 26 and 7 indices at 0.8 the targets are 28 and 7 and the
    deltas 2 and 0. *)
Theorem pad_train_test_indices_targets
    (train_inds test_inds : list Z) (f : Q) :
  two_digit_fraction f ->
  0 < len train_inds + len test_inds ->
  ~ (inject_Z (len train_inds) / inject_Z (len train_inds + len test_inds)
     == f)%Q ->
  let n_train := len train_inds in
  let n_test := len test_inds in
  let min_len := 100 / Z.gcd 100 (py_round (100 * f)) in
  let min_train := py_round (inject_Z min_len * f) in
  let min_test := min_len - min_train in
  let m := Z.max (Qceiling (inject_Z n_train / inject_Z min_train))
                 (Qceiling (inject_Z n_test / inject_Z min_test)) in
  exists train_padded test_padded : list Z,
    pad_train_test_indices train_inds test_inds f
    = Return (Some (train_padded, test_padded))
    /\ train_padded
       = train_inds ++ repeat sentinel (Z.to_nat (m * min_train - n_train))
    /\ test_padded
       = test_inds ++ repeat sentinel (Z.to_nat (m * min_test - n_test))
    /\ len train_padded = m * min_train
    /\ len test_padded = m * min_test
    /\ 0 <= m * min_train - n_train
    /\ 0 <= m * min_test - n_test
    /\ (inject_Z (len train_padded)
        / inject_Z (len train_padded + len test_padded) == f)%Q
    /\ (n_train = 26 -> n_test = 7 -> (f == 8 # 10)%Q ->
        m * min_train = 28 /\ m * min_test = 7
        /\ m * min_train - n_train = 2 /\ m * min_test - n_test = 0).
Proof.
  intros Hf Hlen Hratio.
  destruct (two_digit_percent f Hf) as (p & Hp & Ef).
  destruct (pad_block f p Hp Ef) as (B1 & B2 & B3 & Bg & Bp & B100 & Bt & Bs).
  destruct (pad_train_test_indices_percent train_inds test_inds f p
              Hp Ef Hlen Hratio) as (R & Hm & Htr & Hte).
  cbv zeta. rewrite B1, B3.
  set (g := Z.gcd 100 p) in *.
  set (m := Z.max _ _) in *.
  eexists _, _. split; [exact R|].
  split; [reflexivity|]. split; [reflexivity|].
  rewrite !len_app, !len_py_list_mul.
  replace (Z.max 0 (m * (p / g) - len train_inds))
    with (m * (p / g) - len train_inds) by lia.
  replace (Z.max 0 (m * (100 / g - p / g) - len test_inds))
    with (m * (100 / g - p / g) - len test_inds) by lia.
  replace (len train_inds + (m * (p / g) - len train_inds))
    with (m * (p / g)) by ring.
  replace (len test_inds + (m * (100 / g - p / g) - len test_inds))
    with (m * (100 / g - p / g)) by ring.
  split; [reflexivity|]. split; [reflexivity|].
  split; [lia|]. split; [lia|]. split.
  - rewrite Ef. apply (block_ratio m (p / g) (100 / g) g p); try lia.
  - intros E26 E7 E8.
    assert (P80 : p = 80).
    { rewrite <- B1. apply py_round_eq_Z. rewrite E8. reflexivity. }
    subst m g. rewrite E26, E7, P80. vm_compute. repeat split; reflexivity.
Qed.

(** C1 at 26 train and 7 test indices and the fraction 0.8. *)
Lemma pad_train_test_indices_targets_witness :
  exists train_padded test_padded : list Z,
    pad_train_test_indices (py_range 26) (map (Z.add 26) (py_range 7)) (8 # 10)
    = Return (Some (train_padded, test_padded))
    /\ len train_padded = 28 /\ len test_padded = 7.
Proof.
  destruct (pad_train_test_indices_targets
              (py_range 26) (map (Z.add 26) (py_range 7)) (8 # 10))
    as (tr & te & R & _ & _ & Ltr & Lte & _).
  - unfold two_digit_fraction. vm_compute. repeat split; reflexivity.
  - vm_compute. reflexivity.
  - vm_compute. discriminate.
  - exists tr, te. split; [exact R|]. split; [exact Ltr|exact Lte].
Defined.

(** When the ratio is already the requested one, the bare [return] is
    taken: the caller gets [None], not the two arrays. *)
Lemma pad_train_test_indices_exact (train_inds test_inds : list Z) (f : Q) :
  0 < len train_inds + len test_inds ->
  (inject_Z (len train_inds) / inject_Z (len train_inds + len test_inds)
   == f)%Q ->
  pad_train_test_indices train_inds test_inds f = Return None.
Proof.
  intros Hlen Hratio. unfold pad_train_test_indices.
  rewrite py_truediv_nonzero by lia. cbn [bind].
  apply Qeq_bool_iff in Hratio. rewrite Hratio. reflexivity.
Qed.

(** Two empty arrays have no ratio: the division raises. *)
Lemma pad_train_test_indices_empty (f : Q) :
  pad_train_test_indices [] [] f = Raise ZeroDivisionError.
Proof. reflexivity. Qed.

(** C2.  On the exact split [0, 1, 2, 3] / [4] of the fraction 0.8,
    [pad_train_test_indices] returns [None] instead of the two arrays. *)
Theorem pad_train_test_indices_exact_returns_None :
  (inject_Z (len [0; 1; 2; 3]) / inject_Z (len [0; 1; 2; 3] + len [4])
   == 8 # 10)%Q
  /\ pad_train_test_indices [0; 1; 2; 3] [4] (8 # 10) = Return None
  /\ pad_train_test_indices [0; 1; 2; 3] [4] (8 # 10)
     <> Return (Some ([0; 1; 2; 3], [4])).
Proof.
  split; [reflexivity|]. split; [reflexivity|]. discriminate.
Qed.

(** The same [None] reaches [SplitTrials] in binary64 arithmetic: with 100
    rows and the fraction 0.07 the product is 7.000000000000001, not an
    integer, the 7/93 split it yields is already exact, and unpacking the
    [None] raises a [TypeError]. *)
Lemma SplitTrials_binary64_unpacks_None :
  is_integer (binary64_mul 100 (7 # 100)) = false
  /\ SplitTrials binary64_mul (fun l => l) (py_range 100) (7 # 100) true
     = Raise TypeError.
Proof. split; vm_compute; reflexivity. Qed.

(** ** The index splitter: rejected fractions *)

Lemma Qabs_pos_iff (x : Q) : (0 < Qabs x)%Q <-> ~ (x == 0)%Q.
Proof.
  split.
  - intros H E. rewrite E in H. discriminate H.
  - intros H. pose proof (Qabs_nonneg x) as N.
    destruct (Qeq_dec (Qabs x) 0) as [E|NE].
    + exfalso. apply H.
      apply (Qabs_case x (fun a => a == 0 -> x == 0)%Q); [| |exact E];
        intros; lra.
    + lra.
Qed.

(** On a number [SplitTrials_float] is [SplitTrials]. *)
Lemma SplitTrials_float_finite
    (float_mul : Z -> Q -> Q) (permutation : list Z -> list Z)
    (trialindex : list Z) (f : Q) (enforce_train_fraction : bool) :
  SplitTrials_float float_mul permutation trialindex (Finite f)
    enforce_train_fraction
  = SplitTrials float_mul permutation trialindex f enforce_train_fraction.
Proof. reflexivity. Qed.

Lemma SplitTrials_rejected_number
    (float_mul : Z -> Q -> Q) (permutation : list Z -> list Z)
    (trialindex : list Z) (f : Q) (enforce_train_fraction : bool) :
  (1 < f)%Q \/ (f < 0)%Q \/ ~ (py_round2 f == f)%Q ->
  SplitTrials float_mul permutation trialindex f enforce_train_fraction
  = Return ([], []).
Proof.
  intros H. unfold SplitTrials.
  destruct (Qlt_bool 1 f || Qlt_bool f 0) eqn:G; [reflexivity|].
  apply orb_false_iff in G. destruct G as [G1 G0].
  apply Qlt_bool_false in G1, G0.
  destruct H as [H|[H|H]]; [lra|lra|].
  assert (P : Qlt_bool 0 (Qabs (f - py_round2 f)) = true).
  { apply Qlt_bool_iff, Qabs_pos_iff. intros E. apply H. lra. }
  rewrite P. reflexivity.
Qed.

(** C3, as the code has it.  A fraction above 1, below 0 or different from
    its rounding to two digits yields the empty pair, without an
    exception, unless it is NaN.  NaN differs from its rounding, as from
    everything, but no comparison with it holds: it passes both guards and
    [int(train_size)] raises a [ValueError]. *)
Theorem SplitTrials_rejected_fraction
    (float_mul : Z -> Q -> Q) (permutation : list Z -> list Z)
    (trialindex : list Z) (trainFraction : pyfloat)
    (enforce_train_fraction : bool) :
  rejected_fraction trainFraction ->
  SplitTrials_float float_mul permutation trialindex trainFraction
    enforce_train_fraction
  = match trainFraction with
    | Special NotANumber => Raise (ValueError NaNToInteger)
    | _ => Return ([], [])
    end.
Proof.
  intros H. destruct trainFraction as [f|[| |]]; try reflexivity.
  rewrite SplitTrials_float_finite. apply SplitTrials_rejected_number.
  destruct H as [H|[H|H]]; cbn in H.
  - left. apply Qlt_bool_iff. exact H.
  - right. left. apply Qlt_bool_iff. exact H.
  - right. right. intros E. apply Qeq_bool_iff in E. congruence.
Qed.

(** C3 as amended, at the fraction 0.333 and at NaN. *)
Lemma SplitTrials_rejected_fraction_witness :
  SplitTrials_float binary64_mul (fun l => l) (py_range 10)
    (Finite (333 # 1000)) true
  = Return ([], [])
  /\ SplitTrials_float binary64_mul (fun l => l) (py_range 10)
       (Special NotANumber) true
     = Raise (ValueError NaNToInteger).
Proof.
  split.
  - apply (SplitTrials_rejected_fraction binary64_mul (fun l => l)
             (py_range 10) (Finite (333 # 1000)) true).
    right. right. vm_compute. reflexivity.
  - apply (SplitTrials_rejected_fraction binary64_mul (fun l => l)
             (py_range 10) (Special NotANumber) true).
    right. right. reflexivity.
Defined.

(** C3 fails at the bounds: the fraction 1 lies outside the open interval
    (0, 1), yet the split is not empty. *)
Lemma SplitTrials_fraction_one_accepted :
  ~ ((0 < 1)%Q /\ (1 < 1)%Q)
  /\ SplitTrials binary64_mul (fun l => l) [0; 1; 2] 1 false
     = Return ([0; 1; 2], [])
  /\ SplitTrials binary64_mul (fun l => l) [0; 1; 2] 1 false
     <> Return ([], []).
Proof.
  split; [intros [_ H]; discriminate H|].
  split; [vm_compute; reflexivity|].
  vm_compute. discriminate.
Qed.

(** ** The index splitter: exact fractions *)

Lemma exact_mul_faithful (n : Z) (x : Q) : faithful_product exact_mul n x.
Proof.
  unfold faithful_product, exact_mul. split.
  - setoid_replace (inject_Z n * x - inject_Z n * x)%Q with 0%Q by ring.
    reflexivity.
  - intros ->. ring.
Qed.

Lemma two_digit_fraction_comp (f f' : Q) :
  (f == f')%Q -> two_digit_fraction f -> two_digit_fraction f'.
Proof.
  intros E (H0 & H1 & H2). unfold two_digit_fraction.
  rewrite <- E. auto.
Qed.

Lemma py_range_length (n : nat) : List.length (py_range n) = n.
Proof. unfold py_range. rewrite length_map, length_seq. reflexivity. Qed.

Lemma len_py_range (n : nat) : len (py_range n) = Z.of_nat n.
Proof. unfold len. rewrite py_range_length. reflexivity. Qed.

Lemma py_range_In (n : nat) (i : Z) : In i (py_range n) <-> 0 <= i < Z.of_nat n.
Proof.
  unfold py_range. rewrite in_map_iff. split.
  - intros (k & <- & Hk). apply in_seq in Hk. lia.
  - intros H. exists (Z.to_nat i). split; [lia|]. apply in_seq. lia.
Qed.

(** Real indices are never the sentinel. *)
Lemma py_range_no_sentinel (n : nat) : ~ In sentinel (py_range n).
Proof. rewrite py_range_In. unfold sentinel. lia. Qed.

Lemma strip_padding_id (l : list Z) : ~ In sentinel l -> strip_padding l = l.
Proof.
  induction l as [|a l IH]; intros H; [reflexivity|].
  cbn. destruct (Z.eqb_spec a sentinel) as [E|N].
  - exfalso. apply H. left. exact E.
  - cbn. f_equal. apply IH. intros I. apply H. right. exact I.
Qed.

Lemma strip_padding_sentinels (k : nat) : strip_padding (repeat sentinel k) = [].
Proof. induction k as [|k IH]; [reflexivity|]. cbn. exact IH. Qed.

(** Stripping removes exactly the appended sentinels. *)
Lemma strip_padding_app (l : list Z) (k : nat) :
  ~ In sentinel l -> strip_padding (l ++ repeat sentinel k) = l.
Proof.
  intros H. unfold strip_padding. rewrite filter_app.
  fold (strip_padding l). fold (strip_padding (repeat sentinel k)).
  rewrite strip_padding_id by exact H.
  rewrite strip_padding_sentinels. apply app_nil_r.
Qed.

Lemma slice_lengths {A : Type} (l : list A) (k : Z) :
  0 <= k <= len l ->
  len (slice_to l k) = k /\ len (slice_from l k) = len l - k.
Proof.
  intros Hk. unfold slice_to, slice_from, slice_index, len in *.
  destruct (Z.ltb_spec k 0); [lia|].
  rewrite length_firstn, length_skipn. lia.
Qed.

Lemma slice_to_from {A : Type} (l : list A) (k : Z) :
  slice_to l k ++ slice_from l k = l.
Proof. apply firstn_skipn. Qed.

(** The truncated product lies within the index. *)
Section Product.

Variables (t f : Q) (n p : Z).
Hypothesis Hp : 0 < p < 100.
Hypothesis Hf : (f == inject_Z p / 100)%Q.
Hypothesis Hn : 0 <= n.
Hypothesis Ht : (Qabs (t - inject_Z n * f) < 1 # 100)%Q.
Hypothesis Ht0 : n = 0 -> (t == 0)%Q.

Lemma fraction_bounds : (1 # 100 <= f)%Q /\ (f <= 99 # 100)%Q.
Proof.
  assert (H1 : (inject_Z 1 <= inject_Z p)%Q) by (rewrite <- Zle_Qle; lia).
  assert (H2 : (inject_Z p <= inject_Z 99)%Q) by (rewrite <- Zle_Qle; lia).
  change (inject_Z 1) with 1%Q in H1. change (inject_Z 99) with 99%Q in H2.
  rewrite Hf. split.
  - apply Qle_shift_div_l; lra.
  - apply Qle_shift_div_r; lra.
Qed.

Lemma product_bounds : (0 <= t)%Q /\ (t <= inject_Z n)%Q.
Proof.
  destruct (Z.eq_dec n 0) as [E|N].
  - rewrite (Ht0 E), E. split; [lra|discriminate].
  - destruct fraction_bounds as [F1 F2].
    apply Qabs_diff_Qlt_condition in Ht.
    assert (N1 : (1 <= inject_Z n)%Q).
    { change 1%Q with (inject_Z 1). rewrite <- Zle_Qle. lia. }
    assert (M1 : (0 <= (inject_Z n - 1) * (f - (1 # 100)))%Q)
      by (apply Qmult_le_0_compat; lra).
    assert (M2 : (0 <= (inject_Z n - 1) * ((99 # 100) - f))%Q)
      by (apply Qmult_le_0_compat; lra).
    split; lra.
Qed.

Lemma truncated_product_bounds : 0 <= py_int t <= n.
Proof.
  destruct product_bounds as [B0 Bn].
  unfold py_int. apply Qle_bool_iff in B0 as B0'. rewrite B0'.
  split.
  - apply Qfloor_resp_le in B0. change (Qfloor 0%Q) with 0 in B0. exact B0.
  - apply Qfloor_resp_le in Bn. rewrite Qfloor_Z in Bn. exact Bn.
Qed.

(** An integral product is the exact one. *)
Lemma integral_product_exact :
  is_integer t = true -> (inject_Z (py_int t) == inject_Z n * f)%Q.
Proof.
  intros Hi. apply is_integer_true in Hi.
  destruct product_bounds as [B0 _].
  assert (Ek : py_int t = Qfloor t).
  { unfold py_int. apply Qle_bool_iff in B0. rewrite B0. reflexivity. }
  rewrite Ek. set (k := Qfloor t) in *.
  apply Qabs_diff_Qlt_condition in Ht.
  assert (E : 100 * k = n * p).
  { assert (L : (inject_Z (100 * k - n * p) < inject_Z 1)%Q).
    { unfold Z.sub. rewrite inject_Z_plus, inject_Z_opp, !inject_Z_mult.
      change (inject_Z 100) with 100%Q. change (inject_Z 1) with 1%Q.
      setoid_replace (inject_Z n * inject_Z p)%Q with (100 * (inject_Z n * f))%Q
        by (rewrite Hf; field).
      lra. }
    assert (G : (inject_Z (-1) < inject_Z (100 * k - n * p))%Q).
    { unfold Z.sub. rewrite inject_Z_plus, inject_Z_opp, !inject_Z_mult.
      change (inject_Z 100) with 100%Q. change (inject_Z (-1)) with (-1)%Q.
      setoid_replace (inject_Z n * inject_Z p)%Q with (100 * (inject_Z n * f))%Q
        by (rewrite Hf; field).
      lra. }
    rewrite <- Zlt_Qlt in L, G. lia. }
  rewrite Hf.
  setoid_replace (inject_Z n * (inject_Z p / 100))%Q
    with (inject_Z (n * p) / 100)%Q by (rewrite inject_Z_mult; field).
  rewrite <- E, inject_Z_mult. change (inject_Z 100) with 100%Q. field.
Qed.

End Product.

(** A two-digit fraction passes both guards of [SplitTrials]. *)
Lemma SplitTrials_accepted
    (float_mul : Z -> Q -> Q) (permutation : list Z -> list Z)
    (trialindex : list Z) (f : Q) (enforce : bool) :
  two_digit_fraction f ->
  SplitTrials float_mul permutation trialindex f enforce
  = let train_size := float_mul (len trialindex) (py_round2 f) in
    let shuffle := permutation trialindex in
    let test_indices := slice_from shuffle (py_int train_size) in
    let train_indices := slice_to shuffle (py_int train_size) in
    if enforce && negb (is_integer train_size) then
      padded <- pad_train_test_indices train_indices test_indices
                  (py_round2 f) ;;
      match padded with
      | Some (train_indices, test_indices) =>
          Return (train_indices, test_indices)
      | None => Raise TypeError
      end
    else Return (train_indices, test_indices).
Proof.
  intros (H0 & H1 & H2). unfold SplitTrials.
  assert (G1 : Qlt_bool 1 f = false) by (apply Qlt_bool_false; lra).
  assert (G0 : Qlt_bool f 0 = false) by (apply Qlt_bool_false; lra).
  rewrite G1, G0. cbn [orb].
  assert (G2 : Qlt_bool 0 (Qabs (f - py_round2 f)) = false).
  { apply Qlt_bool_false.
    setoid_replace (f - py_round2 f)%Q with 0%Q by lra. discriminate. }
  rewrite G2. reflexivity.
Qed.

Section EnforcedSplit.

Variable float_mul : Z -> Q -> Q.
Variable permutation : list Z -> list Z.
Variable trialindex : list Z.
Variable f : Q.

Hypothesis Hf : two_digit_fraction f.
Hypothesis Hperm : Permutation (permutation trialindex) trialindex.
Hypothesis Hsent : ~ In sentinel trialindex.
Hypothesis Hmul : faithful_product float_mul (len trialindex) (py_round2 f).

Let n := len trialindex.
Let t := float_mul n (py_round2 f).
Let shuffle := permutation trialindex.
Let train0 := slice_to shuffle (py_int t).
Let test0 := slice_from shuffle (py_int t).

Lemma round2_fraction : (py_round2 f == f)%Q.
Proof. apply Hf. Qed.

Lemma shuffle_len : len shuffle = n.
Proof.
  unfold shuffle, n, len. f_equal. apply Permutation_length. exact Hperm.
Qed.

Lemma slice_bounds : 0 <= py_int t <= n.
Proof.
  destruct (two_digit_percent _
              (two_digit_fraction_comp _ _
                 (Qeq_sym _ _ round2_fraction) Hf)) as (p & Hp & Ep).
  destruct Hmul as [M1 M0].
  apply (truncated_product_bounds t (py_round2 f) n p Hp Ep
           (len_nonneg trialindex) M1 M0).
Qed.

Lemma split_lengths : len train0 = py_int t /\ len test0 = n - py_int t.
Proof.
  pose proof slice_bounds as B. rewrite <- shuffle_len in B |- *.
  apply slice_lengths. exact B.
Qed.

Lemma split_no_sentinel : ~ In sentinel train0 /\ ~ In sentinel test0.
Proof.
  split; intros I; apply Hsent;
    apply (Permutation_in _ Hperm); fold shuffle;
    rewrite <- (slice_to_from shuffle (py_int t));
    apply in_or_app; [left|right]; exact I.
Qed.

Lemma split_permutation : Permutation (train0 ++ test0) trialindex.
Proof.
  unfold train0, test0. rewrite slice_to_from. exact Hperm.
Qed.

Lemma integral_split_exact :
  is_integer t = true -> (inject_Z (py_int t) == inject_Z n * f)%Q.
Proof.
  intros Hi.
  destruct (two_digit_percent _
              (two_digit_fraction_comp _ _
                 (Qeq_sym _ _ round2_fraction) Hf)) as (p & Hp & Ep).
  destruct Hmul as [M1 M0].
  rewrite <- round2_fraction.
  apply (integral_product_exact t (py_round2 f) n p Hp Ep
           (len_nonneg trialindex) M1 M0 Hi).
Qed.

Lemma fractional_split_nonempty : is_integer t = false -> 0 < n.
Proof.
  intros Hi. pose proof (len_nonneg trialindex) as N. fold n in N.
  destruct (Z.eq_dec n 0) as [E|]; [|lia].
  destruct Hmul as [_ M0]. specialize (M0 E). fold n t in M0.
  rewrite (is_integer_eq_Z t 0 M0) in Hi. discriminate.
Qed.

(** What an enforced split is, whenever one is produced. *)
Lemma enforced_split_shape (train_padded test_padded : list Z) :
  SplitTrials float_mul permutation trialindex f true
  = Return (train_padded, test_padded) ->
  (exists a b : nat,
      train_padded = train0 ++ repeat sentinel a
      /\ test_padded = test0 ++ repeat sentinel b)
  /\ (inject_Z (len train_padded)
      == f * inject_Z (len train_padded + len test_padded))%Q.
Proof.
  rewrite (SplitTrials_accepted _ _ _ _ _ Hf). cbv zeta.
  fold n t shuffle train0 test0. cbn [andb].
  destruct split_lengths as [Ltr Lte].
  destruct (is_integer t) eqn:Hi; cbn [negb].
  - intros E. injection E as <- <-. split.
    + exists O, O. rewrite !app_nil_r. split; reflexivity.
    + rewrite Ltr, Lte. replace (py_int t + (n - py_int t)) with n by ring.
      rewrite (integral_split_exact Hi). ring.
  - pose proof (fractional_split_nonempty Hi) as Npos.
    destruct (Qeq_dec (inject_Z (len train0)
                       / inject_Z (len train0 + len test0)) (py_round2 f))
      as [Ex|Nex].
    + assert (Hpos : 0 < len train0 + len test0) by (rewrite Ltr, Lte; lia).
      rewrite (pad_train_test_indices_exact train0 test0 (py_round2 f)
                 Hpos Ex).
      cbn [bind]. discriminate.
    + destruct (pad_train_test_indices_padded train0 test0 (py_round2 f))
        as (a & b & R & Rt).
      * apply (two_digit_fraction_comp f); [|exact Hf].
        symmetry. exact round2_fraction.
      * rewrite Ltr, Lte. lia.
      * exact Nex.
      * rewrite R. cbn [bind]. intros E. injection E as <- <-. split.
        -- exists a, b. split; reflexivity.
        -- rewrite !len_app, !len_repeat.
           rewrite round2_fraction in Rt.
           set (x := len train0 + Z.of_nat a) in *.
           set (y := len test0 + Z.of_nat b) in *.
           assert (D : ~ (inject_Z (x + y) == 0)%Q).
           { intros Z0. rewrite Z0 in Rt. unfold Qdiv in Rt.
             change (/ 0)%Q with 0%Q in Rt. rewrite Qmult_0_r in Rt.
             destruct Hf as [F0 _]. lra. }
           rewrite <- Rt. field. exact D.
Qed.

(** With the exact product a split is always produced. *)
Lemma enforced_split_returns :
  (t == inject_Z n * f)%Q ->
  exists train_padded test_padded : list Z,
    SplitTrials float_mul permutation trialindex f true
    = Return (train_padded, test_padded).
Proof.
  intros Et.
  rewrite (SplitTrials_accepted _ _ _ _ _ Hf). cbv zeta.
  fold n t shuffle train0 test0. cbn [andb].
  destruct split_lengths as [Ltr Lte].
  destruct (is_integer t) eqn:Hi; cbn [negb].
  - eexists _, _. reflexivity.
  - pose proof (fractional_split_nonempty Hi) as Npos.
    destruct (pad_train_test_indices_padded train0 test0 (py_round2 f))
      as (a & b & R & _).
    + apply (two_digit_fraction_comp f); [|exact Hf].
      symmetry. exact round2_fraction.
    + rewrite Ltr, Lte. lia.
    + rewrite Ltr, Lte. replace (py_int t + (n - py_int t)) with n by ring.
      rewrite round2_fraction. intros Ex.
      assert (Ek : (t == inject_Z (py_int t))%Q).
      { set (k := py_int t) in *. rewrite Et, <- Ex. field.
        apply inject_Z_nonzero. lia. }
      rewrite (is_integer_eq_Z t _ Ek) in Hi. discriminate.
    + rewrite R. cbn [bind]. eexists _, _. reflexivity.
Qed.

End EnforcedSplit.

(** C4.  For a two-digit fraction [f] and an index free of the sentinel
    (as [range(total_count)] is), every split that [SplitTrials] produces
    with [enforce_train_fraction=True] has the ratio [f] exactly, its arrays
    are the raw train and test slices of the shuffled index followed by
    sentinels only, and removing the sentinels gives back these slices; with
    the exact product a split is always produced. *)
Theorem SplitTrials_enforced_exact_ratio
    (float_mul : Z -> Q -> Q) (permutation : list Z -> list Z)
    (trialindex : list Z) (f : Q) :
  two_digit_fraction f ->
  Permutation (permutation trialindex) trialindex ->
  ~ In sentinel trialindex ->
  faithful_product float_mul (len trialindex) (py_round2 f) ->
  let shuffle := permutation trialindex in
  let train_size := float_mul (len trialindex) (py_round2 f) in
  let train_indices := slice_to shuffle (py_int train_size) in
  let test_indices := slice_from shuffle (py_int train_size) in
  ((train_size == inject_Z (len trialindex) * f)%Q ->
   exists train_padded test_padded : list Z,
     SplitTrials float_mul permutation trialindex f true
     = Return (train_padded, test_padded))
  /\ (forall train_padded test_padded : list Z,
        SplitTrials float_mul permutation trialindex f true
        = Return (train_padded, test_padded) ->
        (inject_Z (len train_padded)
         == f * inject_Z (len train_padded + len test_padded))%Q
        /\ (trialindex <> [] ->
            (inject_Z (len train_padded)
             / inject_Z (len train_padded + len test_padded) == f)%Q)
        /\ (exists a b : nat,
               train_padded = train_indices ++ repeat sentinel a
               /\ test_padded = test_indices ++ repeat sentinel b)
        /\ strip_padding train_padded = train_indices
        /\ strip_padding test_padded = test_indices
        /\ Permutation (strip_padding train_padded
                        ++ strip_padding test_padded) trialindex)
  /\ (forall total_count : nat, ~ In sentinel (py_range total_count)).
Proof.
  intros Hf Hperm Hsent Hmul. cbv zeta.
  split; [|split].
  - apply enforced_split_returns; assumption.
  - intros tp te E.
    destruct (enforced_split_shape float_mul permutation trialindex f
                Hf Hperm Hmul tp te E) as ((a & b & Etp & Ete) & Cross).
    destruct (split_no_sentinel float_mul permutation trialindex f
                Hperm Hsent) as [S1 S2].
    destruct (split_lengths float_mul permutation trialindex f
                Hf Hperm Hmul) as [L1 L2].
    assert (Str : strip_padding tp
                  = slice_to (permutation trialindex)
                      (py_int (float_mul (len trialindex) (py_round2 f))))
      by (rewrite Etp; apply strip_padding_app; exact S1).
    assert (Ste : strip_padding te
                  = slice_from (permutation trialindex)
                      (py_int (float_mul (len trialindex) (py_round2 f))))
      by (rewrite Ete; apply strip_padding_app; exact S2).
    split; [exact Cross|]. split; [|split; [|split; [|split]]].
    + intros Hne.
      assert (Hpos : 0 < len tp + len te).
      { rewrite Etp, Ete, !len_app, L1, L2.
        pose proof (len_nonneg (repeat sentinel a)).
        pose proof (len_nonneg (repeat sentinel b)).
        assert (0 < len trialindex)
          by (destruct trialindex; [contradiction|unfold len; cbn; lia]).
        lia. }
      rewrite Cross. field. apply inject_Z_nonzero. lia.
    + exists a, b. split; assumption.
    + exact Str.
    + exact Ste.
    + rewrite Str, Ste.
      apply (split_permutation float_mul permutation trialindex f Hperm).
  - apply py_range_no_sentinel.
Qed.

(** C4 on 33 rows at the fraction 0.8, in binary64 arithmetic. *)
Lemma SplitTrials_enforced_exact_ratio_witness :
  let train_padded := py_range 26 ++ [sentinel; sentinel] in
  let test_padded := map (Z.add 26) (py_range 7) in
  SplitTrials binary64_mul (fun l => l) (py_range 33) (8 # 10) true
  = Return (train_padded, test_padded)
  /\ (inject_Z (len train_padded)
      == (8 # 10) * inject_Z (len train_padded + len test_padded))%Q
  /\ strip_padding train_padded = py_range 26
  /\ strip_padding test_padded = map (Z.add 26) (py_range 7).
Proof.
  intros tp te.
  assert (E : SplitTrials binary64_mul (fun l => l) (py_range 33) (8 # 10) true
              = Return (tp, te)) by (vm_compute; reflexivity).
  destruct (SplitTrials_enforced_exact_ratio binary64_mul (fun l => l)
              (py_range 33) (8 # 10)) as (_ & H & _).
  - unfold two_digit_fraction. vm_compute. repeat split; reflexivity.
  - apply Permutation_refl.
  - apply py_range_no_sentinel.
  - split; [vm_compute; reflexivity|intros H; vm_compute in H; discriminate H].
  - destruct (H tp te E) as (Cross & _ & _ & Str & Ste & _).
    split; [exact E|]. split; [exact Cross|]. split; [exact Str|exact Ste].
Defined.

(** ** Padding a copied split *)

Lemma ceiling_quotient_least (n d j : Z) :
  0 < d -> j < Qceiling (inject_Z n / inject_Z d) -> j * d < n.
Proof.
  intros Hd Hj.
  pose proof (inject_Z_pos d Hd) as Hd'.
  pose proof (Qceiling_lt (inject_Z n / inject_Z d)) as Hc.
  set (c := Qceiling (inject_Z n / inject_Z d)) in *.
  assert (Hq : (inject_Z (c - 1) * inject_Z d < inject_Z n)%Q).
  { apply (Qmult_lt_compat_r _ _ (inject_Z d)) in Hc; [|exact Hd'].
    setoid_replace (inject_Z n / inject_Z d * inject_Z d)%Q
      with (inject_Z n) in Hc by (field; lra).
    exact Hc. }
  rewrite <- inject_Z_mult, <- Zlt_Qlt in Hq. nia.
Qed.

Section Loop.

Variables train_step test_step num_train num_test : Z.
Hypothesis Htrain : 0 < train_step.
Hypothesis Htest : 0 < test_step.

Lemma blocks_cover :
  num_train <= blocks train_step test_step num_train num_test * train_step
  /\ num_test <= blocks train_step test_step num_train num_test * test_step.
Proof.
  split; apply ceiling_quotient_covers; try assumption; unfold blocks; lia.
Qed.

Lemma blocks_least (j : Z) :
  1 <= j -> num_train <= j * train_step -> num_test <= j * test_step ->
  blocks train_step test_step num_train num_test <= j.
Proof.
  intros Hj H1 H2. unfold blocks.
  destruct (Z_lt_le_dec j (Qceiling (inject_Z num_train / inject_Z train_step)))
    as [L|G1].
  { apply ceiling_quotient_least in L; [lia|exact Htrain]. }
  destruct (Z_lt_le_dec j (Qceiling (inject_Z num_test / inject_Z test_step)))
    as [L|G2].
  { apply ceiling_quotient_least in L; [lia|exact Htest]. }
  lia.
Qed.

Lemma compute_padding_loop_blocks (fuel : nat) (j : Z) :
  1 <= j <= blocks train_step test_step num_train num_test ->
  (Z.to_nat (blocks train_step test_step num_train num_test - j) < fuel)%nat ->
  compute_padding_loop fuel train_step test_step num_train num_test
    (j * train_step) (j * test_step)
  = Some (blocks train_step test_step num_train num_test * train_step,
          blocks train_step test_step num_train num_test * test_step).
Proof.
  set (k := blocks train_step test_step num_train num_test).
  revert j. induction fuel as [|fuel IH]; intros j Hj Hfuel; [lia|].
  cbn [compute_padding_loop].
  destruct (Z.eq_dec j k) as [E|N].
  - subst j. destruct blocks_cover as [C1 C2]. fold k in C1, C2.
    destruct (Z.ltb_spec (k * train_step) num_train); [lia|].
    destruct (Z.ltb_spec (k * test_step) num_test); [lia|].
    reflexivity.
  - assert (Hgo : (j * train_step <? num_train)
                  || (j * test_step <? num_test) = true).
    { apply orb_true_iff.
      destruct (Z.ltb_spec (j * train_step) num_train); [left; reflexivity|].
      destruct (Z.ltb_spec (j * test_step) num_test); [right; reflexivity|].
      exfalso.
      pose proof (blocks_least j ltac:(lia) ltac:(lia) ltac:(lia)) as Hle.
      fold k in Hle. lia. }
    rewrite Hgo.
    replace (j * train_step + train_step) with ((j + 1) * train_step) by ring.
    replace (j * test_step + test_step) with ((j + 1) * test_step) by ring.
    apply IH; lia.
Qed.

End Loop.

(** C6, as the code has it.  At a two-digit fraction [f], with [k] the
    least multiplier (at least 1) whose multiple of the base-100 block
    [(round(100 f), 100 - round(100 f))] covers both counts,
    [_compute_padding] returns, given [k] units of fuel, the deltas to
    [k] blocks; the deltas are non-negative and the ratio of the targets is
    exactly [f]; when [gcd(100, round(100 f)) = 1] this is the padding of
    [pad_train_test_indices]. *)
Theorem compute_padding_base_100_block
    (fuel : nat) (f : Q) (num_train num_test : Z) :
  two_digit_fraction f ->
  let train_step := py_round (100 * f) in
  let test_step := 100 - train_step in
  let k := blocks train_step test_step num_train num_test in
  (Z.to_nat k <= fuel)%nat ->
  _compute_padding fuel f num_train num_test
  = Some (Return (k * train_step - num_train, k * test_step - num_test))
  /\ 0 <= k * train_step - num_train
  /\ 0 <= k * test_step - num_test
  /\ (inject_Z (k * train_step) / inject_Z (k * train_step + k * test_step)
      == f)%Q
  /\ (forall j : Z,
        1 <= j -> num_train <= j * train_step -> num_test <= j * test_step ->
        k <= j)
  /\ (Z.gcd 100 train_step = 1 ->
      forall train_inds test_inds : list Z,
        len train_inds = num_train -> len test_inds = num_test ->
        0 < num_train + num_test ->
        ~ (inject_Z num_train / inject_Z (num_train + num_test) == f)%Q ->
        pad_train_test_indices train_inds test_inds f
        = Return (Some
            (train_inds
               ++ py_list_mul sentinel (k * train_step - num_train),
             test_inds
               ++ py_list_mul sentinel (k * test_step - num_test)))).
Proof.
  intros Hf.
  destruct (two_digit_percent f Hf) as (p & Hp & Ef).
  destruct (pad_block f p Hp Ef) as (B1 & _).
  cbv zeta. rewrite B1. intros Hfuel.
  set (k := blocks p (100 - p) num_train num_test) in *.
  assert (K1 : 1 <= k) by (unfold k, blocks; lia).
  destruct (blocks_cover p (100 - p) num_train num_test) as [C1 C2]; try lia.
  fold k in C1, C2.
  split; [|split; [|split; [|split; [|split]]]]; try lia.
  - unfold _compute_padding.
    destruct Hf as (F0 & F1 & F2).
    assert (G0 : Qle_bool f 0 = false).
    { destruct (Qle_bool f 0) eqn:E; [|reflexivity].
      apply Qle_bool_iff in E. lra. }
    assert (G1 : Qle_bool 1 f = false).
    { destruct (Qle_bool 1 f) eqn:E; [|reflexivity].
      apply Qle_bool_iff in E. lra. }
    rewrite G0, G1. cbn [orb].
    assert (S : py_round (py_round2 f * inject_Z 100) = p).
    { apply py_round_eq_Z. rewrite F2, Ef. change (inject_Z 100) with 100%Q.
      field. }
    rewrite S.
    replace p with (1 * p) at 3 by ring.
    replace (100 - p) with (1 * (100 - p)) at 2 by ring.
    rewrite (compute_padding_loop_blocks p (100 - p) num_train num_test)
      by (fold k; lia).
    reflexivity.
  - rewrite Ef. apply (block_ratio k p 100 1 p); lia.
  - intros j Hj H1 H2.
    apply (blocks_least p (100 - p) num_train num_test); lia.
  - intros Hg train_inds test_inds Ltr Lte Hpos Hratio.
    subst num_train num_test.
    destruct (pad_train_test_indices_percent train_inds test_inds f p
                Hp Ef Hpos Hratio) as (R & Hm & _).
    rewrite Hg, !Z.div_1_r in R, Hm.
    assert (Ek : k = Z.max
                   (Qceiling (inject_Z (len train_inds) / inject_Z p))
                   (Qceiling (inject_Z (len test_inds)
                              / inject_Z (100 - p))))
      by (unfold k, blocks; lia).
    rewrite Ek. exact R.
Qed.

(** C6 as amended, at 26 and 7 indices and the fraction 0.8. *)
Lemma compute_padding_base_100_block_witness :
  _compute_padding 1 (8 # 10) 26 7 = Some (Return (54, 13)).
Proof.
  apply (compute_padding_base_100_block 1 (8 # 10) 26 7).
  - unfold two_digit_fraction. vm_compute. repeat split; reflexivity.
  - vm_compute. lia.
Defined.

(** C6 fails as stated: for 26 and 7 indices at 0.8 the copied split is
    padded by (54, 13), to one block of 100, where
    [pad_train_test_indices] pads by (2, 0), to seven blocks of 5. *)
Lemma compute_padding_not_gcd_reduced :
  _compute_padding 1 (8 # 10) 26 7 = Some (Return (54, 13))
  /\ pad_train_test_indices (py_range 26) (map (Z.add 26) (py_range 7)) (8 # 10)
     = Return (Some (py_range 26 ++ py_list_mul sentinel 2,
                     map (Z.add 26) (py_range 7) ++ py_list_mul sentinel 0))
  /\ (54, 13) <> (2, 0).
Proof.
  split; [vm_compute; reflexivity|].
  split; [vm_compute; reflexivity|]. discriminate.
Qed.

(** ** Sequences *)

Lemma combine_seq_In {A : Type} (l : list A) (s : nat) (i : Z) (a : A) :
  In (i, a) (combine (map Z.of_nat (seq s (List.length l))) l)
  <-> exists k : nat, i = Z.of_nat (s + k) /\ nth_error l k = Some a.
Proof.
  revert s. induction l as [|x l IH]; intros s; cbn.
  - split; [contradiction|]. intros (k & _ & H). destruct k; discriminate.
  - rewrite IH. split.
    + intros [E|(k & -> & H)].
      * injection E as <- <-. exists O. split; [f_equal; lia|reflexivity].
      * exists (S k). split; [f_equal; lia|exact H].
    + intros ([|k] & -> & H).
      * left. cbn in H. injection H as <-. f_equal. f_equal. lia.
      * right. exists k. split; [f_equal; lia|exact H].
Qed.

Lemma enumerate_In {A : Type} (l : list A) (i : Z) (a : A) :
  In (i, a) (enumerate l)
  <-> 0 <= i /\ nth_error l (Z.to_nat i) = Some a.
Proof.
  unfold enumerate, py_range. rewrite combine_seq_In. split.
  - intros (k & -> & H). cbn. rewrite Nat2Z.id. split; [lia|exact H].
  - intros [Hi H]. exists (Z.to_nat i). cbn. split; [lia|exact H].
Qed.

Lemma enumerate_fst {A : Type} (l : list A) :
  map fst (enumerate l) = py_range (List.length l).
Proof.
  unfold enumerate. generalize (py_range_length (List.length l)).
  generalize (py_range (List.length l)) as r. revert l.
  induction l as [|x l IH]; intros [|i r] H; try discriminate; cbn.
  - reflexivity.
  - f_equal. apply IH. cbn in H. lia.
Qed.

Lemma py_range_NoDup (n : nat) : NoDup (py_range n).
Proof.
  unfold py_range. apply Finite.Injective_map_NoDup; [|apply seq_NoDup].
  intros a b E. lia.
Qed.

(** ** Formatting the training data *)

Lemma drop_nan_astype_int_In (joints : list (Z * cell * cell)) (b x y : Z) :
  In (b, x, y) (drop_nan_astype_int joints)
  <-> exists cx cy : Q,
        In (b, Num cx, Num cy) joints /\ x = py_int cx /\ y = py_int cy.
Proof.
  induction joints as [|[[b' c1] c2] joints IH]; cbn.
  - split; [contradiction|]. intros (? & ? & [] & _).
  - destruct c1 as [|cx]; [|destruct c2 as [|cy]]; cbn; rewrite IH.
    + split.
      * intros (cx & cy & H & E). exists cx, cy. split; [right; exact H|exact E].
      * intros (cx & cy & [H|H] & E); [discriminate H|].
        exists cx, cy. split; assumption.
    + split.
      * intros (cx' & cy & H & E). exists cx', cy.
        split; [right; exact H|exact E].
      * intros (cx' & cy & [H|H] & E); [discriminate H|].
        exists cx', cy. split; assumption.
    + split.
      * intros [E|(cx' & cy' & H & E)].
        -- injection E as <- <- <-. exists cx, cy.
           split; [left; reflexivity|split; reflexivity].
        -- exists cx', cy'. split; [right; exact H|exact E].
      * intros (cx' & cy' & [H|H] & E1 & E2).
        -- injection H as <- <- <-. left. subst. reflexivity.
        -- right. exists cx', cy'. auto.
Qed.

Lemma inside_iff (img_shape joint : Z * Z * Z) :
  inside img_shape joint = true
  <-> 0 < snd (fst joint) < shape_width img_shape
      /\ 0 < snd joint < shape_height img_shape.
Proof.
  unfold inside. rewrite !andb_true_iff, !Z.ltb_lt. lia.
Qed.

Lemma mask_filter {A : Type} (p : A -> bool) (l : list A) :
  (if negb (forallb p l) then filter p l else l) = filter p l.
Proof.
  destruct (forallb p l) eqn:E; cbn; [|reflexivity].
  symmetry. apply forallb_filter_id. exact E.
Qed.

Section FormatProperties.

Variable read_image_shape_fast : row_name -> Z * Z * Z.
Variable df : DataFrame.
Variable nbodyparts : Z.

Lemma np_c__In (temp : list (cell * cell)) (joints : list (Z * cell * cell))
    (b : Z) (c1 c2 : cell) :
  np_c_ nbodyparts temp = Return joints ->
  (In (b, c1, c2) joints
   <-> 0 <= b /\ nth_error temp (Z.to_nat b) = Some (c1, c2)).
Proof.
  unfold np_c_. destruct (Z.max 0 nbodyparts =? len temp); [|discriminate].
  intros E. injection E as <-. rewrite in_map_iff. split.
  - intros ([b' [c1' c2']] & E & H). cbn in E. injection E as -> -> ->.
    apply enumerate_In in H. exact H.
  - intros H. exists (b, (c1, c2)). split; [reflexivity|].
    apply enumerate_In. exact H.
Qed.

(** The joints kept for a row: the body parts with both coordinates
    present whose truncated coordinates are strictly inside the image. *)
Lemma frame_joints_retained (i : Z) (filename : row_name)
    (img_shape : Z * Z * Z) (joints : list (Z * Z * Z)) :
  frame_joints read_image_shape_fast df i nbodyparts
  = Return (filename, img_shape, joints) ->
  exists (values : list cell) (temp : list (cell * cell)),
    py_index (df_index df) i = Return filename
    /\ img_shape = read_image_shape_fast filename
    /\ py_index (map snd df) i = Return values
    /\ reshape2 values = Return temp
    /\ forall b x y : Z,
         In (b, x, y) joints
         <-> exists cx cy : Q,
               (0 <= b /\ nth_error temp (Z.to_nat b) = Some (Num cx, Num cy))
               /\ x = py_int cx /\ y = py_int cy
               /\ 0 < x < shape_width img_shape
               /\ 0 < y < shape_height img_shape.
Proof.
  unfold frame_joints.
  destruct (py_index (df_index df) i) as [fn|] eqn:E1; [|discriminate].
  cbn [bind].
  destruct (py_index (map snd df) i) as [values|] eqn:E2; [|discriminate].
  cbn [bind].
  destruct (reshape2 values) as [temp|] eqn:E3; [|discriminate].
  cbn [bind].
  destruct (np_c_ nbodyparts temp) as [rows|] eqn:E4; [|discriminate].
  cbn [bind]. rewrite mask_filter.
  intros E. injection E as <- <- <-.
  exists values, temp. do 3 (split; [reflexivity|]). split; [exact E3|].
  intros b x y. rewrite filter_In, drop_nan_astype_int_In, inside_iff. cbn.
  split.
  - intros ((cx & cy & H & Ex & Ey) & Hin).
    exists cx, cy. rewrite (np_c__In temp rows b _ _ E4) in H. tauto.
  - intros (cx & cy & H & Ex & Ey & Hin).
    split; [|tauto]. exists cx, cy.
    rewrite (np_c__In temp rows b _ _ E4). tauto.
Qed.

Lemma format_training_data_entries (train_inds : list Z) :
  (forall i : Z, In i train_inds ->
     exists r, frame_joints read_image_shape_fast df i nbodyparts = Return r) ->
  format_training_data read_image_shape_fast df train_inds nbodyparts
  = Return (flat_map (frame_entries read_image_shape_fast df nbodyparts)
              train_inds).
Proof.
  induction train_inds as [|i rest IH]; intros H; [reflexivity|].
  cbn [format_training_data flat_map].
  destruct (H i (or_introl eq_refl)) as ([[fn sh] js] & E).
  unfold frame_entries at 1. rewrite E. cbn [bind].
  rewrite IH by (intros j Hj; apply H; right; exact Hj). cbn [bind].
  destruct (0 <? len js); reflexivity.
Qed.

Lemma frame_entries_In (i : Z) (e : train_entry) :
  In e (frame_entries read_image_shape_fast df nbodyparts i)
  <-> frame_joints read_image_shape_fast df i nbodyparts
      = Return (entry_image e, entry_size e, entry_joints e)
      /\ entry_joints e <> [].
Proof.
  unfold frame_entries.
  destruct (frame_joints read_image_shape_fast df i nbodyparts)
    as [[[fn sh] js]|] eqn:E.
  - destruct js as [|j js]; cbn.
    + split; [contradiction|]. intros [H N]. injection H as _ _ H.
      apply N. symmetry. exact H.
    + split.
      * intros [<-|[]]. cbn. split; [reflexivity|discriminate].
      * intros [H _]. injection H as -> -> ->. left. destruct e; reflexivity.
  - cbn. split; [contradiction|]. intros [H _]. discriminate H.
Qed.

End FormatProperties.

(** C5, as the code has it.  When every train index addresses a
    well-shaped row, [format_training_data] returns; for each row a body
    part is kept if and only if both coordinates are present and the
    truncated coordinates satisfy [0 < x < width] and [0 < y < height]; a
    row is in the result if and only if it keeps at least one body part. *)
Theorem format_training_data_strict_bounds
    (read_image_shape_fast : row_name -> Z * Z * Z)
    (df : DataFrame) (train_inds : list Z) (nbodyparts : Z) :
  (forall i : Z, In i train_inds ->
     exists r, frame_joints read_image_shape_fast df i nbodyparts = Return r) ->
  exists train_data : list train_entry,
    format_training_data read_image_shape_fast df train_inds nbodyparts
    = Return train_data
    /\ (forall (i : Z) (filename : row_name) (img_shape : Z * Z * Z)
               (joints : list (Z * Z * Z)),
          In i train_inds ->
          frame_joints read_image_shape_fast df i nbodyparts
          = Return (filename, img_shape, joints) ->
          (exists (values : list cell) (temp : list (cell * cell)),
              py_index (map snd df) i = Return values
              /\ reshape2 values = Return temp
              /\ forall b x y : Z,
                   In (b, x, y) joints
                   <-> exists cx cy : Q,
                         (0 <= b
                          /\ nth_error temp (Z.to_nat b)
                             = Some (Num cx, Num cy))
                         /\ x = py_int cx /\ y = py_int cy
                         /\ 0 < x < shape_width img_shape
                         /\ 0 < y < shape_height img_shape)
          /\ (In {| entry_image := filename;
                    entry_size := img_shape;
                    entry_joints := joints |} train_data
              <-> joints <> []))
    /\ (forall e : train_entry,
          In e train_data ->
          entry_joints e <> []
          /\ exists i : Z,
               In i train_inds
               /\ frame_joints read_image_shape_fast df i nbodyparts
                  = Return (entry_image e, entry_size e, entry_joints e)).
Proof.
  intros Hrows.
  exists (flat_map (frame_entries read_image_shape_fast df nbodyparts)
            train_inds).
  split; [apply format_training_data_entries; exact Hrows|]. split.
  - intros i filename img_shape joints Hi E. split.
    + destruct (frame_joints_retained _ _ _ _ _ _ _ E)
        as (values & temp & _ & _ & E2 & E3 & H).
      exists values, temp. auto.
    + rewrite in_flat_map. split.
      * intros (j & _ & Hj). apply frame_entries_In in Hj. apply Hj.
      * intros N. exists i. split; [exact Hi|].
        apply frame_entries_In. cbn. split; [exact E|exact N].
  - intros e He. apply in_flat_map in He. destruct He as (i & Hi & He).
    apply frame_entries_In in He. destruct He as [E N].
    split; [exact N|]. exists i. split; assumption.
Qed.

(** C5 as amended on a table of two rows, the second without any label. *)
Lemma format_training_data_strict_bounds_witness :
  let name0 := {| level0 := "labeled-data"; folder := "video1";
                  image := "img0.png" |} in
  let name1 := {| level0 := "labeled-data"; folder := "video1";
                  image := "img1.png" |} in
  let df := [(name0, [Num (21 # 2); Num 30; NaN; NaN]);
             (name1, [NaN; Num 4; Num 200; Num 5])] in
  exists train_data : list train_entry,
    format_training_data (fun _ => (3, 100, 100)) df [0; 1] 2
    = Return train_data.
Proof.
  intros name0 name1 df.
  destruct (format_training_data_strict_bounds
              (fun _ => (3, 100, 100)) df [0; 1] 2) as (train_data & E & _).
  - intros i [<-|[<-|[]]]; eexists; vm_compute; reflexivity.
  - exists train_data. exact E.
Defined.

(** C5 fails at the lower bound: a body part at x = 0.5, y = 10 of a
    100 x 100 image has the pixel coordinates (0, 10), inside
    [0, width) x [0, height), and is dropped; its row, left without a
    body part, is excluded. *)
Lemma format_training_data_drops_zero_coordinate :
  let name0 := {| level0 := "labeled-data"; folder := "video1";
                  image := "img0.png" |} in
  let img_shape := (3, 100, 100) in
  let df := [(name0, [Num (1 # 2); Num 10])] in
  inside_half_open img_shape (0, py_int (1 # 2), py_int 10) = true
  /\ frame_joints (fun _ => img_shape) df 0 1 = Return (name0, img_shape, [])
  /\ format_training_data (fun _ => img_shape) df [0] 1 = Return [].
Proof.
  cbv zeta. split; [reflexivity|]. split; vm_compute; reflexivity.
Qed.

(** ** Leave one folder out *)

Lemma py_index_nth {A : Type} (l : list A) (i : Z) (a : A) :
  0 <= i -> nth_error l (Z.to_nat i) = Some a -> py_index l i = Return a.
Proof.
  intros Hi H. unfold py_index.
  destruct (Z.ltb_spec i 0); [lia|].
  destruct (Z.ltb_spec i 0); [lia|]. rewrite H. reflexivity.
Qed.

Lemma split_by_folder_filter (v : string) (rows : list (Z * row_name))
    (trainIndices testIndices : list Z) :
  split_by_folder v rows trainIndices testIndices
  = (trainIndices
       ++ map fst (filter (fun r => negb (String.eqb v (folder (snd r)))) rows),
     testIndices
       ++ map fst (filter (fun r => String.eqb v (folder (snd r))) rows)).
Proof.
  revert trainIndices testIndices.
  induction rows as [|[index name] rows IH]; intros tr te; cbn.
  - rewrite !app_nil_r. reflexivity.
  - destruct (String.eqb v (folder name)); cbn; rewrite IH, <- app_assoc;
      reflexivity.
Qed.

Lemma filter_partition_permutation {A B : Type} (p : A -> bool) (g : A -> B)
    (l : list A) :
  Permutation (map g (filter (fun a => negb (p a)) l) ++ map g (filter p l))
    (map g l).
Proof.
  induction l as [|a l IH]; cbn; [constructor|].
  destruct (p a); cbn.
  - apply Permutation_sym, Permutation_cons_app, Permutation_sym. exact IH.
  - constructor. exact IH.
Qed.

(** C9.  With [uniform=False] and a table at hand, [mergeandsplit] returns
    as test indices exactly the positions of the rows whose folder is the
    stem of the video at position [trainindex] of the configured list, as
    train indices the other positions, and the two lists partition
    [0 .. len(Data) - 1]. *)
Theorem mergeandsplit_leave_one_folder_out
    (float_mul : Z -> Q -> Q) (permutation : list Z -> list Z)
    (path_stem : string -> string) (cfg : config)
    (stored merged : option DataFrame) (Data : DataFrame)
    (trainindex : Z) (video : string) :
  match stored with Some d => Some d | None => merged end = Some Data ->
  0 <= trainindex ->
  nth_error (video_sets cfg) (Z.to_nat trainindex) = Some video ->
  exists trainIndices testIndices : list Z,
    mergeandsplit float_mul permutation path_stem cfg stored merged
      trainindex false = Return (trainIndices, testIndices)
    /\ (forall i : Z,
          In i testIndices
          <-> exists name : row_name,
                (0 <= i /\ nth_error (df_index Data) (Z.to_nat i) = Some name)
                /\ folder name = path_stem video)
    /\ (forall i : Z,
          In i trainIndices
          <-> exists name : row_name,
                (0 <= i /\ nth_error (df_index Data) (Z.to_nat i) = Some name)
                /\ folder name <> path_stem video)
    /\ Permutation (trainIndices ++ testIndices)
         (py_range (List.length Data))
    /\ NoDup (trainIndices ++ testIndices).
Proof.
  intros HData Hi Hvideo.
  set (v := path_stem video).
  set (rows := enumerate (df_index Data)).
  exists (map fst (filter (fun r => negb (String.eqb v (folder (snd r)))) rows)),
         (map fst (filter (fun r => String.eqb v (folder (snd r))) rows)).
  assert (P : Permutation
                (map fst (filter (fun r => negb (String.eqb v (folder (snd r))))
                            rows)
                 ++ map fst (filter (fun r => String.eqb v (folder (snd r)))
                               rows))
                (py_range (List.length Data))).
  { eapply Permutation_trans.
    - apply (filter_partition_permutation
               (fun r => String.eqb v (folder (snd r))) fst rows).
    - unfold rows. rewrite enumerate_fst. unfold df_index.
      rewrite length_map. apply Permutation_refl. }
  split; [|split; [|split; [|split]]].
  - unfold mergeandsplit. rewrite HData. cbn match.
    rewrite (py_index_nth (map path_stem (video_sets cfg)) trainindex v Hi)
      by (rewrite nth_error_map, Hvideo; reflexivity).
    cbn [bind]. fold rows. rewrite split_by_folder_filter. reflexivity.
  - intros i. rewrite in_map_iff. split.
    + intros ([i' name] & E & H). cbn in E. subst i'.
      apply filter_In in H. destruct H as [H Hv]. cbn in Hv.
      apply enumerate_In in H. apply String.eqb_eq in Hv.
      exists name. split; [exact H|symmetry; exact Hv].
    + intros (name & H & Hv). exists (i, name). split; [reflexivity|].
      apply filter_In. split; [apply enumerate_In; exact H|].
      cbn. apply String.eqb_eq. symmetry. exact Hv.
  - intros i. rewrite in_map_iff. split.
    + intros ([i' name] & E & H). cbn in E. subst i'.
      apply filter_In in H. destruct H as [H Hv]. cbn in Hv.
      apply enumerate_In in H. apply negb_true_iff, String.eqb_neq in Hv.
      exists name. split; [exact H|]. intros E. apply Hv. symmetry. exact E.
    + intros (name & H & Hv). exists (i, name). split; [reflexivity|].
      apply filter_In. split; [apply enumerate_In; exact H|].
      cbn. apply negb_true_iff, String.eqb_neq. intros E. apply Hv.
      symmetry. exact E.
  - exact P.
  - apply (Permutation_NoDup (Permutation_sym P)). apply py_range_NoDup.
Qed.

(** C9 on a table of three rows from two folders. *)
Lemma mergeandsplit_leave_one_folder_out_witness :
  let cfg := {| TrainingFraction := [95 # 100];
                video_sets := ["/videos/m1.avi"; "/videos/m2.avi"]%string |} in
  let path_stem := fun v : string =>
    if String.eqb v "/videos/m1.avi" then "m1"%string else "m2"%string in
  let row := fun (f i : string) =>
    ({| level0 := "labeled-data"; folder := f; image := i |}, [Num 1; Num 2]) in
  let Data := [row "m1" "img0.png"; row "m2" "img0.png"; row "m1" "img1.png"]%string in
  exists trainIndices testIndices : list Z,
    mergeandsplit exact_mul (fun l => l) path_stem cfg None (Some Data) 1 false
    = Return (trainIndices, testIndices)
    /\ Permutation (trainIndices ++ testIndices) (py_range 3).
Proof.
  intros cfg path_stem row Data.
  destruct (mergeandsplit_leave_one_folder_out exact_mul (fun l => l)
              path_stem cfg None (Some Data) Data 1 "/videos/m2.avi")
    as (tr & te & E & _ & _ & P & _).
  - reflexivity.
  - lia.
  - reflexivity.
  - exists tr, te. split; [exact E|exact P].
Defined.

(** ** The shuffle registry *)

Lemma insert_sorted_In (x y : Z) (l : list Z) :
  In y (insert_sorted x l) <-> y = x \/ In y l.
Proof.
  induction l as [|a l IH]; cbn.
  - intuition congruence.
  - destruct (x <=? a); cbn; [|rewrite IH]; intuition congruence.
Qed.

Lemma sorted_In (y : Z) (l : list Z) : In y (sorted l) <-> In y l.
Proof.
  induction l as [|a l IH]; cbn; [reflexivity|].
  rewrite insert_sorted_In, IH. intuition congruence.
Qed.

Lemma insert_sorted_ascending (x : Z) (l : list Z) :
  ascending l -> ascending (insert_sorted x l).
Proof.
  induction 1 as [|a|a b l Hab Hl IH]; cbn.
  - constructor.
  - destruct (Z.leb_spec x a); constructor; try lia; constructor.
  - destruct (Z.leb_spec x a).
    + constructor; [lia|]. constructor; assumption.
    + cbn in IH. destruct (Z.leb_spec x b).
      * constructor; [lia|]. exact IH.
      * constructor; [lia|]. exact IH.
Qed.

Lemma sorted_ascending (l : list Z) : ascending (sorted l).
Proof.
  induction l as [|a l IH]; cbn; [constructor|].
  apply insert_sorted_ascending. exact IH.
Qed.

Lemma ascending_last_is_max (l : list Z) : ascending l -> last_is_max l.
Proof.
  unfold last_is_max.
  induction 1 as [|a|a b l Hab Hl IH]; intros x Hx.
  - contradiction.
  - destruct Hx as [<-|[]]. cbn. lia.
  - change (last (a :: b :: l) 0) with (last (b :: l) 0).
    destruct Hx as [<-|Hx].
    + specialize (IH b (or_introl eq_refl)). lia.
    + apply IH. exact Hx.
Qed.

Lemma last_In (l : list Z) : l <> [] -> In (last l 0) l.
Proof.
  induction l as [|a [|b l] IH]; intros H; [contradiction|left; reflexivity|].
  right. apply IH. discriminate.
Qed.

(** The registry returns its indices in ascending order. *)
Lemma get_existing_shuffle_indices_ascending
    (str_isdigit : string -> bool) (str_int : string -> result Z)
    (float_mul : Z -> Q -> Q) (proj : project)
    (train_fraction : option Q) (engine : option Engine)
    (existing : list Z) :
  get_existing_shuffle_indices str_isdigit str_int float_mul proj
    train_fraction engine
  = Return existing ->
  ascending existing.
Proof.
  unfold get_existing_shuffle_indices.
  destruct (trainset_folder proj) as [entries|].
  - destruct (collect _ entries) as [found|]; [|discriminate]. cbn [bind].
    destruct engine as [e|].
    + destruct train_fraction as [tf|]; [|discriminate]. cbn [bind].
      intros E. injection E as <-. apply sorted_ascending.
    + cbn [bind]. intros E. injection E as <-. apply sorted_ascending.
  - intros E. injection E as <-. constructor.
Qed.

(** ** Splitting file stems *)

Lemma split_scan_nonempty (sep : string) (k : nat) (cur s : string) :
  split_scan sep k cur s <> [].
Proof.
  revert k cur.
  induction s as [|d s IH]; intros k cur; cbn [split_scan]; [discriminate|].
  destruct k; [|apply IH].
  destruct (String.prefix sep (String d s)); [discriminate|apply IH].
Qed.

Lemma last_cons_nonempty {A : Type} (x : A) (l : list A) (d : A) :
  l <> [] -> last (x :: l) d = last l d.
Proof. destruct l; [contradiction|reflexivity]. Qed.

Lemma prefix_clear_ahead (c : ascii) (sep s : string) :
  ~ occurs c sep -> String.prefix sep s = true ->
  clear_ahead c (String.length sep) s.
Proof.
  revert s. induction sep as [|e sep IH]; intros s Hc Hp; [exact I|].
  destruct s as [|d s]; [discriminate|]. cbn in Hp |- *.
  destruct (Ascii.ascii_dec e d) as [->|]; [|discriminate].
  split.
  - intros ->. apply Hc. left. reflexivity.
  - apply IH; [|exact Hp]. intros H. apply Hc. right. exact H.
Qed.

Lemma clear_ahead_tail (c : ascii) (k : nat) (d : ascii) (s : string) :
  clear_ahead c (S k) (String d s) -> clear_ahead c k s.
Proof. intros [_ H]. exact H. Qed.

(** Past a character foreign to the separator, the last piece is the last
    piece of what follows. *)
Lemma split_scan_past (sep : string) (c : ascii) (s2 : string) :
  ~ occurs c sep -> sep <> EmptyString ->
  forall (s1 : string) (k : nat) (cur : string),
    clear_ahead c k (s1 ++ String c s2)%string ->
    exists cur' : string,
      last (split_scan sep k cur (s1 ++ String c s2)%string) EmptyString
      = last (split_scan sep O cur' s2) EmptyString.
Proof.
  intros Hc Hsep. induction s1 as [|d s1 IH]; intros k cur Hk.
  - cbn [String.append] in *. destruct k as [|k]; [|cbn in Hk; tauto].
    cbn [split_scan].
    destruct (String.prefix sep (String c s2)) eqn:P.
    + exfalso. destruct sep as [|e sep]; [congruence|]. cbn in P.
      destruct (Ascii.ascii_dec e c) as [->|]; [|discriminate].
      apply Hc. left. reflexivity.
    + eexists. reflexivity.
  - cbn [String.append] in *. destruct k as [|k].
    + cbn [split_scan].
      destruct (String.prefix sep (String d (s1 ++ String c s2))) eqn:P.
      * rewrite last_cons_nonempty by apply split_scan_nonempty.
        apply IH. apply (prefix_clear_ahead c) in P; [|exact Hc].
        destruct sep as [|e sep]; [congruence|]. cbn [String.length] in *.
        rewrite Nat.sub_succ, Nat.sub_0_r.
        apply (clear_ahead_tail c _ d). exact P.
      * apply IH. exact I.
    + cbn [split_scan]. apply IH. apply (clear_ahead_tail c _ d). exact Hk.
Qed.

Lemma string_app_nil_r (s : string) : (s ++ EmptyString)%string = s.
Proof. induction s as [|d s IH]; cbn; [reflexivity|rewrite IH; reflexivity]. Qed.

Lemma string_app_assoc (s1 s2 s3 : string) :
  ((s1 ++ s2) ++ s3)%string = (s1 ++ (s2 ++ s3))%string.
Proof. induction s1 as [|d s IH]; cbn; [reflexivity|rewrite IH; reflexivity]. Qed.

(** The piece being read only matters for the first piece. *)
Lemma split_scan_cur (sep : string) (s : string) :
  forall (k : nat) (cur : string),
    split_scan sep k cur s
    = match split_scan sep k EmptyString s with
      | hd :: tl => (cur ++ hd)%string :: tl
      | [] => []
      end.
Proof.
  induction s as [|d s IH]; intros k cur; cbn [split_scan].
  - rewrite string_app_nil_r. reflexivity.
  - destruct k as [|k]; [|apply IH].
    destruct (String.prefix sep (String d s)).
    + rewrite string_app_nil_r. reflexivity.
    + rewrite IH. rewrite (IH O (EmptyString ++ String d EmptyString)%string).
      destruct (split_scan sep O EmptyString s) as [|hd tl]; [reflexivity|].
      cbn [String.append]. rewrite string_app_assoc. reflexivity.
Qed.

Lemma split_scan_cur_last (sep s cur a b : string) :
  split_scan sep O EmptyString s = [a; b] ->
  last (split_scan sep O cur s) EmptyString = b.
Proof.
  intros E. rewrite split_scan_cur, E. reflexivity.
Qed.

(** The last piece between underscores ends the stem. *)
Lemma split_underscore_last (s cur : string) :
  let suffix := last (split_scan "_" O cur s) EmptyString in
  (exists s1 : string, s = (s1 ++ String "_" suffix)%string)
  \/ suffix = (cur ++ s)%string.
Proof.
  revert cur. induction s as [|d s IH]; intros cur; cbn zeta.
  - right. cbn. rewrite string_app_nil_r. reflexivity.
  - cbn [split_scan String.prefix String.length Nat.sub].
    destruct (Ascii.ascii_dec "_" d) as [<-|N].
    + assert (P : String.prefix EmptyString s = true) by (destruct s; reflexivity).
      rewrite P. rewrite last_cons_nonempty by apply split_scan_nonempty.
      left. destruct (IH EmptyString) as [(s1 & E)|E].
      * exists (String "_" s1). cbn. f_equal. exact E.
      * exists EmptyString. cbn. f_equal. symmetry. exact E.
    + destruct (IH (cur ++ String d EmptyString)%string) as [(s1 & E)|E].
      * left. exists (String d s1). cbn. f_equal. exact E.
      * right. rewrite E, string_app_assoc. reflexivity.
Qed.

Lemma py_index_last_default {A : Type} (l : list A) (d : A) :
  l <> [] -> py_index l (-1) = Return (last l d).
Proof.
  intros Hl. unfold py_index. cbn [Z.ltb Z.compare].
  assert (Hlen : 0 < len l) by (destruct l; [contradiction|unfold len; cbn; lia]).
  destruct (Z.ltb_spec (len l + -1) 0) as [|Hge]; [lia|].
  replace (Z.to_nat (len l + -1)) with (List.length l - 1)%nat
    by (unfold len; lia).
  assert (E : nth_error l (List.length l - 1) = Some (last l d)).
  { clear Hlen Hge. induction l as [|a [|b l] IH]; [contradiction|reflexivity|].
    cbn [List.length]. replace (S (S (List.length l)) - 1)%nat
      with (S (List.length (b :: l) - 1)) by (cbn; lia).
    cbn [nth_error]. rewrite IH by discriminate. reflexivity. }
  rewrite E. reflexivity.
Qed.

Lemma underscore_not_in_shuffle : ~ occurs "_" "shuffle".
Proof. cbn. intuition discriminate. Qed.

(** On a valid stem the text after the last "shuffle" is the index that
    passed [isdigit]. *)
Lemma valid_stem_index_digits
    (str_isdigit : string -> bool) (str_int : string -> result Z)
    (float_mul : Z -> Q -> Q) (train_fraction : option Q) (stem : string) :
  is_valid_data_stem str_isdigit str_int float_mul train_fraction stem
  = Return true ->
  str_isdigit (last (str_split stem "shuffle") EmptyString) = true.
Proof.
  unfold is_valid_data_stem.
  destruct (String.length stem =? 0)%nat; [discriminate|].
  unfold str_split at 1.
  rewrite (py_index_last_default _ EmptyString)
    by apply split_scan_nonempty.
  cbn [bind].
  set (suffix := last (split_scan "_" O EmptyString stem) EmptyString).
  destruct (String.length suffix =? 0)%nat; [discriminate|].
  destruct (str_split suffix "shuffle") as [|a [|b [|c l]]] eqn:E;
    try discriminate.
  destruct (str_isdigit a && str_isdigit b) eqn:D; [|discriminate].
  intros _. apply andb_true_iff in D. destruct D as [_ Db].
  destruct (split_underscore_last stem EmptyString) as [(s1 & Es)|Es];
    fold suffix in Es.
  - destruct (split_scan_past "shuffle" "_" suffix underscore_not_in_shuffle
                ltac:(discriminate) s1 O EmptyString I) as (cur' & L).
    unfold str_split. rewrite Es, L.
    rewrite (split_scan_cur_last "shuffle" suffix cur' a b E). exact Db.
  - cbn in Es. rewrite <- Es, E. exact Db.
Qed.

(** Without a train fraction the test of a stem calls [isdigit] only and
    returns. *)
Lemma is_valid_data_stem_returns
    (str_isdigit : string -> bool) (str_int : string -> result Z)
    (float_mul : Z -> Q -> Q) (stem : string) :
  exists valid : bool,
    is_valid_data_stem str_isdigit str_int float_mul None stem = Return valid.
Proof.
  unfold is_valid_data_stem.
  destruct (String.length stem =? 0)%nat; [eexists; reflexivity|].
  unfold str_split at 1.
  rewrite (py_index_last_default _ EmptyString)
    by apply split_scan_nonempty.
  cbn [bind].
  destruct (String.length _ =? 0)%nat; [eexists; reflexivity|].
  destruct (str_split _ "shuffle") as [|a [|b [|c l]]];
    try (eexists; reflexivity).
  destruct (str_isdigit a && str_isdigit b); eexists; reflexivity.
Qed.

(** The registry raises what [int] raises on an index that passed
    [isdigit], a superscript digit for one. *)
Lemma get_existing_shuffle_indices_invalid_literal
    (str_isdigit : string -> bool) (str_int : string -> result Z)
    (float_mul : Z -> Q -> Q) (model : Q -> Z -> Engine -> bool)
    (p : path) (rest : list path) (e : exn) :
  String.prefix "Documentation_data" (stem p) = true ->
  suffix p = ".pickle"%string ->
  is_valid_data_stem str_isdigit str_int float_mul None (stem p)
  = Return true ->
  str_int (last (str_split (stem p) "shuffle") EmptyString) = Raise e ->
  get_existing_shuffle_indices str_isdigit str_int float_mul
    {| trainset_folder := Some (p :: rest); model_folder_exists := model |}
    None None
  = Raise e.
Proof.
  intros Hpre Hsuf Hval Hint.
  unfold get_existing_shuffle_indices. cbn [trainset_folder collect].
  rewrite Hpre, Hsuf, String.eqb_refl. cbn [andb]. rewrite Hval. cbn [bind].
  rewrite (py_index_last_default _ EmptyString)
    by apply split_scan_nonempty.
  cbn [bind]. rewrite Hint. reflexivity.
Qed.

Lemma ints_In (i : Z) (l : list pyval) : In i (ints l) <-> In (PyInt i) l.
Proof.
  induction l as [|[j|] l IH]; cbn; [reflexivity| |].
  - rewrite IH. split; (intros [E|H]; [left; congruence|right; exact H]).
  - rewrite IH. split; [right; assumption|]. intros [E|H]; [discriminate|exact H].
Qed.

Lemma existsb_eqb_In (i : Z) (l : list Z) :
  existsb (Z.eqb i) l = true <-> In i l.
Proof.
  rewrite existsb_exists. split.
  - intros (x & Hx & E). apply Z.eqb_eq in E. subst. exact Hx.
  - intros H. exists i. split; [exact H|apply Z.eqb_refl].
Qed.

(** The collision loop stops at the first requested index that exists. *)
Lemma check_shuffles_collision (existing shuffles : list Z) :
  (exists i : Z, In i shuffles /\ In i existing) ->
  exists idx : Z,
    In idx shuffles /\ In idx existing
    /\ check_shuffles true existing shuffles
       = Raise (ValueError (ShuffleExists idx existing)).
Proof.
  induction shuffles as [|s rest IH]; intros (i & Hi & He); [contradiction|].
  cbn [check_shuffles andb].
  destruct (existsb (Z.eqb s) existing) eqn:E.
  - exists s. apply existsb_eqb_In in E.
    split; [left; reflexivity|]. split; [exact E|reflexivity].
  - destruct Hi as [->|Hi].
    + apply existsb_eqb_In in He. congruence.
    + destruct (IH (ex_intro _ i (conj Hi He))) as (idx & H1 & H2 & H3).
      exists idx. split; [right; exact H1|]. split; [exact H2|exact H3].
Qed.

(** C7.  An error of the registry is the error of the validation.  When
    the registry returns the existing indices and [userfeedback] is on, a
    requested list that holds one of them makes [validate_shuffles] raise
    the error that names a requested, existing index and lists all
    existing indices; a call of [create_training_dataset] that reaches the
    validation then ends with this error in the state its preliminaries
    left, whatever the materialisation of a shuffle does: none is
    created. *)
Theorem validate_shuffles_rejects_existing
    (str_isdigit : string -> bool) (str_int : string -> result Z)
    (float_mul : Z -> Q -> Q) (proj : project) (shuffles : list pyval)
    (num_shuffles : Z) :
  match get_existing_shuffle_indices str_isdigit str_int float_mul proj
          None None with
  | Raise e =>
      validate_shuffles str_isdigit str_int float_mul proj (Some shuffles)
        num_shuffles true
      = Raise e
  | Return existing =>
      (exists i : Z, In (PyInt i) shuffles /\ In i existing) ->
      exists idx : Z,
        In (PyInt idx) shuffles /\ In idx existing
        /\ validate_shuffles str_isdigit str_int float_mul proj
             (Some shuffles) num_shuffles true
           = Raise (ValueError (ShuffleExists idx existing))
        /\ forall (float_div : Z -> Z -> Q) (permutation : list Z -> list Z)
                  (world : Type)
                  (prelude : world -> world * result (option DataFrame))
                  (materialize : world -> split_entry -> world * result unit)
                  (w w' : world) (cfg : config) (Data : DataFrame)
                  (trainIndices testIndices : option (list (list Z))),
             prelude w = (w', Return (Some Data)) ->
             create_training_dataset str_isdigit str_int float_mul float_div
               permutation world prelude materialize w cfg proj num_shuffles
               (Some shuffles) true trainIndices testIndices
             = (w', Raise (ValueError (ShuffleExists idx existing)))
  end.
Proof.
  destruct (get_existing_shuffle_indices str_isdigit str_int float_mul proj
              None None) as [existing|e] eqn:Hex.
  2: { unfold validate_shuffles. rewrite Hex. reflexivity. }
  intros (i & Hi & He).
  destruct (check_shuffles_collision existing (ints shuffles))
    as (idx & H1 & H2 & H3).
  { exists i. split; [apply ints_In; exact Hi|exact He]. }
  assert (V : validate_shuffles str_isdigit str_int float_mul proj
                (Some shuffles) num_shuffles true
              = Raise (ValueError (ShuffleExists idx existing))).
  { unfold validate_shuffles. rewrite Hex. cbn [bind]. rewrite H3. reflexivity. }
  exists idx. split; [apply ints_In; exact H1|]. split; [exact H2|].
  split; [exact V|].
  intros float_div permutation world prelude materialize w w' cfg Data tr te
    Hpre.
  unfold create_training_dataset. rewrite Hpre, V. reflexivity.
Qed.

(** C8.  An error of the registry is the error of the validation.  When
    the registry returns the existing indices and none is requested,
    [validate_shuffles] returns the [num_shuffles] consecutive indices
    that start one past the largest existing index, or at 1 when there is
    none; none of them exists already. *)
Theorem validate_shuffles_allocates_fresh_run
    (str_isdigit : string -> bool) (str_int : string -> result Z)
    (float_mul : Z -> Q -> Q) (proj : project) (num_shuffles : Z)
    (userfeedback : bool) :
  0 <= num_shuffles ->
  match get_existing_shuffle_indices str_isdigit str_int float_mul proj
          None None with
  | Raise e =>
      validate_shuffles str_isdigit str_int float_mul proj None num_shuffles
        userfeedback
      = Raise e
  | Return existing =>
      exists (first_index : Z) (shuffles : list Z),
        validate_shuffles str_isdigit str_int float_mul proj None
          num_shuffles userfeedback
        = Return shuffles
        /\ ((existing = [] /\ first_index = 1)
            \/ (In (first_index - 1) existing
                /\ forall x : Z, In x existing -> x <= first_index - 1))
        /\ len shuffles = num_shuffles
        /\ (forall k : nat,
              (k < Z.to_nat num_shuffles)%nat ->
              nth_error shuffles k = Some (first_index + Z.of_nat k))
        /\ (forall idx : Z, In idx shuffles -> ~ In idx existing)
  end.
Proof.
  intros Hnum.
  destruct (get_existing_shuffle_indices str_isdigit str_int float_mul proj
              None None) as [existing|e] eqn:Hex.
  2: { unfold validate_shuffles. rewrite Hex. reflexivity. }
  pose proof (get_existing_shuffle_indices_ascending _ _ _ _ _ _ _ Hex)
    as Hasc.
  apply ascending_last_is_max in Hasc.
  set (first_index := match existing with [] => 1 | _ => last existing 0 + 1 end).
  exists first_index, (py_range2 first_index (num_shuffles + first_index)).
  assert (Hfirst : (existing = [] /\ first_index = 1)
                   \/ (In (first_index - 1) existing
                       /\ forall x : Z, In x existing -> x <= first_index - 1)).
  { destruct existing as [|a l] eqn:E; [left; split; reflexivity|right].
    replace (first_index - 1) with (last (a :: l) 0) by (unfold first_index; lia).
    split; [apply last_In; discriminate|exact Hasc]. }
  assert (Hin : forall idx, In idx (py_range2 first_index
                                      (num_shuffles + first_index))
                            -> first_index <= idx).
  { intros idx H. unfold py_range2 in H. apply in_map_iff in H.
    destruct H as (k & <- & _). lia. }
  split; [|split; [exact Hfirst|split; [|split]]].
  - unfold validate_shuffles. rewrite Hex. cbn [bind].
    destruct existing as [|a l] eqn:E.
    + reflexivity.
    + assert (Hl : (0 <? len (a :: l)) = true)
        by (apply Z.ltb_lt; unfold len; cbn; lia).
      rewrite Hl, (py_index_last_default _ 0) by discriminate. reflexivity.
  - unfold py_range2, len. rewrite length_map, length_seq. lia.
  - intros k Hk. unfold py_range2.
    replace (num_shuffles + first_index - first_index) with num_shuffles by ring.
    rewrite nth_error_map, nth_error_seq.
    destruct (Nat.ltb_spec k (Z.to_nat num_shuffles)); [reflexivity|lia].
  - intros idx Hidx Hin'. apply Hin in Hidx.
    destruct Hfirst as [[-> _]|[_ Hmax]]; [contradiction|].
    apply Hmax in Hin'. lia.
Qed.

(** C7 on the request [3] against the existing shuffles 1, 2, 3, whose
    names are ASCII. *)
Lemma validate_shuffles_rejects_existing_witness :
  get_existing_shuffle_indices isdigit int_of_string binary64_mul
    sample_project None None
  = Return [1; 2; 3]
  /\ exists idx : Z,
       validate_shuffles isdigit int_of_string binary64_mul sample_project
         (Some [PyInt 3]) 1 true
       = Raise (ValueError (ShuffleExists idx [1; 2; 3])).
Proof.
  assert (C : get_existing_shuffle_indices isdigit int_of_string binary64_mul
                sample_project None None = Return [1; 2; 3])
    by (vm_compute; reflexivity).
  split; [exact C|].
  pose proof (validate_shuffles_rejects_existing isdigit int_of_string
                binary64_mul sample_project [PyInt 3] 1) as H.
  rewrite C in H.
  destruct H as (idx & _ & _ & V & _).
  - exists 3. split; [left; reflexivity|right; right; left; reflexivity].
  - exists idx. exact V.
Defined.

(** C8 on two new shuffles after the existing 1, 2, 3. *)
Lemma validate_shuffles_allocates_fresh_run_witness :
  get_existing_shuffle_indices isdigit int_of_string binary64_mul
    sample_project None None
  = Return [1; 2; 3]
  /\ exists shuffles : list Z,
       validate_shuffles isdigit int_of_string binary64_mul sample_project
         None 2 true
       = Return shuffles
       /\ len shuffles = 2.
Proof.
  assert (C : get_existing_shuffle_indices isdigit int_of_string binary64_mul
                sample_project None None = Return [1; 2; 3])
    by (vm_compute; reflexivity).
  split; [exact C|].
  pose proof (validate_shuffles_allocates_fresh_run isdigit int_of_string
                binary64_mul sample_project 2 true ltac:(lia)) as H.
  rewrite C in H.
  destruct H as (first & sh & V & _ & L & _).
  exists sh. split; [exact V|exact L].
Defined.

(** ** Caller-supplied splits *)

Lemma py_index_nat {A : Type} (l : list A) (k : nat) :
  py_index l (Z.of_nat k)
  = match nth_error l k with Some a => Return a | None => Raise IndexError end.
Proof.
  unfold py_index.
  destruct (Z.ltb_spec (Z.of_nat k) 0); [lia|].
  destruct (Z.ltb_spec (Z.of_nat k) 0); [lia|].
  rewrite Nat2Z.id. reflexivity.
Qed.

Lemma skipn_nth_error {A : Type} (l : list A) (s : nat) (x : A) :
  nth_error l s = Some x -> skipn s l = x :: skipn (S s) l.
Proof.
  revert s. induction l as [|a l IH]; intros [|s] E; try discriminate.
  - injection E as ->. reflexivity.
  - cbn in E. apply IH in E. exact E.
Qed.

Lemma float_truediv_nonzero (float_div : Z -> Z -> Q) (a b : Z) :
  b <> 0 -> float_truediv float_div a b = Return (float_div a b).
Proof.
  intros Hb. unfold float_truediv.
  destruct (Z.eqb_spec b 0); [contradiction|reflexivity].
Qed.

Lemma supplied_splits_paired (float_div : Z -> Z -> Q) (Shuffles : list Z)
    (pairs : list (list Z * list Z)) (s : nat) (splits : list split_entry) :
  Forall nonempty_pair pairs ->
  (s + List.length pairs <= List.length Shuffles)%nat ->
  supplied_splits float_div Shuffles
    (combine (map Z.of_nat (seq s (List.length pairs))) pairs) splits
  = Return (splits
            ++ map (fun sp => supplied_entry float_div (fst sp) (snd sp))
                 (combine (skipn s Shuffles) pairs)).
Proof.
  revert s splits.
  induction pairs as [|[tr te] pairs IH]; intros s splits Hne Hlen.
  - cbn. destruct (skipn s Shuffles); cbn; rewrite app_nil_r; reflexivity.
  - inversion Hne as [|? ? Hp Hrest]; subst. unfold nonempty_pair in Hp.
    cbn in Hp, Hlen. cbn [List.length seq map combine supplied_splits].
    rewrite float_truediv_nonzero by lia. cbn [bind].
    rewrite py_index_nat.
    destruct (nth_error Shuffles s) as [x|] eqn:E;
      [|apply nth_error_None in E; lia].
    cbn [bind].
    rewrite IH by (try assumption; lia).
    rewrite (skipn_nth_error Shuffles s x E). cbn. rewrite <- app_assoc.
    reflexivity.
Qed.

Lemma supplied_splits_overrun (float_div : Z -> Z -> Q) (Shuffles : list Z)
    (pairs : list (list Z * list Z)) (s : nat) (splits : list split_entry) :
  Forall nonempty_pair pairs ->
  (s <= List.length Shuffles < s + List.length pairs)%nat ->
  supplied_splits float_div Shuffles
    (combine (map Z.of_nat (seq s (List.length pairs))) pairs) splits
  = Raise IndexError.
Proof.
  revert s splits.
  induction pairs as [|[tr te] pairs IH]; intros s splits Hne Hlen.
  - cbn in Hlen. lia.
  - inversion Hne as [|? ? Hp Hrest]; subst. unfold nonempty_pair in Hp.
    cbn in Hp, Hlen. cbn [List.length seq map combine supplied_splits].
    rewrite float_truediv_nonzero by lia. cbn [bind].
    rewrite py_index_nat.
    destruct (nth_error Shuffles s) as [x|] eqn:E; [|reflexivity].
    cbn [bind]. apply IH; [assumption|].
    assert (s < List.length Shuffles)%nat
      by (apply nth_error_Some; congruence).
    lia.
Qed.

(** C10, as the code has it.  When the supplied train and test lists have
    the same length and this length is not the number of shuffles, the
    chained comparison raises nothing.  With more shuffles than pairs of
    non-empty index lists, the pairs are matched with the first shuffles
    and the other shuffles are dropped; with fewer shuffles than pairs,
    indexing the shuffles raises an [IndexError] and the call ends there.
    The train fraction of an entry is the machine quotient of the lengths,
    rounded to two digits. *)
Theorem create_training_dataset_unequal_lengths
    (str_isdigit : string -> bool) (str_int : string -> result Z)
    (float_mul : Z -> Q -> Q) (float_div : Z -> Z -> Q)
    (permutation : list Z -> list Z)
    (world : Type) (prelude : world -> world * result (option DataFrame))
    (materialize : world -> split_entry -> world * result unit)
    (w w' : world) (cfg : config) (proj : project) (Data : DataFrame)
    (num_shuffles : Z) (requested : option (list pyval)) (userfeedback : bool)
    (Shuffles : list Z) (trainIndices testIndices : list (list Z)) :
  prelude w = (w', Return (Some Data)) ->
  validate_shuffles str_isdigit str_int float_mul proj requested
    num_shuffles userfeedback
  = Return Shuffles ->
  List.length trainIndices = List.length testIndices ->
  List.length trainIndices <> List.length Shuffles ->
  Forall nonempty_pair (combine trainIndices testIndices) ->
  lengths_rejected trainIndices testIndices Shuffles = false
  /\ ((List.length trainIndices < List.length Shuffles)%nat ->
      let splits :=
        map (fun sp => supplied_entry float_div (fst sp) (snd sp))
          (combine Shuffles (combine trainIndices testIndices)) in
      List.length splits = List.length trainIndices
      /\ create_training_dataset str_isdigit str_int float_mul float_div
           permutation world prelude materialize w cfg proj num_shuffles
           requested userfeedback (Some trainIndices) (Some testIndices)
         = match materialize_all world materialize w' splits with
           | (w2, Raise e) => (w2, Raise e)
           | (w2, Return _) => (w2, Return (Some splits))
           end)
  /\ ((List.length Shuffles < List.length trainIndices)%nat ->
      create_training_dataset str_isdigit str_int float_mul float_div
        permutation world prelude materialize w cfg proj num_shuffles
        requested userfeedback (Some trainIndices) (Some testIndices)
      = (w', Raise IndexError)).
Proof.
  intros Hpre Hval Heq Hne Hpairs.
  assert (Hrej : lengths_rejected trainIndices testIndices Shuffles = false).
  { unfold lengths_rejected, len. rewrite Heq, Z.eqb_refl. reflexivity. }
  assert (Hlen : List.length (combine trainIndices testIndices)
                 = List.length trainIndices).
  { rewrite length_combine. lia. }
  split; [exact Hrej|]. split.
  - intros Hlt. cbv zeta. split.
    + rewrite length_map, length_combine, Hlen. lia.
    + unfold create_training_dataset. rewrite Hpre, Hval, Hrej.
      unfold enumerate, py_range.
      rewrite (supplied_splits_paired float_div Shuffles
                 (combine trainIndices testIndices) 0 [] Hpairs)
        by (rewrite Hlen; lia).
      reflexivity.
  - intros Hlt. unfold create_training_dataset. rewrite Hpre, Hval, Hrej.
    unfold enumerate, py_range.
    rewrite (supplied_splits_overrun float_div Shuffles
               (combine trainIndices testIndices) 0 [] Hpairs)
      by (rewrite Hlen; lia).
    reflexivity.
Qed.

(** C10 as amended: one pair of 21 and 19 indices for the shuffles 1 and
    2.  The binary64 quotient 21 / 40 lies above 0.525 and rounds to
    0.53. *)
Lemma create_training_dataset_unequal_lengths_witness :
  let train_inds := py_range 21 in
  let test_inds := map (Z.add 21) (py_range 19) in
  lengths_rejected [train_inds] [test_inds] [1; 2] = false
  /\ create_training_dataset isdigit int_of_string binary64_mul binary64_div
       (fun l => l) unit
       (fun w => (w, Return (Some [])))
       (fun w _ => (w, Return tt))
       tt {| TrainingFraction := [53 # 100]; video_sets := [] |}
       empty_project 1 (Some [PyInt 1; PyInt 2]) false
       (Some [train_inds]) (Some [test_inds])
     = (tt, Return (Some [(53 # 100, 1, (train_inds, test_inds))])).
Proof.
  intros train_inds test_inds.
  destruct (create_training_dataset_unequal_lengths
              isdigit int_of_string binary64_mul binary64_div
              (fun l => l) unit
              (fun w => (w, Return (Some [])))
              (fun w _ => (w, Return tt))
              tt tt {| TrainingFraction := [53 # 100]; video_sets := [] |}
              empty_project [] 1 (Some [PyInt 1; PyInt 2]) false
              [1; 2] [train_inds] [test_inds]) as (R & Hmore & _).
  - reflexivity.
  - vm_compute. reflexivity.
  - reflexivity.
  - cbn. lia.
  - constructor; [vm_compute; reflexivity|constructor].
  - split; [exact R|]. destruct Hmore as [_ E]; [cbn; lia|].
    rewrite E. vm_compute. reflexivity.
Defined.

(** C10 fails for surplus index lists: with two pairs of index lists and
    the single shuffle 1 the comparison lets the call pass, and the second
    pair is not dropped: the call raises an [IndexError]. *)
Lemma create_training_dataset_surplus_indices_raise :
  lengths_rejected [[0]; [1]] [[2]; [3]] [1] = false
  /\ create_training_dataset isdigit int_of_string binary64_mul binary64_div
       (fun l => l) unit
       (fun w => (w, Return (Some [])))
       (fun w _ => (w, Return tt))
       tt {| TrainingFraction := [50 # 100]; video_sets := [] |}
       empty_project 1 (Some [PyInt 1]) false
       (Some [[0]; [1]]) (Some [[2]; [3]])
     = (tt, Raise IndexError).
Proof. split; vm_compute; reflexivity. Qed.

(** ** The index splitter without enforcement *)

Lemma SplitTrials_accepted_unenforced
    (float_mul : Z -> Q -> Q) (permutation : list Z -> list Z)
    (trialindex : list Z) (f : Q) :
  accepted_fraction f ->
  SplitTrials float_mul permutation trialindex f false
  = let train_size := float_mul (len trialindex) (py_round2 f) in
    let shuffle := permutation trialindex in
    Return (slice_to shuffle (py_int train_size),
            slice_from shuffle (py_int train_size)).
Proof.
  intros (H0 & H1 & H2). unfold SplitTrials.
  assert (G1 : Qlt_bool 1 f = false) by (apply Qlt_bool_false; exact H1).
  assert (G0 : Qlt_bool f 0 = false) by (apply Qlt_bool_false; exact H0).
  rewrite G1, G0. cbn [orb].
  assert (G2 : Qlt_bool 0 (Qabs (f - py_round2 f)) = false).
  { apply Qlt_bool_false.
    setoid_replace (f - py_round2 f)%Q with 0%Q by lra. discriminate. }
  rewrite G2. reflexivity.
Qed.

Lemma not_accepted_rejected (f : Q) :
  ~ accepted_fraction f ->
  (1 < f)%Q \/ (f < 0)%Q \/ ~ (py_round2 f == f)%Q.
Proof.
  intros N. destruct (Qlt_le_dec 1 f) as [G|L1]; [left; exact G|].
  destruct (Qlt_le_dec f 0) as [G|L0]; [right; left; exact G|].
  right. right. intros E. apply N. repeat split; assumption.
Qed.

Lemma SplitTrials_rejected
    (float_mul : Z -> Q -> Q) (permutation : list Z -> list Z)
    (trialindex : list Z) (f : Q) (enforce : bool) :
  ~ accepted_fraction f ->
  SplitTrials float_mul permutation trialindex f enforce = Return ([], []).
Proof.
  intros N. apply not_accepted_rejected in N. unfold SplitTrials.
  destruct (Qlt_bool 1 f || Qlt_bool f 0) eqn:G; [reflexivity|].
  apply orb_false_iff in G. destruct G as [G1 G0].
  apply Qlt_bool_false in G1, G0.
  destruct N as [H|[H|H]]; [lra|lra|].
  assert (P : Qlt_bool 0 (Qabs (f - py_round2 f)) = true).
  { apply Qlt_bool_iff, Qabs_pos_iff. intros E. apply H. lra. }
  rewrite P. reflexivity.
Qed.

Lemma SplitTrials_unenforced_number
    (float_mul : Z -> Q -> Q) (permutation : list Z -> list Z)
    (trialindex : list Z) (f : Q) :
  Permutation (permutation trialindex) trialindex ->
  exists train_indices test_indices : list Z,
    SplitTrials float_mul permutation trialindex f false
    = Return (train_indices, test_indices)
    /\ (accepted_fraction f ->
        train_indices ++ test_indices = permutation trialindex
        /\ Permutation (train_indices ++ test_indices) trialindex
        /\ len train_indices + len test_indices = len trialindex)
    /\ (~ accepted_fraction f -> train_indices = [] /\ test_indices = []).
Proof.
  intros Hperm.
  assert (D : accepted_fraction f \/ ~ accepted_fraction f).
  { destruct (Qlt_le_dec 1 f) as [G1|L1];
      [right; intros (_ & H & _); lra|].
    destruct (Qlt_le_dec f 0) as [G0|L0];
      [right; intros (H & _); lra|].
    destruct (Qeq_dec (py_round2 f) f) as [E|NE];
      [left; repeat split; assumption|right; intros (_ & _ & H); contradiction]. }
  destruct D as [A|N].
  - eexists _, _. split; [apply SplitTrials_accepted_unenforced; exact A|].
    cbv zeta. split; [|intros N; contradiction].
    intros _. rewrite slice_to_from. split; [reflexivity|].
    split; [exact Hperm|].
    rewrite <- len_app, slice_to_from. unfold len. f_equal.
    apply Permutation_length. exact Hperm.
  - exists [], []. split; [apply SplitTrials_rejected; exact N|].
    split; [intros A; contradiction|auto].
Qed.

(** X1.  Without enforcement [SplitTrials] raises for one fraction only,
    NaN, whose product [int] rejects, and whatever the rounding of the
    product: an accepted number gives two slices that together are the
    shuffled index, so that no index is lost, added or repeated; any other
    number and the infinities give the empty pair. *)
Theorem SplitTrials_unenforced_partition
    (float_mul : Z -> Q -> Q) (permutation : list Z -> list Z)
    (trialindex : list Z) (trainFraction : pyfloat) :
  Permutation (permutation trialindex) trialindex ->
  match trainFraction with
  | Special NotANumber =>
      SplitTrials_float float_mul permutation trialindex trainFraction false
      = Raise (ValueError NaNToInteger)
  | Special _ =>
      SplitTrials_float float_mul permutation trialindex trainFraction false
      = Return ([], [])
  | Finite f =>
      exists train_indices test_indices : list Z,
        SplitTrials_float float_mul permutation trialindex trainFraction false
        = Return (train_indices, test_indices)
        /\ (accepted_fraction f ->
            train_indices ++ test_indices = permutation trialindex
            /\ Permutation (train_indices ++ test_indices) trialindex
            /\ len train_indices + len test_indices = len trialindex)
        /\ (~ accepted_fraction f ->
            train_indices = [] /\ test_indices = [])
  end.
Proof.
  intros Hperm. destruct trainFraction as [f|[| |]]; try reflexivity.
  rewrite SplitTrials_float_finite.
  apply SplitTrials_unenforced_number. exact Hperm.
Qed.

(** X1 on five rows at the fraction 0.8, reversed by the shuffle. *)
Lemma SplitTrials_unenforced_partition_witness :
  exists train_indices test_indices : list Z,
    SplitTrials_float binary64_mul (@rev Z) (py_range 5) (Finite (8 # 10))
      false
    = Return (train_indices, test_indices)
    /\ (accepted_fraction (8 # 10) ->
        Permutation (train_indices ++ test_indices) (py_range 5)).
Proof.
  destruct (SplitTrials_unenforced_partition binary64_mul (@rev Z)
              (py_range 5) (Finite (8 # 10))) as (tr & te & E & A & _).
  - apply Permutation_sym, Permutation_rev.
  - exists tr, te. split; [exact E|]. intros H. apply A. exact H.
Defined.

(** ** The size of the train set *)

(** X2.  For a two-digit fraction [f] and [n] rows, the train set has
    [floor(n f)] indices or one less, and at most [n]; it has
    [floor(n f)] when the product is exact. *)
Theorem SplitTrials_train_size
    (float_mul : Z -> Q -> Q) (permutation : list Z -> list Z)
    (trialindex : list Z) (f : Q) :
  two_digit_fraction f ->
  Permutation (permutation trialindex) trialindex ->
  faithful_product float_mul (len trialindex) (py_round2 f) ->
  exists train_indices test_indices : list Z,
    SplitTrials float_mul permutation trialindex f false
    = Return (train_indices, test_indices)
    /\ Qfloor (inject_Z (len trialindex) * f) - 1 <= len train_indices
    /\ len train_indices <= Qfloor (inject_Z (len trialindex) * f)
    /\ len train_indices <= len trialindex
    /\ len test_indices = len trialindex - len train_indices
    /\ ((float_mul (len trialindex) (py_round2 f)
         == inject_Z (len trialindex) * f)%Q ->
        len train_indices = Qfloor (inject_Z (len trialindex) * f)).
Proof.
  intros Hf Hperm Hmul.
  assert (A : accepted_fraction f).
  { destruct Hf as (F0 & F1 & F2). repeat split; [lra|lra|exact F2]. }
  rewrite (SplitTrials_accepted_unenforced _ _ _ _ A). cbv zeta.
  eexists _, _. split; [reflexivity|].
  destruct (split_lengths float_mul permutation trialindex f Hf Hperm Hmul)
    as [Ltr Lte].
  pose proof (slice_bounds float_mul trialindex f Hf Hmul) as Hb.
  rewrite Ltr, Lte.
  set (n := len trialindex) in *.
  set (t := float_mul n (py_round2 f)) in *.
  assert (E2 : (py_round2 f == f)%Q) by apply Hf.
  destruct Hmul as [M1 M0]. fold n t in M1, M0.
  assert (T0 : (0 <= t)%Q).
  { destruct (two_digit_percent _
                (two_digit_fraction_comp _ _ (Qeq_sym _ _ E2) Hf))
      as (p & Hp & Ep).
    apply (product_bounds t (py_round2 f) n p Hp Ep (len_nonneg trialindex)
             M1 M0). }
  rewrite E2 in M1. apply Qabs_diff_Qlt_condition in M1.
  assert (Ek : py_int t = Qfloor t).
  { unfold py_int. apply Qle_bool_iff in T0. rewrite T0. reflexivity. }
  rewrite Ek.
  set (x := (inject_Z n * f)%Q) in *.
  destruct (two_digit_percent f Hf) as (p & Hp & Ep).
  (* 100 x is the integer n p *)
  assert (X100 : (100 * x == inject_Z (n * p))%Q).
  { unfold x. rewrite Ep, inject_Z_mult. field. }
  pose proof (Qfloor_le x) as Fx. pose proof (Qlt_floor x) as Fx'.
  pose proof (Qfloor_le t) as Ft. pose proof (Qlt_floor t) as Ft'.
  rewrite inject_Z_plus in Fx', Ft'.
  change (inject_Z 1) with 1%Q in Fx', Ft'.
  split; [|split; [|split; [|split]]].
  - (* floor x - 1 <= floor t *)
    assert (L : (inject_Z (Qfloor x - 1) < inject_Z (Qfloor t + 1))%Q).
    { unfold Z.sub. rewrite !inject_Z_plus, inject_Z_opp.
      change (inject_Z 1) with 1%Q. lra. }
    rewrite <- Zlt_Qlt in L. lia.
  - (* floor t <= floor x *)
    destruct (Z_le_gt_dec (Qfloor t) (Qfloor x)) as [L|G]; [exact L|exfalso].
    assert (G' : (inject_Z (Qfloor x + 1) <= inject_Z (Qfloor t))%Q)
      by (rewrite <- Zle_Qle; lia).
    rewrite inject_Z_plus in G'. change (inject_Z 1) with 1%Q in G'.
    (* x < floor x + 1 <= t < x + 1/100, so 0 < 100 (floor x + 1) - 100 x < 1 *)
    assert (I1 : (inject_Z (n * p) < inject_Z (100 * (Qfloor x + 1)))%Q).
    { rewrite <- X100, inject_Z_mult, inject_Z_plus.
      change (inject_Z 100) with 100%Q. change (inject_Z 1) with 1%Q. lra. }
    assert (I2 : (inject_Z (100 * (Qfloor x + 1)) < inject_Z (n * p + 1))%Q).
    { rewrite (inject_Z_plus (n * p)), <- X100, inject_Z_mult, inject_Z_plus.
      change (inject_Z 100) with 100%Q. change (inject_Z 1) with 1%Q. lra. }
    rewrite <- Zlt_Qlt in I1, I2. lia.
  - rewrite <- Ek. lia.
  - reflexivity.
  - intros Ex. fold t in Ex. rewrite Ex. reflexivity.
Qed.

(** X2 on 100 rows at the fraction 0.29 in binary64 arithmetic, where the
    product is 28.999999999999996: the train set has 28 indices. *)
Lemma SplitTrials_train_size_witness :
  exists train_indices test_indices : list Z,
    SplitTrials binary64_mul (fun l => l) (py_range 100) (29 # 100) false
    = Return (train_indices, test_indices)
    /\ Qfloor (inject_Z (len (py_range 100)) * (29 # 100)) = 29
    /\ len train_indices = 28.
Proof.
  destruct (SplitTrials_train_size binary64_mul (fun l => l)
              (py_range 100) (29 # 100)) as (tr & te & E & _).
  - unfold two_digit_fraction. vm_compute. repeat split; reflexivity.
  - apply Permutation_refl.
  - split; [vm_compute; reflexivity|intros H; vm_compute in H; discriminate H].
  - exists tr, te. split; [exact E|]. split; [reflexivity|].
    assert (C : SplitTrials binary64_mul (fun l => l) (py_range 100)
                  (29 # 100) false
                = Return (py_range 28, map (Z.add 28) (py_range 72)))
      by (vm_compute; reflexivity).
    rewrite C in E. injection E as <- _. reflexivity.
Defined.

(** ** Minimal padding *)

(** Lengths with the exact ratio [p/100] are multiples of the reduced
    block. *)
Lemma exact_ratio_multiple (p a b : Z) :
  0 < p < 100 -> 0 <= a -> 0 <= b -> 0 < a + b ->
  (inject_Z a / inject_Z (a + b) == inject_Z p / 100)%Q ->
  let g := Z.gcd 100 p in
  exists j : Z, a = j * (p / g) /\ b = j * (100 / g - p / g).
Proof.
  intros Hp Ha Hb Hab Hr g.
  assert (Hg : 0 < g).
  { pose proof (Z.gcd_nonneg 100 p).
    destruct (Z.eq_dec g 0) as [E|]; [|lia].
    apply Z.gcd_eq_0_l in E. discriminate. }
  assert (Hcross : 100 * a = p * (a + b)).
  { apply inject_Z_injective. rewrite !inject_Z_mult.
    change (inject_Z 100) with 100%Q.
    pose proof (inject_Z_nonzero (a + b) ltac:(lia)) as Nz.
    setoid_replace (inject_Z a)
      with (inject_Z a / inject_Z (a + b) * inject_Z (a + b))%Q
      by (field; exact Nz).
    rewrite Hr. field. }
  destruct (Z.gcd_divide_l 100 p) as [s Hs].
  destruct (Z.gcd_divide_r 100 p) as [q Hq].
  fold g in Hs, Hq.
  assert (Es : 100 / g = s) by (rewrite Hs at 1; apply Z.div_mul; lia).
  assert (Eq : p / g = q) by (rewrite Hq at 1; apply Z.div_mul; lia).
  rewrite Es, Eq.
  assert (Hsq : s * a = q * (a + b)).
  { apply (Z.mul_reg_l _ _ g); [lia|]. nia. }
  assert (Hrel : Z.gcd q s = 1).
  { pose proof (Z.gcd_div_gcd 100 p g ltac:(lia) eq_refl) as G.
    rewrite Es, Eq in G. rewrite Z.gcd_comm. exact G. }
  assert (Hdiv : (q | a)).
  { apply (Z.gauss q s a); [|exact Hrel]. exists (a + b). lia. }
  destruct Hdiv as [j Hj]. exists j.
  assert (Hq0 : 0 < q) by nia.
  split; [exact Hj|].
  assert (a + b = j * s).
  { apply (Z.mul_reg_l _ _ q); [lia|]. nia. }
  nia.
Qed.

(** X3.  The lengths that [pad_train_test_indices] pads to are the least
    ones with the exact ratio: every pair of lengths that covers the two
    arrays and has the ratio [f] is at least as long on both sides. *)
Theorem pad_train_test_indices_minimal
    (train_inds test_inds : list Z) (f : Q) (a b : Z) :
  two_digit_fraction f ->
  0 < len train_inds + len test_inds ->
  ~ (inject_Z (len train_inds) / inject_Z (len train_inds + len test_inds)
     == f)%Q ->
  len train_inds <= a -> len test_inds <= b ->
  (inject_Z a / inject_Z (a + b) == f)%Q ->
  exists train_padded test_padded : list Z,
    pad_train_test_indices train_inds test_inds f
    = Return (Some (train_padded, test_padded))
    /\ len train_padded <= a /\ len test_padded <= b.
Proof.
  intros Hf Hlen Hratio Ha Hb Hab.
  destruct (two_digit_percent f Hf) as (p & Hp & Ef).
  destruct (pad_block f p Hp Ef) as (_ & _ & _ & Bg & Bp & B100 & Bt & Bs).
  destruct (pad_train_test_indices_percent train_inds test_inds f p
              Hp Ef Hlen Hratio) as (R & Hm & Htr & Hte).
  set (g := Z.gcd 100 p) in *.
  set (m := Z.max _ _) in *.
  pose proof (len_nonneg train_inds) as Ltr.
  pose proof (len_nonneg test_inds) as Lte.
  rewrite Ef in Hab.
  destruct (exact_ratio_multiple p a b Hp ltac:(lia) ltac:(lia) ltac:(lia) Hab)
    as (j & Ej1 & Ej2).
  fold g in Ej1, Ej2.
  assert (Hjm : m <= j).
  { destruct (Z_lt_le_dec j m) as [L|G]; [exfalso|exact G].
    unfold m in L. apply Z.max_lt_iff in L. destruct L as [L|L].
    - apply ceiling_quotient_least in L; [lia|exact Bt].
    - apply ceiling_quotient_least in L; [lia|exact Bs]. }
  eexists _, _. split; [exact R|].
  rewrite !len_app, !len_py_list_mul. split; nia.
Qed.

(** X3 for 26 and 7 indices at 0.8 against the lengths 80 and 20. *)
Lemma pad_train_test_indices_minimal_witness :
  exists train_padded test_padded : list Z,
    pad_train_test_indices (py_range 26) (map (Z.add 26) (py_range 7)) (8 # 10)
    = Return (Some (train_padded, test_padded))
    /\ len train_padded <= 80 /\ len test_padded <= 20.
Proof.
  apply (pad_train_test_indices_minimal
           (py_range 26) (map (Z.add 26) (py_range 7)) (8 # 10) 80 20).
  - unfold two_digit_fraction. vm_compute. repeat split; reflexivity.
  - vm_compute. reflexivity.
  - vm_compute. discriminate.
  - vm_compute. discriminate.
  - vm_compute. discriminate.
  - reflexivity.
Defined.

(** ** A loop that does not end *)

Lemma compute_padding_loop_stuck (fuel : nat)
    (test_step num_train num_test tgt_test : Z) :
  0 < num_train ->
  compute_padding_loop fuel 0 test_step num_train num_test 0 tgt_test = None.
Proof.
  intros Hn. revert tgt_test.
  induction fuel as [|fuel IH]; intros tgt_test; [reflexivity|].
  cbn [compute_padding_loop].
  destruct (Z.ltb_spec 0 num_train); [|lia]. cbn [orb].
  change (0 + 0) with 0. apply IH.
Qed.

(** X4.  [_compute_padding] guards the fraction itself but steps by its
    two-digit rounding: for a fraction in (0, 1) that rounds to 0.00 and a
    positive number of train indices the loop never ends, whatever the
    budget. *)
Theorem compute_padding_diverges_below_one_percent
    (fuel : nat) (f : Q) (num_train num_test : Z) :
  (0 < f)%Q -> (f < 5 # 1000)%Q -> 0 < num_train ->
  _compute_padding fuel f num_train num_test = None.
Proof.
  intros F0 F5 Hn. unfold _compute_padding.
  assert (G0 : Qle_bool f 0 = false).
  { destruct (Qle_bool f 0) eqn:E; [|reflexivity].
    apply Qle_bool_iff in E. lra. }
  assert (G1 : Qle_bool 1 f = false).
  { destruct (Qle_bool 1 f) eqn:E; [|reflexivity].
    apply Qle_bool_iff in E. lra. }
  rewrite G0, G1. cbn [orb].
  assert (R0 : py_round (f * 100) = 0).
  { unfold py_round.
    assert (Fl : Qfloor (f * 100) = 0).
    { pose proof (Qfloor_le (f * 100)) as L.
      pose proof (Qlt_floor (f * 100)) as U.
      assert (L' : (inject_Z (Qfloor (f * 100)) < inject_Z 1)%Q)
        by (change (inject_Z 1) with 1%Q; lra).
      assert (U' : (inject_Z (-1) < inject_Z (Qfloor (f * 100)))%Q).
      { rewrite inject_Z_plus in U. change (inject_Z 1) with 1%Q in U.
        change (inject_Z (-1)) with (-1)%Q. lra. }
      rewrite <- Zlt_Qlt in L', U'. lia. }
    rewrite Fl.
    destruct (Qcompare_spec (f * 100 - inject_Z 0) (1 # 2)) as [E|L|G];
      [change (inject_Z 0) with 0%Q in E; lra|reflexivity|
       change (inject_Z 0) with 0%Q in G; lra]. }
  assert (S0 : py_round (py_round2 f * inject_Z 100) = 0).
  { unfold py_round2. rewrite R0. reflexivity. }
  rewrite S0. rewrite compute_padding_loop_stuck by exact Hn. reflexivity.
Qed.

Lemma compute_padding_diverges_below_one_percent_witness :
  _compute_padding 1000 (1 # 1000) 1 0 = None.
Proof.
  apply compute_padding_diverges_below_one_percent;
    [reflexivity|reflexivity|lia].
Defined.

(** ** Copying an existing split *)

(** [_compute_padding] at a two-digit fraction, given enough fuel. *)
Lemma compute_padding_two_digit (fuel : nat) (f : Q) (num_train num_test : Z) :
  two_digit_fraction f ->
  let p := py_round (100 * f) in
  let k := blocks p (100 - p) num_train num_test in
  (Z.to_nat k <= fuel)%nat ->
  0 < p < 100 /\ (f == inject_Z p / 100)%Q /\ 1 <= k
  /\ num_train <= k * p /\ num_test <= k * (100 - p)
  /\ _compute_padding fuel f num_train num_test
     = Some (Return (k * p - num_train, k * (100 - p) - num_test)).
Proof.
  intros Hf.
  destruct (two_digit_percent f Hf) as (p & Hp & Ef).
  destruct (pad_block f p Hp Ef) as (B1 & _).
  cbv zeta. rewrite B1. intros Hfuel.
  set (k := blocks p (100 - p) num_train num_test) in *.
  assert (K1 : 1 <= k) by (unfold k, blocks; lia).
  destruct (blocks_cover p (100 - p) num_train num_test) as [C1 C2]; try lia.
  fold k in C1, C2.
  split; [exact Hp|]. split; [exact Ef|]. split; [exact K1|].
  split; [exact C1|]. split; [exact C2|].
  unfold _compute_padding.
  destruct Hf as (F0 & F1 & F2).
  assert (G0 : Qle_bool f 0 = false).
  { destruct (Qle_bool f 0) eqn:E; [|reflexivity].
    apply Qle_bool_iff in E. lra. }
  assert (G1 : Qle_bool 1 f = false).
  { destruct (Qle_bool 1 f) eqn:E; [|reflexivity].
    apply Qle_bool_iff in E. lra. }
  rewrite G0, G1. cbn [orb].
  assert (S : py_round (py_round2 f * inject_Z 100) = p).
  { apply py_round_eq_Z. rewrite F2, Ef. change (inject_Z 100) with 100%Q.
    field. }
  rewrite S.
  replace p with (1 * p) at 3 by ring.
  replace (100 - p) with (1 * (100 - p)) at 2 by ring.
  rewrite (compute_padding_loop_blocks p (100 - p) num_train num_test)
    by (fold k; lia).
  reflexivity.
Qed.

(** Two roundings that are equal as rationals are the same rational. *)
Lemma py_round2_leibniz (x y : Q) :
  (py_round2 x == py_round2 y)%Q -> py_round2 x = py_round2 y.
Proof.
  unfold py_round2. intros E.
  assert (H : py_round (x * 100) = py_round (y * 100)).
  { apply inject_Z_injective.
    setoid_replace (inject_Z (py_round (x * 100)))
      with (inject_Z (py_round (x * 100)) / 100 * 100)%Q by field.
    rewrite E. field. }
  rewrite H. reflexivity.
Qed.

(** A number within 1/2 of an integer rounds to it. *)
Lemma py_round_near (x : Q) (z : Z) :
  (Qabs (x - inject_Z z) < 1 # 2)%Q -> py_round x = z.
Proof.
  intros H. apply Qabs_Qlt_condition in H. destruct H as [H1 H2].
  unfold py_round.
  pose proof (Qfloor_le x) as F1. pose proof (Qlt_floor x) as F2.
  set (fl := Qfloor x) in *.
  rewrite inject_Z_plus in F2. change (inject_Z 1) with 1%Q in F2.
  assert (A : fl <= z).
  { assert (A : (inject_Z fl < inject_Z (z + 1))%Q)
      by (rewrite inject_Z_plus; change (inject_Z 1) with 1%Q; lra).
    rewrite <- Zlt_Qlt in A. lia. }
  assert (B : z - 1 <= fl).
  { assert (B : (inject_Z (z - 1) < inject_Z (fl + 1))%Q).
    { rewrite inject_Z_plus. unfold Z.sub. rewrite inject_Z_plus.
      change (inject_Z 1) with 1%Q. change (inject_Z (- (1))) with (- (1))%Q.
      lra. }
    rewrite <- Zlt_Qlt in B. lia. }
  destruct (Qcompare_spec (x - inject_Z fl) (1 # 2)) as [E|L|G].
  - exfalso. assert (C : z = fl \/ z = fl + 1) by lia.
    destruct C as [->| ->].
    + lra.
    + rewrite inject_Z_plus in H1. change (inject_Z 1) with 1%Q in H1. lra.
  - assert (C : (inject_Z z < inject_Z (fl + 1))%Q)
      by (rewrite inject_Z_plus; change (inject_Z 1) with 1%Q; lra).
    rewrite <- Zlt_Qlt in C. lia.
  - assert (C : (inject_Z fl < inject_Z z)%Q) by lra.
    rewrite <- Zlt_Qlt in C. lia.
Qed.

(** The exact quotient is faithful. *)
Lemma exact_div_faithful (a b : Z) : faithful_quotient exact_div a b.
Proof.
  unfold faithful_quotient, exact_div.
  assert (E : (inject_Z a / inject_Z b - inject_Z a / inject_Z b == 0)%Q)
    by ring.
  rewrite E. reflexivity.
Qed.

(** A faithful quotient of lengths in the exact ratio [f] rounds to
    [round(f, 2)]. *)
Lemma py_round2_faithful_quotient (float_div : Z -> Z -> Q) (a b : Z)
    (f : Q) :
  two_digit_fraction f ->
  faithful_quotient float_div a b ->
  (inject_Z a / inject_Z b == f)%Q ->
  py_round2 (float_div a b) = py_round2 f.
Proof.
  intros Hf Hq Hr.
  destruct (two_digit_percent f Hf) as (p & Hp & Ef).
  unfold faithful_quotient in Hq. rewrite Hr in Hq.
  apply Qabs_Qlt_condition in Hq. destruct Hq as [Q1 Q2].
  unfold py_round2.
  assert (E1 : py_round (float_div a b * 100) = p).
  { apply py_round_near. apply Qabs_Qlt_condition.
    setoid_replace (float_div a b * 100 - inject_Z p)%Q
      with ((float_div a b - f) * 100)%Q by (rewrite Ef; field).
    split; lra. }
  assert (E2 : py_round (f * 100) = p)
    by (apply py_round_eq_Z; rewrite Ef; field).
  rewrite E1, E2. reflexivity.
Qed.

Lemma combine_repeat_r {A B C : Type} (f : A * B -> C) (l : list A) (b : B)
    (k : nat) :
  List.length l = k ->
  map f (combine l (repeat b k)) = map (fun a => f (a, b)) l.
Proof.
  revert k. induction l as [|a l IH]; intros [|k] H; try discriminate.
  - reflexivity.
  - cbn. f_equal. apply IH. cbn in H. lia.
Qed.

Lemma combine_repeat {A B : Type} (a : A) (b : B) (k : nat) :
  combine (repeat a k) (repeat b k) = repeat (a, b) k.
Proof. induction k as [|k IH]; cbn; [reflexivity|rewrite IH; reflexivity]. Qed.

Lemma Forall_repeat {A : Type} (P : A -> Prop) (a : A) (k : nat) :
  P a -> Forall P (repeat a k).
Proof. intros H. induction k; cbn; constructor; assumption. Qed.

Section CopiedSplit.

Variable str_isdigit : string -> bool.
Variable str_int : string -> result Z.
Variable float_mul : Z -> Q -> Q.
Variable float_div : Z -> Z -> Q.
Variable permutation : list Z -> list Z.
Variable world : Type.
Variable prelude : world -> world * result (option DataFrame).
Variable materialize : world -> split_entry -> world * result unit.

(** The call of [create_training_dataset] on [copies] copies of a pair of
    index lists whose rounded ratio is [fraction]. *)
Lemma create_training_dataset_copies
    (w w' : world) (cfg : config) (proj : project) (Data : DataFrame)
    (num_shuffles : Z) (shuffles : option (list pyval)) (userfeedback : bool)
    (Shuffles : list Z) (copies : Z) (train test : list Z) (fraction : Q) :
  prelude w = (w', Return (Some Data)) ->
  validate_shuffles str_isdigit str_int float_mul proj shuffles
    num_shuffles userfeedback
  = Return Shuffles ->
  len Shuffles = copies ->
  0 < len train + len test ->
  py_round2 (float_div (len train) (len train + len test)) = fraction ->
  create_training_dataset str_isdigit str_int float_mul float_div
    permutation world prelude materialize
    w cfg proj num_shuffles shuffles userfeedback
    (Some (py_list_mul train copies)) (Some (py_list_mul test copies))
  = let splits :=
      map (fun s => (fraction, s, (strip_padding train, strip_padding test)))
        Shuffles in
    match materialize_all world materialize w' splits with
    | (w2, Raise e) => (w2, Raise e)
    | (w2, Return _) => (w2, Return (Some splits))
    end.
Proof.
  intros Hpre Hval Hlen Hpos Hfr.
  unfold create_training_dataset. rewrite Hpre, Hval.
  assert (Hk : List.length Shuffles = Z.to_nat copies)
    by (unfold len in Hlen; lia).
  assert (Hrej : lengths_rejected (py_list_mul train copies)
                   (py_list_mul test copies) Shuffles = false).
  { unfold lengths_rejected. rewrite !len_py_list_mul, Z.eqb_refl.
    reflexivity. }
  rewrite Hrej. unfold py_list_mul. rewrite combine_repeat.
  unfold enumerate, py_range.
  rewrite (supplied_splits_paired float_div Shuffles (repeat (train, test)
             (Z.to_nat copies)) 0 []).
  - cbn [skipn app].
    rewrite (combine_repeat_r
               (fun sp => supplied_entry float_div (fst sp) (snd sp))
               Shuffles (train, test) (Z.to_nat copies) Hk).
    unfold supplied_entry. cbn [fst snd]. rewrite Hfr. reflexivity.
  - apply Forall_repeat. exact Hpos.
  - rewrite repeat_length. lia.
Qed.

End CopiedSplit.

(** X5.  Copying a non-empty split of real indices at a two-digit train
    fraction, when the shuffles pass validation and are as many as the
    copies, gives every new shuffle the train and test indices of the
    original split, unpadded, under the configured train fraction, whether
    or not sentinels were needed in between.  The machine quotient of the
    padded lengths is taken to be within 1/1000 of the exact one. *)
Theorem copied_split_keeps_indices
    (str_isdigit : string -> bool) (str_int : string -> result Z)
    (float_mul : Z -> Q -> Q) (float_div : Z -> Z -> Q)
    (permutation : list Z -> list Z)
    (world : Type) (prelude : world -> world * result (option DataFrame))
    (materialize : world -> split_entry -> world * result unit)
    (fuel : nat) (w w' : world) (cfg : config) (proj : project)
    (Data : DataFrame) (train_idx test_idx : list Z)
    (from_trainsetindex num_shuffles : Z) (shuffles : option (list pyval))
    (userfeedback : bool) (fraction : Q) (Shuffles : list Z) :
  py_index (TrainingFraction cfg) from_trainsetindex = Return fraction ->
  two_digit_fraction fraction ->
  0 < len train_idx + len test_idx ->
  ~ In sentinel train_idx -> ~ In sentinel test_idx ->
  prelude w = (w', Return (Some Data)) ->
  validate_shuffles str_isdigit str_int float_mul proj shuffles
    num_shuffles userfeedback
  = Return Shuffles ->
  len Shuffles
  = match shuffles with Some l => len l | None => num_shuffles end ->
  (Z.to_nat (blocks (py_round (100 * fraction))
               (100 - py_round (100 * fraction))
               (len train_idx) (len test_idx)) <= fuel)%nat ->
  (let p := py_round (100 * fraction) in
   let k := blocks p (100 - p) (len train_idx) (len test_idx) in
   faithful_quotient float_div (k * p) (k * p + k * (100 - p))) ->
  create_training_dataset_from_existing_split str_isdigit str_int float_mul
    float_div permutation world
    prelude materialize fuel w cfg proj (train_idx, test_idx)
    from_trainsetindex num_shuffles shuffles userfeedback
  = Some (let splits :=
            map (fun s => (py_round2 fraction, s, (train_idx, test_idx)))
              Shuffles in
          match materialize_all world materialize w' splits with
          | (w2, Raise e) => (w2, Raise e)
          | (w2, Return _) => (w2, Return (Some splits))
          end).
Proof.
  intros Hidx Hf Hpos Htr Hte Hpre Hval Hlen Hfuel Hdiv.
  pose proof (len_nonneg train_idx) as Ntr.
  pose proof (len_nonneg test_idx) as Nte.
  unfold create_training_dataset_from_existing_split. cbn [fst snd].
  rewrite Hidx. rewrite float_truediv_nonzero by lia.
  assert (E2 : (py_round2 fraction == fraction)%Q) by apply Hf.
  destruct (Qeq_bool (py_round2 (float_div (len train_idx)
                                   (len train_idx + len test_idx)))
              (py_round2 fraction)) eqn:Q; cbn [negb].
  - apply Qeq_bool_eq, py_round2_leibniz in Q.
    rewrite (create_training_dataset_copies str_isdigit str_int float_mul
               float_div permutation world
               prelude materialize w w' cfg proj Data num_shuffles shuffles
               userfeedback Shuffles _ train_idx test_idx
               (py_round2 fraction) Hpre Hval Hlen Hpos Q).
    rewrite !strip_padding_id by assumption. reflexivity.
  - assert (Hf' : two_digit_fraction (py_round2 fraction))
      by (apply (two_digit_fraction_comp fraction);
          [symmetry; exact E2|exact Hf]).
    assert (Ep : py_round (100 * py_round2 fraction)
                 = py_round (100 * fraction))
      by (apply py_round_comp; rewrite E2; reflexivity).
    destruct (compute_padding_two_digit fuel (py_round2 fraction)
                (len train_idx) (len test_idx) Hf')
      as (Hp & Efp & K1 & C1 & C2 & R).
    { rewrite Ep. exact Hfuel. }
    cbv zeta in R, Hdiv. rewrite Ep in Hp, Efp, K1, C1, C2, R.
    set (p := py_round (100 * fraction)) in *.
    set (k := blocks p (100 - p) (len train_idx) (len test_idx)) in *.
    rewrite R.
    set (tp := train_idx ++ py_list_mul sentinel (k * p - len train_idx)).
    set (te := test_idx ++ py_list_mul sentinel (k * (100 - p) - len test_idx)).
    assert (Ltp : len tp = k * p)
      by (unfold tp; rewrite len_app, len_py_list_mul; lia).
    assert (Lte : len te = k * (100 - p))
      by (unfold te; rewrite len_app, len_py_list_mul; lia).
    assert (Fr : py_round2 (float_div (len tp) (len tp + len te))
                 = py_round2 fraction).
    { rewrite Ltp, Lte.
      apply py_round2_faithful_quotient; [exact Hf|exact Hdiv|].
      assert (Er : (inject_Z (k * p) / inject_Z (k * p + k * (100 - p))
                    == inject_Z p / 100)%Q)
        by (apply (block_ratio k p 100 1 p); lia).
      assert (Efr : (fraction == inject_Z p / 100)%Q)
        by (rewrite <- E2; exact Efp).
      rewrite Er, Efr. reflexivity. }
    rewrite (create_training_dataset_copies str_isdigit str_int float_mul
               float_div permutation world
               prelude materialize w w' cfg proj Data num_shuffles shuffles
               userfeedback Shuffles _ tp te
               (py_round2 fraction) Hpre Hval Hlen ltac:(lia) Fr).
    unfold tp, te, py_list_mul.
    rewrite !strip_padding_app by assumption. reflexivity.
Qed.

(** X5 for the split [0, 1, 2] / [3] copied twice at the fraction 0.8:
    the ratio 0.75 calls for sentinels, which do not show in the result. *)
Lemma copied_split_keeps_indices_witness :
  create_training_dataset_from_existing_split isdigit int_of_string
    binary64_mul binary64_div (fun l => l) unit
    (fun w => (w, Return (Some [])))
    (fun w _ => (w, Return tt))
    1 tt {| TrainingFraction := [8 # 10]; video_sets := [] |}
    empty_project ([0; 1; 2], [3]) 0 2 None true
  = Some (tt, Return (Some [(py_round2 (8 # 10), 1, ([0; 1; 2], [3]));
                            (py_round2 (8 # 10), 2, ([0; 1; 2], [3]))])).
Proof.
  apply (copied_split_keeps_indices isdigit int_of_string
           binary64_mul binary64_div (fun l => l) unit
           (fun w => (w, Return (Some [])))
           (fun w _ => (w, Return tt))
           1 tt tt {| TrainingFraction := [8 # 10]; video_sets := [] |}
           empty_project [] [0; 1; 2] [3] 0 2 None true (8 # 10) [1; 2]).
  - reflexivity.
  - unfold two_digit_fraction. vm_compute. repeat split; reflexivity.
  - vm_compute. reflexivity.
  - cbn. unfold sentinel. intuition discriminate.
  - cbn. unfold sentinel. intuition discriminate.
  - reflexivity.
  - vm_compute. reflexivity.
  - reflexivity.
  - vm_compute. lia.
  - vm_compute. reflexivity.
Defined.

(** An empty split cannot be copied: its ratio is a division by zero. *)
Lemma copied_split_empty
    (str_isdigit : string -> bool) (str_int : string -> result Z)
    (float_mul : Z -> Q -> Q) (float_div : Z -> Z -> Q)
    (permutation : list Z -> list Z)
    (world : Type) (prelude : world -> world * result (option DataFrame))
    (materialize : world -> split_entry -> world * result unit)
    (fuel : nat) (w : world) (cfg : config) (proj : project)
    (from_trainsetindex num_shuffles : Z) (shuffles : option (list pyval))
    (userfeedback : bool) (fraction : Q) :
  py_index (TrainingFraction cfg) from_trainsetindex = Return fraction ->
  create_training_dataset_from_existing_split str_isdigit str_int float_mul
    float_div permutation world
    prelude materialize fuel w cfg proj ([], [])
    from_trainsetindex num_shuffles shuffles userfeedback
  = Some (w, Raise ZeroDivisionError).
Proof.
  intros Hidx. unfold create_training_dataset_from_existing_split.
  cbn [fst snd]. rewrite Hidx. reflexivity.
Qed.

(** ** Video names *)

Lemma rsplit_last_some (sep : ascii) (s before after : string) :
  rsplit_last sep s = Some (before, after) ->
  s = (before ++ String sep after)%string /\ char_in sep after = false.
Proof.
  revert before. induction s as [|c s IH]; intros before; cbn; [discriminate|].
  destruct (rsplit_last sep s) as [[b a]|] eqn:E.
  - intros H. injection H as <- <-. destruct (IH b eq_refl) as [-> Ha].
    split; [reflexivity|exact Ha].
  - destruct (Ascii.eqb_spec c sep) as [->|N]; [|discriminate].
    intros H. injection H as <- <-. split; [reflexivity|].
    clear IH. induction s as [|d s IH]; [reflexivity|].
    cbn in E |- *. destruct (rsplit_last sep s) as [[b a]|]; [discriminate|].
    destruct (Ascii.eqb d sep); [discriminate|]. cbn. apply IH. reflexivity.
Qed.

Lemma rsplit_last_none (sep : ascii) (s : string) :
  rsplit_last sep s = None <-> char_in sep s = false.
Proof.
  induction s as [|c s IH]; cbn; [tauto|].
  destruct (rsplit_last sep s) as [[b a]|].
  - split; [discriminate|]. intros H. apply orb_false_iff in H.
    destruct H as [_ H]. apply IH in H. discriminate.
  - destruct (Ascii.eqb c sep); cbn; [split; discriminate|].
    split; intros _; [apply IH|]; reflexivity.
Qed.

Section VideoNameProperties.

Variable splitext : string -> string * string.
Variable path_suffix path_stem parent_name parent_parent_name : string -> string.
Variable str_lower : string -> string.

(** X6.  [_robust_path_split] never raises and loses no character: with
    the separator it chooses, a backslash if the path holds one and a slash
    otherwise, the path is the parent, the separator, the file name and the
    extension, the latter two free of the separator; a path without the
    separator has the parent [.] and is the file name and the extension. *)
Theorem robust_path_split_round_trip (path : string) :
  (forall p : string, (fst (splitext p) ++ snd (splitext p))%string = p) ->
  let sep := if char_in "\" path then "\"%char else "/"%char in
  exists parent filename ext : string,
    _robust_path_split splitext path = Return (parent, filename, ext)
    /\ (char_in sep path = true ->
        path = (parent ++ String sep (filename ++ ext))%string
        /\ char_in sep (filename ++ ext) = false)
    /\ (char_in sep path = false ->
        parent = "."%string /\ path = (filename ++ ext)%string).
Proof.
  intros Hext sep. unfold _robust_path_split. fold sep. unfold py_rsplit1.
  destruct (rsplit_last sep path) as [[before after]|] eqn:E.
  - apply rsplit_last_some in E. destruct E as [Ep Ha].
    cbn. eexists _, _, _. split; [reflexivity|]. rewrite Hext. split.
    + intros _. split; [exact Ep|exact Ha].
    + intros N. exfalso. rewrite Ep in N.
      clear - N. induction before as [|c b IH]; cbn in N.
      * rewrite Ascii.eqb_refl in N. discriminate.
      * apply orb_false_iff in N. apply IH, N.
  - apply rsplit_last_none in E.
    cbn. eexists _, _, _. split; [reflexivity|]. rewrite Hext. split.
    + intros H. congruence.
    + intros _. split; reflexivity.
Qed.

Lemma robust_path_split_returns (path : string) :
  exists split, _robust_path_split splitext path = Return split.
Proof.
  unfold _robust_path_split, py_rsplit1.
  destruct (rsplit_last _ path) as [[before after]|];
    cbn; eexists; reflexivity.
Qed.

Lemma video_filename_returns (video : string) :
  exists name,
    video_filename splitext path_suffix path_stem parent_name
      parent_parent_name str_lower video = Return name.
Proof.
  unfold video_filename.
  destruct (String.eqb _ ".avi"); [|eexists; reflexivity].
  destruct (robust_path_split_returns video) as (split & E).
  rewrite E. cbn [bind]. eexists. reflexivity.
Qed.

End VideoNameProperties.

(** ** Dictionaries *)

Lemma dict_get_set {V : Type} (d : dict V) (k k' : string) (v : V) :
  dict_get (dict_set k v d) k'
  = if String.eqb k k' then Some v else dict_get d k'.
Proof.
  induction d as [|[k0 v0] d IH]; cbn.
  - reflexivity.
  - destruct (String.eqb_spec k0 k) as [->|N]; cbn.
    + destruct (String.eqb k k'); reflexivity.
    + rewrite IH. destruct (String.eqb_spec k0 k') as [->|N'];
        [|reflexivity].
      destruct (String.eqb_spec k k'); [congruence|reflexivity].
Qed.

Lemma existsb_eqb_string (name : string) (l : list string) :
  existsb (String.eqb name) l = true <-> In name l.
Proof.
  rewrite existsb_exists. split.
  - intros (x & Hx & E). apply String.eqb_eq in E. subst. exact Hx.
  - intros H. exists name. split; [exact H|apply String.eqb_refl].
Qed.

Lemma first_occurrences_from_In (seen names : list string) (x : string) :
  In x (first_occurrences_from seen names) <-> In x names /\ ~ In x seen.
Proof.
  revert seen. induction names as [|n rest IH]; intros seen; cbn; [tauto|].
  destruct (existsb (String.eqb n) seen) eqn:E.
  - apply existsb_eqb_string in E. rewrite IH. split.
    + intros [H N]. split; [right; exact H|exact N].
    + intros [[->|H] N]; [contradiction|split; assumption].
  - assert (Nn : ~ In n seen).
    { intros H. apply existsb_eqb_string in H. congruence. }
    cbn. rewrite IH, in_app_iff. cbn. split.
    + intros [->|[H N]]; [split; [left; reflexivity|exact Nn]|].
      split; [right; exact H|]. intros S. apply N. left. exact S.
    + intros [[->|H] N]; [left; reflexivity|].
      destruct (String.eqb_spec n x) as [->|Nx]; [left; reflexivity|].
      right. split; [exact H|]. intros [S|[S|[]]]; [contradiction|congruence].
Qed.

Lemma first_occurrences_from_NoDup (seen names : list string) :
  NoDup (first_occurrences_from seen names).
Proof.
  revert seen. induction names as [|n rest IH]; intros seen; cbn;
    [constructor|].
  destruct (existsb (String.eqb n) seen); [apply IH|].
  constructor; [|apply IH].
  rewrite first_occurrences_from_In, in_app_iff. cbn. tauto.
Qed.

Section ParseVideoProperties.

Variable splitext : string -> string * string.
Variable path_suffix path_stem parent_name parent_parent_name : string -> string.
Variable str_lower : string -> string.

Lemma parse_video_loop_first_occurrences
    (videos names : list string) :
  Forall2 (fun video name =>
             video_filename splitext path_suffix path_stem parent_name
               parent_parent_name str_lower video = Return name)
    videos names ->
  forall (filenames : list string) (d : dict (list string)),
    filed filenames d ->
    exists d' : dict (list string),
      parse_video_loop splitext path_suffix path_stem parent_name
        parent_parent_name str_lower videos filenames d
      = Return (filenames ++ first_occurrences_from filenames names, d').
Proof.
  induction 1 as [|video name videos names Hname _ IH];
    intros filenames d Hd.
  - exists d. cbn. rewrite app_nil_r. reflexivity.
  - cbn [parse_video_loop first_occurrences_from]. rewrite Hname.
    cbn [bind]. pose proof (Hd name) as Hn.
    destruct (dict_get d name) as [l|] eqn:G.
    + destruct Hn as [Hl Hin].
      assert (E : existsb (String.eqb name) filenames = true)
        by (apply existsb_eqb_string; exact Hin).
      rewrite E.
      assert (L : (len l =? 0) = false).
      { apply Z.eqb_neq. destruct l; [contradiction|unfold len; cbn; lia]. }
      rewrite L. apply IH.
      intros x. rewrite dict_get_set.
      destruct (String.eqb_spec name x) as [<-|N].
      * split; [destruct l; discriminate|exact Hin].
      * apply Hd.
    + assert (E : existsb (String.eqb name) filenames = false).
      { destruct (existsb (String.eqb name) filenames) eqn:E; [|reflexivity].
        apply existsb_eqb_string in E. contradiction. }
      rewrite E. cbn [len List.length Z.of_nat Z.eqb].
      destruct (IH (filenames ++ [name]) (dict_set name ([] ++ [video]) d))
        as (d' & R).
      * intros x. rewrite dict_get_set.
        destruct (String.eqb_spec name x) as [<-|N].
        -- split; [discriminate|]. apply in_or_app. right. left. reflexivity.
        -- pose proof (Hd x) as Hx. destruct (dict_get d x) as [lx|].
           ++ split; [apply Hx|]. apply in_or_app. left. apply Hx.
           ++ intros I. apply in_app_or in I.
              destruct I as [I|[I|[]]]; [contradiction|congruence].
      * exists d'. rewrite R, <- app_assoc. reflexivity.
Qed.

(** X7.  [parse_video_filenames] never raises and returns the names of the
    listed videos without repetition, each at the place of its first
    occurrence. *)
Theorem parse_video_filenames_first_occurrences (videos : list string) :
  exists names : list string,
    Forall2 (fun video name =>
               video_filename splitext path_suffix path_stem parent_name
                 parent_parent_name str_lower video = Return name)
      videos names
    /\ parse_video_filenames splitext path_suffix path_stem parent_name
         parent_parent_name str_lower videos
       = Return (first_occurrences names)
    /\ NoDup (first_occurrences names)
    /\ (forall name : string,
          In name (first_occurrences names) <-> In name names).
Proof.
  assert (Hnames : exists names,
             Forall2 (fun video name =>
                        video_filename splitext path_suffix path_stem
                          parent_name parent_parent_name str_lower video
                        = Return name)
               videos names).
  { induction videos as [|video videos (names & IH)].
    - exists []. constructor.
    - destruct (video_filename_returns splitext path_suffix path_stem
                  parent_name parent_parent_name str_lower video)
        as (name & E).
      exists (name :: names). constructor; assumption. }
  destruct Hnames as (names & Hnames). exists names.
  split; [exact Hnames|].
  destruct (parse_video_loop_first_occurrences videos names Hnames [] [])
    as (d' & R).
  { intros x. cbn. tauto. }
  split; [|split].
  - unfold parse_video_filenames. rewrite R. reflexivity.
  - apply first_occurrences_from_NoDup.
  - intros name. unfold first_occurrences.
    rewrite first_occurrences_from_In. cbn. tauto.
Qed.

End ParseVideoProperties.

(** ** Pose configuration files *)

Lemma dict_get_In_keys {V : Type} (d : dict V) (k : string) :
  dict_get d k <> None <-> In k (dict_keys d).
Proof.
  induction d as [|[k0 v0] d IH]; cbn; [tauto|].
  destruct (String.eqb_spec k0 k) as [->|N].
  - split; [left; reflexivity|discriminate].
  - rewrite IH. split; [right; assumption|].
    intros [E|H]; [contradiction|exact H].
Qed.

Lemma dict_mem_In_keys {V : Type} (d : dict V) (k : string) :
  dict_mem k d = true <-> In k (dict_keys d).
Proof.
  rewrite <- dict_get_In_keys. unfold dict_mem.
  destruct (dict_get d k); split; congruence.
Qed.

Lemma dict_pop_keys_subset {V : Type} (d : dict V) (k x : string) :
  In x (dict_keys (dict_pop k d)) -> In x (dict_keys d).
Proof.
  induction d as [|[k0 v0] d IH]; cbn; [tauto|].
  destruct (String.eqb k0 k); cbn; [right; assumption|].
  intros [E|H]; [left; exact E|right; apply IH; exact H].
Qed.

Lemma dict_pop_NoDup {V : Type} (d : dict V) (k : string) :
  NoDup (dict_keys d) -> NoDup (dict_keys (dict_pop k d)).
Proof.
  induction d as [|[k0 v0] d IH]; cbn; intros H; [constructor|].
  inversion H as [|? ? Hn Hd]; subst.
  destruct (String.eqb k0 k); [exact Hd|]. cbn. constructor.
  - intros I. apply Hn. apply (dict_pop_keys_subset d k). exact I.
  - apply IH. exact Hd.
Qed.

Lemma dict_get_pop {V : Type} (d : dict V) (k k' : string) :
  NoDup (dict_keys d) ->
  dict_get (dict_pop k d) k'
  = if String.eqb k k' then None else dict_get d k'.
Proof.
  induction d as [|[k0 v0] d IH]; cbn; intros H.
  - destruct (String.eqb k k'); reflexivity.
  - inversion H as [|? ? Hn Hd]; subst.
    destruct (String.eqb_spec k0 k) as [->|N].
    + destruct (String.eqb_spec k k') as [E|N'].
      * subst k'. destruct (dict_get d k) eqn:G; [|reflexivity].
        exfalso. apply Hn. apply dict_get_In_keys. congruence.
      * reflexivity.
    + cbn. rewrite IH by exact Hd.
      destruct (String.eqb_spec k0 k') as [->|N'']; [|reflexivity].
      destruct (String.eqb_spec k k'); [congruence|reflexivity].
Qed.

Section PoseConfigProperties.

Variable value : Type.
Variable str_value : string -> value.

(** The loop that removes the keys to drop. *)
Lemma drop_keys_get (keys : list string) (d : dict value) (k : string) :
  NoDup (dict_keys d) ->
  dict_get
    (fold_left (fun docs0 key =>
                  if dict_mem key docs0 then dict_pop key docs0 else docs0)
       keys d) k
  = if existsb (String.eqb k) keys then None else dict_get d k.
Proof.
  revert d. induction keys as [|key keys IH]; intros d Hd; [reflexivity|].
  cbn [fold_left existsb].
  destruct (dict_mem key d) eqn:M.
  - rewrite IH by (apply dict_pop_NoDup; exact Hd).
    rewrite dict_get_pop by exact Hd. rewrite (String.eqb_sym k key).
    destruct (String.eqb key k); cbn;
      destruct (existsb (String.eqb k) keys); reflexivity.
  - rewrite IH by exact Hd.
    destruct (String.eqb_spec k key) as [->|N]; cbn; [|reflexivity].
    destruct (existsb _ keys); [reflexivity|].
    unfold dict_mem in M. destruct (dict_get d key); [discriminate|reflexivity].
Qed.

Lemma update_keys_get (source : dict value) (keys : list string)
    (d : dict value) (k : string) :
  dict_get
    (fold_left (fun docs0 key =>
                  match dict_get source key with
                  | Some v => dict_set key v docs0
                  | None => docs0
                  end) keys d) k
  = if existsb (String.eqb k) keys then
      match dict_get source k with Some v => Some v | None => dict_get d k end
    else dict_get d k.
Proof.
  revert d. induction keys as [|key keys IH]; intros d; [reflexivity|].
  cbn [fold_left existsb]. rewrite IH.
  destruct (String.eqb_spec k key) as [->|N]; cbn [orb].
  - destruct (dict_get source key) as [v|] eqn:G.
    + rewrite dict_get_set, String.eqb_refl.
      destruct (existsb _ keys); reflexivity.
    + destruct (existsb _ keys); reflexivity.
  - destruct (dict_get source key) as [v|] eqn:G; [|reflexivity].
    rewrite dict_get_set.
    destruct (String.eqb_spec key k); [congruence|reflexivity].
Qed.

Lemma update_from_get (source d : dict value) (k : string) :
  dict_get (update_from value source d) k
  = match dict_get source k with Some v => Some v | None => dict_get d k end.
Proof.
  unfold update_from. rewrite update_keys_get.
  destruct (existsb (String.eqb k) (dict_keys source)) eqn:E; [reflexivity|].
  destruct (dict_get source k) eqn:G; [|reflexivity].
  assert (I : In k (dict_keys source))
    by (apply dict_get_In_keys; congruence).
  apply existsb_eqb_string in I. congruence.
Qed.

Lemma MakeTrain_get (itemstochange template : dict value)
    (items2drop : option (dict value)) (key : string) :
  NoDup (dict_keys template) ->
  dict_get (MakeTrain_pose_yaml value itemstochange template items2drop) key
  = match dict_get itemstochange key with
    | Some v => Some v
    | None =>
        if dict_mem key (match items2drop with Some d => d | None => [] end)
        then None else dict_get template key
    end.
Proof.
  intros Hd. unfold MakeTrain_pose_yaml. rewrite update_from_get.
  destruct (dict_get itemstochange key); [reflexivity|].
  rewrite drop_keys_get by exact Hd.
  set (drop := match items2drop with Some d => d | None => [] end).
  destruct (existsb (String.eqb key) (dict_keys drop)) eqn:E.
  - apply existsb_eqb_string, dict_mem_In_keys in E. rewrite E. reflexivity.
  - destruct (dict_mem key drop) eqn:M; [|reflexivity].
    apply dict_mem_In_keys, existsb_eqb_string in M. congruence.
Qed.

(** X8.  In the mapping that [MakeTrain_pose_yaml] returns a key to change
    has its new value, also when it is among the keys to drop; any other
    key to drop is absent; every other key is as in the template.
    [MakeInference_yaml] does the same without dropping. *)
Theorem MakeTrain_pose_yaml_lookup (itemstochange template : dict value)
    (items2drop : option (dict value)) :
  NoDup (dict_keys template) ->
  (forall key : string,
     dict_get (MakeTrain_pose_yaml value itemstochange template items2drop) key
     = match dict_get itemstochange key with
       | Some v => Some v
       | None =>
           if dict_mem key (match items2drop with Some d => d | None => [] end)
           then None else dict_get template key
       end)
  /\ (forall key : string,
        dict_get (MakeInference_yaml value itemstochange template) key
        = match dict_get itemstochange key with
          | Some v => Some v
          | None => dict_get template key
          end).
Proof.
  intros Hd. split.
  - intros key. apply MakeTrain_get. exact Hd.
  - intros key. apply update_from_get.
Qed.

End PoseConfigProperties.

Section PoseTestProperties.

Variable value : Type.
Variable str_value : string -> value.

Lemma copy_keys_outcome (dictionary : dict value) (keys : list string)
    (acc : dict value) :
  match copy_keys value dictionary keys acc with
  | KeyError key => In key keys /\ dict_get dictionary key = None
  | Found d =>
      (forall key : string, In key keys -> dict_get dictionary key <> None)
      /\ forall k : string,
           dict_get d k
           = if existsb (String.eqb k) keys then dict_get dictionary k
             else dict_get acc k
  end.
Proof.
  revert acc. induction keys as [|key keys IH]; intros acc; cbn [copy_keys].
  - split; [intros key []|reflexivity].
  - destruct (dict_get dictionary key) as [v|] eqn:G.
    + specialize (IH (dict_set key v acc)).
      destruct (copy_keys value dictionary keys (dict_set key v acc))
        as [d|missing].
      * destruct IH as [Hall Hget]. split.
        -- intros k [<-|H]; [congruence|apply Hall; exact H].
        -- intros k. rewrite Hget. cbn [existsb].
           destruct (String.eqb_spec k key) as [->|N]; cbn [orb].
           ++ destruct (existsb _ keys); [reflexivity|].
              rewrite dict_get_set, String.eqb_refl. congruence.
           ++ destruct (existsb _ keys); [reflexivity|].
              rewrite dict_get_set.
              destruct (String.eqb_spec key k); [congruence|reflexivity].
      * destruct IH as [Hin Hnone]. split; [right; exact Hin|exact Hnone].
    + split; [left; reflexivity|exact G].
Qed.

Lemma set_if_given_get (k k' : string) (given : option value) (d : dict value) :
  dict_get (set_if_given value k given d) k'
  = if String.eqb k k' then
      match given with Some v => Some v | None => dict_get d k' end
    else dict_get d k'.
Proof.
  destruct given as [v|]; cbn.
  - apply dict_get_set.
  - destruct (String.eqb k k'); reflexivity.
Qed.

Lemma written_get (d0 : dict value)
    (nmsradius minconfidence sigma locref_smooth : option value)
    (key : string) :
  dict_get
    (dict_set "scoremap_dir" (str_value "test")
       (set_if_given value "locref_smooth" locref_smooth
          (set_if_given value "sigma" sigma
             (set_if_given value "minconfidence" minconfidence
                (set_if_given value "nmsradius" nmsradius d0))))) key
  = if String.eqb key "scoremap_dir" then Some (str_value "test")
    else match given_value nmsradius minconfidence sigma locref_smooth key with
         | Some v => Some v
         | None => dict_get d0 key
         end.
Proof.
  rewrite dict_get_set, !set_if_given_get. unfold given_value.
  rewrite (String.eqb_sym key "scoremap_dir"),
    (String.eqb_sym key "locref_smooth"), (String.eqb_sym key "sigma"),
    (String.eqb_sym key "minconfidence"), (String.eqb_sym key "nmsradius").
  destruct (String.eqb "scoremap_dir" key); [reflexivity|].
  destruct (String.eqb_spec "locref_smooth" key) as [<-|_];
    [cbn; destruct locref_smooth; reflexivity|].
  destruct (String.eqb_spec "sigma" key) as [<-|_];
    [cbn; destruct sigma; reflexivity|].
  destruct (String.eqb_spec "minconfidence" key) as [<-|_];
    [cbn; destruct minconfidence; reflexivity|].
  destruct (String.eqb "nmsradius" key); [destruct nmsradius|]; reflexivity.
Qed.

(** X9.  [MakeTest_pose_yaml] raises the [KeyError] of a key to save that
    the dictionary lacks, and otherwise writes a mapping in which
    [scoremap_dir] is ["test"], each optional key given has the value
    given, and every other key is copied from the dictionary if it is to
    be saved and absent if not. *)
Theorem MakeTest_pose_yaml_written (dictionary : dict value)
    (keys2save : list string)
    (nmsradius minconfidence sigma locref_smooth : option value) :
  match MakeTest_pose_yaml value str_value dictionary keys2save
          nmsradius minconfidence sigma locref_smooth with
  | KeyError key => In key keys2save /\ dict_get dictionary key = None
  | Found written =>
      (forall key : string,
         In key keys2save -> dict_get dictionary key <> None)
      /\ forall key : string,
           dict_get written key
           = if String.eqb key "scoremap_dir" then Some (str_value "test")
             else match given_value nmsradius minconfidence sigma
                          locref_smooth key with
                  | Some v => Some v
                  | None =>
                      if existsb (String.eqb key) keys2save
                      then dict_get dictionary key else None
                  end
  end.
Proof.
  unfold MakeTest_pose_yaml.
  pose proof (copy_keys_outcome dictionary keys2save []) as H.
  destruct (copy_keys value dictionary keys2save []) as [d0|missing];
    [|exact H].
  destruct H as [Hall Hget]. split; [exact Hall|].
  intros key. cbv zeta. rewrite written_get, Hget. reflexivity.
Qed.

(** X10.  The test configuration made from the mapping that
    [MakeTrain_pose_yaml] returns, as [create_training_dataset] makes it:
    a [KeyError] can only name a key to save that was not changed and was
    dropped or is not in the template; without one, every key to save that
    was changed, other than [scoremap_dir] and the optional keys given,
    is written with its changed value. *)
Theorem MakeTest_after_MakeTrain (itemstochange template : dict value)
    (items2drop : option (dict value)) (keys2save : list string)
    (nmsradius minconfidence sigma locref_smooth : option value) :
  NoDup (dict_keys template) ->
  match MakeTest_pose_yaml value str_value
          (MakeTrain_pose_yaml value itemstochange template items2drop)
          keys2save nmsradius minconfidence sigma locref_smooth with
  | KeyError key =>
      In key keys2save /\ dict_get itemstochange key = None
      /\ (dict_mem key (match items2drop with Some d => d | None => [] end)
          = true
          \/ dict_get template key = None)
  | Found written =>
      forall (key : string) (v : value),
        In key keys2save -> dict_get itemstochange key = Some v ->
        key <> "scoremap_dir"%string ->
        given_value nmsradius minconfidence sigma locref_smooth key = None ->
        dict_get written key = Some v
  end.
Proof.
  intros Hd. unfold MakeTest_pose_yaml.
  pose proof (copy_keys_outcome
                (MakeTrain_pose_yaml value itemstochange template items2drop)
                keys2save []) as H.
  destruct (copy_keys value _ keys2save []) as [d0|missing].
  - destruct H as [_ Hget]. intros key v Hin Hv Hs Hg. cbv zeta.
    rewrite written_get, Hget, Hg.
    destruct (String.eqb_spec key "scoremap_dir"); [contradiction|].
    apply existsb_eqb_string in Hin. rewrite Hin.
    rewrite MakeTrain_get by exact Hd. rewrite Hv. reflexivity.
  - destruct H as [Hin Hnone]. split; [exact Hin|].
    rewrite MakeTrain_get in Hnone by exact Hd.
    destruct (dict_get itemstochange missing); [discriminate|].
    split; [reflexivity|].
    destruct (dict_mem missing _); [left; reflexivity|right; exact Hnone].
Qed.

End PoseTestProperties.

(** X8 on a template with a rotation that is dropped and a data set that
    is changed. *)
Lemma MakeTrain_pose_yaml_lookup_witness :
  let made :=
    MakeTrain_pose_yaml Z [("dataset", 7)]%string
      [("rotation", 25); ("dataset", 0)]%string
      (Some [("rotation", 0)]%string) in
  dict_get made "rotation" = None /\ dict_get made "dataset" = Some 7.
Proof.
  destruct (MakeTrain_pose_yaml_lookup Z [("dataset", 7)]%string
              [("rotation", 25); ("dataset", 0)]%string
              (Some [("rotation", 0)]%string)) as [H _].
  - repeat constructor; cbn; intuition discriminate.
  - cbv zeta.
    split; [rewrite (H "rotation"%string)|rewrite (H "dataset"%string)];
      reflexivity.
Defined.

(** X10 on the same template, with the data set to save. *)
Lemma MakeTest_after_MakeTrain_witness :
  exists written : dict Z,
    MakeTest_pose_yaml Z (fun _ => 1)
      (MakeTrain_pose_yaml Z [("dataset", 7)]%string
         [("rotation", 25); ("dataset", 0)]%string
         (Some [("rotation", 0)]%string))
      ["dataset"%string] None None None None = Found written
    /\ dict_get written "dataset" = Some 7.
Proof.
  pose proof (MakeTest_after_MakeTrain Z (fun _ => 1) [("dataset", 7)]%string
                [("rotation", 25); ("dataset", 0)]%string
                (Some [("rotation", 0)]%string) ["dataset"%string]
                None None None None) as H.
  destruct (MakeTest_pose_yaml Z (fun _ => 1) _ _ None None None None)
    as [written|missing] eqn:E.
  - exists written. split; [reflexivity|].
    apply H.
    + repeat constructor; cbn; intuition discriminate.
    + left. reflexivity.
    + reflexivity.
    + discriminate.
    + reflexivity.
  - vm_compute in E. discriminate E.
Defined.

(** ** Comparing models *)

Lemma for_each_appends {W A : Type}
    (body : A -> W -> list Z -> W * result (list Z)) (f : A -> list Z)
    (l : list A) :
  (forall a w acc w' acc',
     In a l -> body a w acc = (w', Return acc') -> acc' = acc ++ f a) ->
  forall w acc w' r,
    for_each body l w acc = (w', Return r) -> r = acc ++ flat_map f l.
Proof.
  induction l as [|a l IH]; intros Hbody w acc w' r; cbn.
  - intros E. injection E as _ <-. rewrite app_nil_r. reflexivity.
  - destruct (body a w acc) as [w1 [acc1|e]] eqn:Hb; [|discriminate].
    intros E. apply Hbody in Hb; [|left; reflexivity]. subst acc1.
    apply IH in E; [|intros; eapply Hbody; [right|]; eassumption].
    rewrite E, app_assoc. reflexivity.
Qed.

Lemma for_each_returns {W A B : Type}
    (body : A -> W -> B -> W * result B) (l : list A) :
  (forall a w acc, In a l -> exists w' acc', body a w acc = (w', Return acc')) ->
  forall w acc, exists w' r, for_each body l w acc = (w', Return r).
Proof.
  induction l as [|a l IH]; intros Hbody w acc; cbn.
  - eexists _, _. reflexivity.
  - destruct (Hbody a w acc (or_introl eq_refl)) as (w1 & acc1 & Hb).
    rewrite Hb. apply IH. intros. apply Hbody. right. assumption.
Qed.

Lemma map_seq_offset {A : Type} (f : nat -> A) (n len : nat) :
  map f (seq n len) = map (fun k => f (n + k)%nat) (seq 0 len).
Proof.
  revert n f. induction len as [|len IH]; intros n f; [reflexivity|].
  cbn [seq map]. rewrite Nat.add_0_r. f_equal.
  rewrite (IH (S n) f), (IH 1%nat (fun k => f (n + k)%nat)).
  apply map_ext. intros k. f_equal. lia.
Qed.

(** [S] blocks of [B] consecutive numbers are [S * B] consecutive
    numbers. *)
Lemma consecutive_blocks (base : Z) (B S : nat) :
  flat_map (fun s => map (fun k => base + Z.of_nat s * Z.of_nat B + Z.of_nat k)
                       (seq 0 B)) (seq 0 S)
  = map (fun k => base + Z.of_nat k) (seq 0 (S * B)).
Proof.
  induction S as [|S IH]; [reflexivity|].
  rewrite seq_S, flat_map_app, IH. cbn [flat_map Nat.add]. rewrite app_nil_r.
  replace (Datatypes.S S * B)%nat with (S * B + B)%nat by lia.
  rewrite seq_app, map_app. f_equal. cbn [Nat.add].
  rewrite (map_seq_offset (fun k => base + Z.of_nat k)).
  apply map_ext. intros k. lia.
Qed.

Lemma enumerate_flat_map_fst {A : Type} (g : Z -> list Z) (l : list A) :
  flat_map (fun a => g (fst a)) (enumerate l)
  = flat_map (fun k => g (Z.of_nat k)) (seq 0 (List.length l)).
Proof.
  rewrite !flat_map_concat_map. f_equal.
  rewrite <- (map_map fst g), enumerate_fst. unfold py_range.
  rewrite map_map. reflexivity.
Qed.

Lemma flat_map_singleton {A B : Type} (g : A -> B) (l : list A) :
  flat_map (fun a => [g a]) l = map g l.
Proof. induction l as [|a l IH]; cbn; [reflexivity|rewrite IH; reflexivity]. Qed.

(** The indices that the three nested loops of
    [create_training_model_comparison] list. *)
Lemma comparison_indices {N A : Type} (largest num_shuffles : Z)
    (net_types : list N) (augmenter_types : list A) :
  flat_map
    (fun shuffle =>
       flat_map
         (fun net =>
            flat_map
              (fun aug =>
                 [largest + fst aug + fst net * len augmenter_types
                  + shuffle * len augmenter_types * len net_types])
              (enumerate augmenter_types))
         (enumerate net_types))
    (py_range2 0 num_shuffles)
  = py_range2 largest
      (largest + Z.max 0 num_shuffles * len net_types * len augmenter_types).
Proof.
  set (An := List.length augmenter_types). set (Nn := List.length net_types).
  unfold py_range2, len. fold An Nn.
  replace (Z.to_nat (num_shuffles - 0)) with (Z.to_nat num_shuffles) by lia.
  replace (Z.to_nat
             (largest + Z.max 0 num_shuffles * Z.of_nat Nn * Z.of_nat An
              - largest))
    with (Z.to_nat num_shuffles * (Nn * An))%nat by nia.
  rewrite <- (consecutive_blocks largest (Nn * An) (Z.to_nat num_shuffles)).
  rewrite flat_map_concat_map, map_map, <- flat_map_concat_map.
  apply flat_map_ext. intros s. cbn [Z.add].
  rewrite (enumerate_flat_map_fst
             (fun i => flat_map
                         (fun aug =>
                            [largest + fst aug + i * Z.of_nat An
                             + Z.of_nat s * Z.of_nat An * Z.of_nat Nn])
                         (enumerate augmenter_types))).
  fold Nn.
  rewrite <- (consecutive_blocks
                (largest + Z.of_nat s * Z.of_nat (Nn * An)) An Nn).
  apply flat_map_ext. intros n.
  rewrite (enumerate_flat_map_fst
             (fun j => [largest + j + Z.of_nat n * Z.of_nat An
                        + Z.of_nat s * Z.of_nat An * Z.of_nat Nn])).
  fold An. rewrite flat_map_singleton.
  apply map_ext. intros k. nia.
Qed.

(** X11.  When [create_training_model_comparison] returns, its list of
    shuffles is the run of [num_shuffles * len(net_types) *
    len(augmenter_types)] consecutive indices that starts one past the
    largest existing shuffle, or at 0 when there is none: no index is
    given twice, and none exists already. *)
Theorem create_training_model_comparison_indices
    (str_isdigit : string -> bool) (str_int : string -> result Z)
    (float_mul : Z -> Q -> Q) (world : Type)
    (mergeandsplit_call : world -> world * result (list Z * list Z))
    (create_call :
       world -> Z -> string -> string -> list Z -> list Z
       -> world * result unit)
    (w w' : world) (proj : project) (num_shuffles : Z)
    (net_types augmenter_types : list string) (shuffle_list : list Z) :
  create_training_model_comparison str_isdigit str_int float_mul world
    mergeandsplit_call
    create_call w proj num_shuffles net_types augmenter_types
  = (w', Return shuffle_list) ->
  exists (existing : list Z) (first_index : Z),
    get_existing_shuffle_indices str_isdigit str_int float_mul proj None None
    = Return existing
    /\ ((existing = [] /\ first_index = 0)
        \/ (In (first_index - 1) existing
            /\ forall x : Z, In x existing -> x <= first_index - 1))
    /\ shuffle_list
       = py_range2 first_index
           (first_index
            + Z.max 0 num_shuffles * len net_types * len augmenter_types)
    /\ NoDup shuffle_list
    /\ (forall idx : Z, In idx shuffle_list -> ~ In idx existing).
Proof.
  unfold create_training_model_comparison.
  destruct (get_existing_shuffle_indices str_isdigit str_int float_mul proj
              None None)
    as [existing|e] eqn:Hex; [|discriminate].
  pose proof (get_existing_shuffle_indices_ascending _ _ _ _ _ _ _ Hex)
    as Hasc.
  apply ascending_last_is_max in Hasc.
  set (first_index := match existing with [] => 0 | _ => last existing 0 + 1 end).
  assert (Hstart : (if len existing =? 0 then Return 0
                    else last_index <- py_index existing (-1) ;;
                         Return (last_index + 1))
                   = Return first_index).
  { destruct existing as [|a l]; [reflexivity|].
    assert (L : (len (a :: l) =? 0) = false)
      by (apply Z.eqb_neq; unfold len; cbn; lia).
    rewrite L, (py_index_last_default _ 0) by discriminate. reflexivity. }
  rewrite Hstart. intros E.
  assert (Hfirst : (existing = [] /\ first_index = 0)
                   \/ (In (first_index - 1) existing
                       /\ forall x : Z, In x existing -> x <= first_index - 1)).
  { destruct existing as [|a l] eqn:Ee; [left; split; reflexivity|right].
    replace (first_index - 1) with (last (a :: l) 0) by (unfold first_index; lia).
    split; [apply last_In; discriminate|exact Hasc]. }
  exists existing, first_index. split; [reflexivity|]. split; [exact Hfirst|].
  assert (Hlist : shuffle_list
                  = py_range2 first_index
                      (first_index + Z.max 0 num_shuffles * len net_types
                                     * len augmenter_types)).
  { rewrite <- comparison_indices.
    apply (for_each_appends _
             (fun shuffle =>
                flat_map
                  (fun net : Z * string =>
                     flat_map
                       (fun aug : Z * string =>
                          [first_index + fst aug
                           + fst net * len augmenter_types
                           + shuffle * len augmenter_types * len net_types])
                       (enumerate augmenter_types))
                  (enumerate net_types))) in E; [exact E|].
    intros shuffle w0 acc w1 acc1 _.
    destruct (mergeandsplit_call w0) as [w2 [[tr te]|e]]; [|discriminate].
    intros E1.
    apply (for_each_appends _
             (fun net : Z * string =>
                flat_map
                  (fun aug : Z * string =>
                     [first_index + fst aug + fst net * len augmenter_types
                      + shuffle * len augmenter_types * len net_types])
                  (enumerate augmenter_types))) in E1; [exact E1|].
    intros net w3 acc3 w4 acc4 _ E2.
    apply (for_each_appends _
             (fun aug : Z * string =>
                [first_index + fst aug + fst net * len augmenter_types
                 + shuffle * len augmenter_types * len net_types])) in E2.
    - rewrite E2. clear. induction (enumerate augmenter_types) as [|a l IH];
        [reflexivity|]. cbn. f_equal.
    - intros aug w5 acc5 w6 acc6 _.
      destruct (create_call w5 _ (snd net) (snd aug) tr te) as [w7 [u|e]];
        [|discriminate].
      intros E3. injection E3 as _ <-. reflexivity. }
  split; [exact Hlist|].
  assert (Hin : forall idx, In idx shuffle_list -> first_index <= idx).
  { intros idx H. rewrite Hlist in H. unfold py_range2 in H.
    apply in_map_iff in H. destruct H as (k & <- & _). lia. }
  split.
  - rewrite Hlist. unfold py_range2.
    apply Finite.Injective_map_NoDup; [|apply seq_NoDup].
    intros a b Hab. lia.
  - intros idx Hidx Hin'. apply Hin in Hidx.
    destruct Hfirst as [[-> _]|[_ Hmax]]; [contradiction|].
    apply Hmax in Hin'. lia.
Qed.

(** X11 for one shuffle, two networks and two augmenters after the
    shuffles 1, 2 and 3. *)
Lemma create_training_model_comparison_indices_witness :
  create_training_model_comparison isdigit int_of_string binary64_mul unit
    (fun w => (w, Return ([0; 1], [2])))
    (fun w _ _ _ _ _ => (w, Return tt))
    tt sample_project 1 ["resnet_50"; "resnet_101"]%string
    ["imgaug"; "scalecrop"]%string
  = (tt, Return [4; 5; 6; 7])
  /\ NoDup [4; 5; 6; 7].
Proof.
  assert (E : create_training_model_comparison isdigit int_of_string
                binary64_mul unit
                (fun w => (w, Return ([0; 1], [2])))
                (fun w _ _ _ _ _ => (w, Return tt))
                tt sample_project 1 ["resnet_50"; "resnet_101"]%string
                ["imgaug"; "scalecrop"]%string
              = (tt, Return [4; 5; 6; 7])) by (vm_compute; reflexivity).
  destruct (create_training_model_comparison_indices
              _ _ _ _ _ _ _ _ _ _ _ _ _ E)
    as (existing & first & _ & _ & _ & ND & _).
  split; [exact E|exact ND].
Defined.

(** ** The registry and its filters *)

(** X12.  An error of the registry is the error of
    [get_largestshuffle_index].  When the registry returns,
    [get_largestshuffle_index] returns [None] exactly when no shuffle
    exists, and otherwise the largest existing index; the indices that
    [validate_shuffles] allocates then start right after it. *)
Theorem get_largestshuffle_index_is_maximum
    (str_isdigit : string -> bool) (str_int : string -> result Z)
    (float_mul : Z -> Q -> Q) (proj : project) :
  match get_existing_shuffle_indices str_isdigit str_int float_mul proj
          None None with
  | Raise e =>
      get_largestshuffle_index str_isdigit str_int float_mul proj = Raise e
  | Return existing =>
      (existing = []
       /\ get_largestshuffle_index str_isdigit str_int float_mul proj
          = Return None)
      \/ exists largest : Z,
           get_largestshuffle_index str_isdigit str_int float_mul proj
           = Return (Some largest)
           /\ In largest existing
           /\ (forall x : Z, In x existing -> x <= largest)
           /\ forall (num_shuffles : Z) (userfeedback : bool),
                validate_shuffles str_isdigit str_int float_mul proj None
                  num_shuffles userfeedback
                = Return (py_range2 (largest + 1)
                            (num_shuffles + (largest + 1)))
  end.
Proof.
  unfold get_largestshuffle_index, validate_shuffles.
  destruct (get_existing_shuffle_indices str_isdigit str_int float_mul proj
              None None) as [existing|e] eqn:Hex; [|reflexivity].
  pose proof (get_existing_shuffle_indices_ascending _ _ _ _ _ _ _ Hex)
    as Hasc.
  apply ascending_last_is_max in Hasc.
  cbn [bind].
  destruct existing as [|a l] eqn:E; [left; split; reflexivity|right].
  assert (L : (0 <? len (a :: l)) = true)
    by (apply Z.ltb_lt; unfold len; cbn; lia).
  rewrite L, (py_index_last_default _ 0) by discriminate. cbn [bind].
  exists (last (a :: l) 0). split; [reflexivity|].
  split; [apply last_In; discriminate|]. split; [exact Hasc|].
  intros num_shuffles userfeedback. reflexivity.
Qed.

Lemma collect_In {A B : Type} (f : A -> result (option B)) (l : list A)
    (bs : list B) (b : B) :
  collect f l = Return bs ->
  (In b bs <-> exists a : A, In a l /\ f a = Return (Some b)).
Proof.
  revert bs. induction l as [|a l IH]; intros bs; cbn [collect].
  - intros E. injection E as <-. split; [contradiction|].
    intros (a & [] & _).
  - destruct (f a) as [o|e] eqn:Fa; [|discriminate]. cbn [bind].
    destruct (collect f l) as [bs'|e]; [|discriminate]. cbn [bind].
    intros E. injection E as <-. specialize (IH bs' eq_refl).
    destruct o as [b'|].
    + cbn. rewrite IH. split.
      * intros [<-|(a' & Ha & Fa')]; [exists a; split; [left; reflexivity|exact Fa]|].
        exists a'. split; [right; exact Ha|exact Fa'].
      * intros (a' & [<-|Ha] & Fa'); [left; congruence|].
        right. exists a'. split; assumption.
    + rewrite IH. split.
      * intros (a' & Ha & Fa'). exists a'. split; [right; exact Ha|exact Fa'].
      * intros (a' & [<-|Ha] & Fa'); [congruence|].
        exists a'. split; assumption.
Qed.

(** A stem valid under a train fraction is valid without one. *)
Lemma is_valid_data_stem_filtered
    (str_isdigit : string -> bool) (str_int : string -> result Z)
    (float_mul : Z -> Q -> Q) (train_fraction : Q) (stem : string) :
  is_valid_data_stem str_isdigit str_int float_mul (Some train_fraction) stem
  = Return true ->
  is_valid_data_stem str_isdigit str_int float_mul None stem = Return true.
Proof.
  unfold is_valid_data_stem.
  destruct (String.length stem =? 0)%nat; [discriminate|].
  destruct (py_index (str_split stem "_") (-1)) as [suffix|e];
    [|discriminate].
  cbn [bind].
  destruct (String.length suffix =? 0)%nat; [discriminate|].
  destruct (str_split suffix "shuffle") as [|a [|b [|c l]]];
    try discriminate.
  destruct (str_isdigit a && str_isdigit b); [|discriminate].
  reflexivity.
Qed.

Lemma entry_index_filtered
    (str_isdigit : string -> bool) (str_int : string -> result Z)
    (float_mul : Z -> Q -> Q) (train_fraction : Q) (p : path) (idx : Z) :
  entry_index str_isdigit str_int float_mul (Some train_fraction) p
  = Return (Some idx) ->
  entry_index str_isdigit str_int float_mul None p = Return (Some idx).
Proof.
  unfold entry_index.
  destruct (String.prefix "Documentation_data" (stem p)
            && String.eqb (suffix p) ".pickle"); [|discriminate].
  destruct (is_valid_data_stem str_isdigit str_int float_mul
              (Some train_fraction) (stem p)) as [[|]|e] eqn:V;
    cbn [bind]; try discriminate.
  rewrite (is_valid_data_stem_filtered _ _ _ _ _ V). cbn [bind].
  intros E. exact E.
Qed.

(** X13.  The filters of [get_existing_shuffle_indices] only remove
    indices: when the call with a train fraction, and whatever the engine,
    returns and the unfiltered call returns, the first list is ascending
    and each of its indices is in the second. *)
Theorem get_existing_shuffle_indices_filtered
    (str_isdigit : string -> bool) (str_int : string -> result Z)
    (float_mul : Z -> Q -> Q) (proj : project) (train_fraction : Q)
    (engine : option Engine) (filtered existing : list Z) :
  get_existing_shuffle_indices str_isdigit str_int float_mul proj
    (Some train_fraction) engine
  = Return filtered ->
  get_existing_shuffle_indices str_isdigit str_int float_mul proj None None
  = Return existing ->
  ascending filtered
  /\ forall idx : Z, In idx filtered -> In idx existing.
Proof.
  intros Hfl Hex.
  split; [apply (get_existing_shuffle_indices_ascending _ _ _ _ _ _ _ Hfl)|].
  revert Hfl Hex. unfold get_existing_shuffle_indices.
  destruct (trainset_folder proj) as [entries|].
  - change (collect _ entries)
      with (collect (entry_index str_isdigit str_int float_mul
                       (Some train_fraction)) entries) at 1.
    change (collect _ entries)
      with (collect (entry_index str_isdigit str_int float_mul None)
              entries) at 2.
    destruct (collect (entry_index str_isdigit str_int float_mul
                         (Some train_fraction)) entries)
      as [found|e] eqn:Cf; [|discriminate].
    destruct (collect (entry_index str_isdigit str_int float_mul None)
                entries) as [all|e] eqn:Call; [|discriminate].
    cbn [bind]. intros Hfl Hex. injection Hex as <-.
    assert (Sub : forall idx, In idx found -> In idx all).
    { intros idx Hi.
      apply (collect_In _ _ _ idx Cf) in Hi. destruct Hi as (p & Hp & Ep).
      apply (collect_In _ _ _ idx Call). exists p. split; [exact Hp|].
      apply (entry_index_filtered _ _ _ _ _ _ Ep). }
    destruct engine as [e|]; cbn [bind] in Hfl; injection Hfl as <-;
      intros idx Hi; rewrite !sorted_In in Hi; rewrite sorted_In.
    + apply filter_In in Hi. apply Sub, Hi.
    + apply Sub, Hi.
  - intros Hfl Hex. injection Hfl as <-. intros idx [].
Qed.

(** X13 on the sample folder at the fraction 0.95. *)
Lemma get_existing_shuffle_indices_filtered_witness :
  get_existing_shuffle_indices isdigit int_of_string binary64_mul
    sample_project (Some (95 # 100)) (Some PYTORCH)
  = Return [1; 3]
  /\ get_existing_shuffle_indices isdigit int_of_string binary64_mul
       sample_project None None
     = Return [1; 2; 3]
  /\ ascending [1; 3]
  /\ forall idx : Z, In idx [1; 3] -> In idx [1; 2; 3].
Proof.
  assert (F : get_existing_shuffle_indices isdigit int_of_string binary64_mul
                sample_project (Some (95 # 100)) (Some PYTORCH)
              = Return [1; 3]) by (vm_compute; reflexivity).
  assert (E : get_existing_shuffle_indices isdigit int_of_string binary64_mul
                sample_project None None
              = Return [1; 2; 3]) by (vm_compute; reflexivity).
  split; [exact F|]. split; [exact E|].
  exact (get_existing_shuffle_indices_filtered isdigit int_of_string
           binary64_mul sample_project (95 # 100) (Some PYTORCH)
           [1; 3] [1; 2; 3] F E).
Defined.

(** X14.  Asking for an engine without a train fraction comes to an error
    of its own only when the training-set folder exists and its scan has
    returned: an error of the scan comes first, and without the folder the
    call returns the empty list, its arguments unchecked. *)
Theorem get_existing_shuffle_indices_engine_alone
    (str_isdigit : string -> bool) (str_int : string -> result Z)
    (float_mul : Z -> Q -> Q) (proj : project) (engine : Engine) :
  get_existing_shuffle_indices str_isdigit str_int float_mul proj None
    (Some engine)
  = match get_existing_shuffle_indices str_isdigit str_int float_mul proj
            None None with
    | Raise e => Raise e
    | Return _ =>
        match trainset_folder proj with
        | Some _ => Raise (ValueError EngineWithoutFraction)
        | None => Return []
        end
    end.
Proof.
  unfold get_existing_shuffle_indices.
  destruct (trainset_folder proj) as [entries|]; [|reflexivity].
  destruct (collect _ entries) as [found|e]; reflexivity.
Qed.

Lemma dot_splitext_joins (p : string) :
  (fst (dot_splitext p) ++ snd (dot_splitext p))%string = p.
Proof.
  unfold dot_splitext.
  destruct (rsplit_last "." p) as [[root ext]|] eqn:E; cbn [fst snd].
  - apply rsplit_last_some in E. symmetry. apply E.
  - apply string_app_nil_r.
Qed.

(** X6 on a Windows path. *)
Lemma robust_path_split_round_trip_witness :
  exists parent filename ext : string,
    _robust_path_split dot_splitext "C:\videos\mouse1.avi"
    = Return (parent, filename, ext)
    /\ (char_in "\" "C:\videos\mouse1.avi" = true ->
        "C:\videos\mouse1.avi"%string
        = (parent ++ String "\" (filename ++ ext))%string
        /\ char_in "\" (filename ++ ext) = false)
    /\ (char_in "\" "C:\videos\mouse1.avi" = false ->
        parent = "."%string
        /\ "C:\videos\mouse1.avi"%string = (filename ++ ext)%string).
Proof.
  exact (robust_path_split_round_trip dot_splitext "C:\videos\mouse1.avi"
           dot_splitext_joins).
Defined.

(** ** Explicit shuffle requests *)

Lemma check_shuffles_unchecked (existing shuffles : list Z) :
  check_shuffles false existing shuffles = Return tt.
Proof.
  induction shuffles as [|s rest IH]; [reflexivity|exact IH].
Qed.

Lemma check_shuffles_first_collision (existing pre post : list Z) (i : Z) :
  (forall j : Z, In j pre -> ~ In j existing) ->
  In i existing ->
  check_shuffles true existing (pre ++ i :: post)
  = Raise (ValueError (ShuffleExists i existing)).
Proof.
  intros Hpre Hi. induction pre as [|j pre IH]; cbn [app check_shuffles andb].
  - apply existsb_eqb_In in Hi. rewrite Hi. reflexivity.
  - destruct (existsb (Z.eqb j) existing) eqn:E.
    + apply existsb_eqb_In in E. exfalso.
      apply (Hpre j); [left; reflexivity|exact E].
    + apply IH. intros k Hk. apply Hpre. right. exact Hk.
Qed.

Lemma check_shuffles_free (userfeedback : bool) (existing shuffles : list Z) :
  (forall i : Z, In i shuffles -> ~ In i existing) ->
  check_shuffles userfeedback existing shuffles = Return tt.
Proof.
  intros Hfree. induction shuffles as [|s rest IH]; [reflexivity|].
  cbn [check_shuffles].
  destruct (existsb (Z.eqb s) existing) eqn:E.
  - apply existsb_eqb_In in E. exfalso.
    apply (Hfree s); [left; reflexivity|exact E].
  - rewrite andb_false_r. apply IH. intros k Hk. apply Hfree. right. exact Hk.
Qed.

(** X15.  An error of the registry is the error of the validation.  When
    the registry returns, an explicit request is returned as its integer
    entries, in the order given and whatever [num_shuffles] is, when
    [userfeedback] is off or none of them exists; with [userfeedback] on,
    the error names the first requested index that exists. *)
Theorem validate_shuffles_explicit_request
    (str_isdigit : string -> bool) (str_int : string -> result Z)
    (float_mul : Z -> Q -> Q) (proj : project) (shuffles : list pyval)
    (num_shuffles : Z) (userfeedback : bool) :
  match get_existing_shuffle_indices str_isdigit str_int float_mul proj
          None None with
  | Raise e =>
      validate_shuffles str_isdigit str_int float_mul proj (Some shuffles)
        num_shuffles userfeedback
      = Raise e
  | Return existing =>
      (userfeedback = false
       \/ (forall i : Z, In i (ints shuffles) -> ~ In i existing) ->
       validate_shuffles str_isdigit str_int float_mul proj (Some shuffles)
         num_shuffles userfeedback
       = Return (ints shuffles))
      /\ (userfeedback = true ->
          forall (pre post : list Z) (i : Z),
            ints shuffles = pre ++ i :: post ->
            (forall j : Z, In j pre -> ~ In j existing) ->
            In i existing ->
            validate_shuffles str_isdigit str_int float_mul proj
              (Some shuffles) num_shuffles userfeedback
            = Raise (ValueError (ShuffleExists i existing)))
  end.
Proof.
  unfold validate_shuffles.
  destruct (get_existing_shuffle_indices str_isdigit str_int float_mul proj
              None None) as [existing|e]; [|reflexivity].
  cbn [bind]. split.
  - intros [->|Hfree].
    + rewrite check_shuffles_unchecked. reflexivity.
    + rewrite check_shuffles_free by exact Hfree. reflexivity.
  - intros -> pre post i E Hpre Hi.
    rewrite E, check_shuffles_first_collision by assumption. reflexivity.
Qed.

(** ** Negative indices in the training data *)

Lemma py_index_negative {A : Type} (l : list A) (i : Z) :
  - len l <= i -> i < 0 -> py_index l i = py_index l (len l + i).
Proof.
  intros L N. unfold py_index.
  assert (E1 : (i <? 0) = true) by (apply Z.ltb_lt; exact N).
  assert (E2 : (len l + i <? 0) = false) by (apply Z.ltb_ge; lia).
  cbv zeta. rewrite E1, !E2. reflexivity.
Qed.

Section NegativeIndices.

Variable read_image_shape_fast : row_name -> Z * Z * Z.

Lemma frame_joints_negative (df : DataFrame) (i nbodyparts : Z) :
  - len df <= i -> i < 0 ->
  frame_joints read_image_shape_fast df i nbodyparts
  = frame_joints read_image_shape_fast df (len df + i) nbodyparts.
Proof.
  intros L N. unfold frame_joints.
  assert (L1 : len (df_index df) = len df)
    by (unfold len, df_index; rewrite length_map; reflexivity).
  assert (L2 : len (map snd df) = len df)
    by (unfold len; rewrite length_map; reflexivity).
  rewrite (py_index_negative (df_index df) i) by lia.
  rewrite (py_index_negative (map snd df) i) by lia.
  rewrite L1, L2. reflexivity.
Qed.

(** X16.  [format_training_data] reads a negative index from the end of
    the table: indices not below [-len(df)] give the same training data as
    the row numbers they stand for, so that a sentinel [-1] left in the
    train indices is the last row. *)
Theorem format_training_data_negative_indices
    (df : DataFrame) (train_inds : list Z) (nbodyparts : Z) :
  Forall (fun i : Z => - len df <= i) train_inds ->
  format_training_data read_image_shape_fast df train_inds nbodyparts
  = format_training_data read_image_shape_fast df
      (map (fun i : Z => if i <? 0 then len df + i else i) train_inds)
      nbodyparts.
Proof.
  intros H. induction H as [|i rest Hi _ IH]; [reflexivity|].
  cbn [map format_training_data]. rewrite <- IH.
  destruct (Z.ltb_spec i 0) as [N|N]; [|reflexivity].
  rewrite (frame_joints_negative df i nbodyparts Hi N). reflexivity.
Qed.

End NegativeIndices.

(** X16 on a table of two rows: the sentinel is row 1. *)
Lemma format_training_data_negative_indices_witness :
  let df : DataFrame :=
    [({| level0 := "labeled-data"; folder := "v"; image := "a.png" |},
      [Num 3; Num 4]);
     ({| level0 := "labeled-data"; folder := "v"; image := "b.png" |},
      [Num 5; Num 6])] in
  Forall (fun i : Z => - len df <= i) [0; sentinel]
  /\ format_training_data (fun _ => (3, 10, 10)) df [0; sentinel] 1
     = format_training_data (fun _ => (3, 10, 10)) df [0; 1] 1.
Proof.
  intros df.
  assert (H : Forall (fun i : Z => - len df <= i) [0; sentinel])
    by (repeat constructor; vm_compute; discriminate).
  split; [exact H|].
  exact (format_training_data_negative_indices (fun _ => (3, 10, 10)) df
           [0; sentinel] 1 H).
Defined.

(** ** Freezing an enforced split *)

Section FrozenSplit.

Variable str_isdigit : string -> bool.
Variable str_int : string -> result Z.
Variable float_mul : Z -> Q -> Q.
Variable float_div : Z -> Z -> Q.
Variable permutation : list Z -> list Z.
Variable world : Type.
Variable prelude : world -> world * result (option DataFrame).
Variable materialize : world -> split_entry -> world * result unit.

(** X17.  An enforced split can be frozen: handed back to
    [create_training_dataset], the padded arrays of
    [SplitTrials(..., enforce_train_fraction=True)] give the split entry
    with the train fraction [round(f, 2)] and the raw train and test slices
    of the shuffled index, the sentinels gone.  The machine quotient of
    the padded lengths is taken to be within 1/1000 of the exact one. *)
Theorem enforced_split_round_trip
    (w w' : world) (cfg : config) (proj : project) (Data : DataFrame)
    (num_shuffles : Z) (shuffles : option (list pyval)) (userfeedback : bool)
    (shuffle : Z) (trialindex : list Z) (f : Q)
    (train_padded test_padded : list Z) :
  two_digit_fraction f ->
  Permutation (permutation trialindex) trialindex ->
  ~ In sentinel trialindex ->
  faithful_product float_mul (len trialindex) (py_round2 f) ->
  trialindex <> [] ->
  SplitTrials float_mul permutation trialindex f true
  = Return (train_padded, test_padded) ->
  faithful_quotient float_div (len train_padded)
    (len train_padded + len test_padded) ->
  prelude w = (w', Return (Some Data)) ->
  validate_shuffles str_isdigit str_int float_mul proj shuffles
    num_shuffles userfeedback
  = Return [shuffle] ->
  create_training_dataset str_isdigit str_int float_mul float_div
    permutation world prelude materialize
    w cfg proj num_shuffles shuffles userfeedback
    (Some [train_padded]) (Some [test_padded])
  = let cut := py_int (float_mul (len trialindex) (py_round2 f)) in
    let splits :=
      [(py_round2 f, shuffle,
        (slice_to (permutation trialindex) cut,
         slice_from (permutation trialindex) cut))] in
    match materialize_all world materialize w' splits with
    | (w2, Raise e) => (w2, Raise e)
    | (w2, Return _) => (w2, Return (Some splits))
    end.
Proof.
  intros Hf Hperm Hsent Hmul Hne E Hdiv Hpre Hval.
  destruct (enforced_split_shape float_mul permutation trialindex f
              Hf Hperm Hmul train_padded test_padded E)
    as ((a & b & Etp & Ete) & Cross).
  destruct (split_no_sentinel float_mul permutation trialindex f
              Hperm Hsent) as [S1 S2].
  destruct (split_lengths float_mul permutation trialindex f
              Hf Hperm Hmul) as [L1 L2].
  set (cut := py_int (float_mul (len trialindex) (py_round2 f))) in *.
  assert (Hn : 0 < len trialindex).
  { destruct trialindex; [contradiction|]. unfold len. cbn. lia. }
  assert (Hpos : 0 < len train_padded + len test_padded).
  { rewrite Etp, Ete, !len_app, !len_repeat. lia. }
  assert (Fr : py_round2 (float_div (len train_padded)
                            (len train_padded + len test_padded))
               = py_round2 f).
  { apply py_round2_faithful_quotient; [exact Hf|exact Hdiv|].
    pose proof (inject_Z_pos _ Hpos) as P.
    rewrite Cross. field. lra. }
  pose proof (create_training_dataset_copies str_isdigit str_int float_mul
                float_div permutation world
                prelude materialize w w' cfg proj Data num_shuffles shuffles
                userfeedback [shuffle] 1 train_padded test_padded
                (py_round2 f) Hpre Hval eq_refl Hpos Fr) as C.
  change (py_list_mul train_padded 1) with [train_padded] in C.
  change (py_list_mul test_padded 1) with [test_padded] in C.
  rewrite C. cbv zeta. cbn [map].
  rewrite Etp, Ete, !strip_padding_app by assumption. reflexivity.
Qed.

End FrozenSplit.

(** X17 for 33 rows at 0.8: the 28 and 7 padded indices come back as the
    26 and 7 raw ones. *)
Lemma enforced_split_round_trip_witness :
  SplitTrials binary64_mul (fun l => l) (py_range 33) (8 # 10) true
  = Return (py_range 26 ++ [sentinel; sentinel], map (Z.add 26) (py_range 7))
  /\ create_training_dataset isdigit int_of_string binary64_mul binary64_div
       (fun l => l) unit
       (fun w => (w, Return (Some [])))
       (fun w _ => (w, Return tt))
       tt {| TrainingFraction := [8 # 10]; video_sets := [] |}
       empty_project 1 None true
       (Some [py_range 26 ++ [sentinel; sentinel]])
       (Some [map (Z.add 26) (py_range 7)])
     = (tt, Return (Some [(py_round2 (8 # 10), 1,
                           (py_range 26, map (Z.add 26) (py_range 7)))])).
Proof.
  assert (E : SplitTrials binary64_mul (fun l => l) (py_range 33) (8 # 10) true
              = Return (py_range 26 ++ [sentinel; sentinel],
                        map (Z.add 26) (py_range 7)))
    by (vm_compute; reflexivity).
  split; [exact E|].
  rewrite (enforced_split_round_trip isdigit int_of_string
             binary64_mul binary64_div (fun l => l) unit
             (fun w => (w, Return (Some [])))
             (fun w _ => (w, Return tt))
             tt tt {| TrainingFraction := [8 # 10]; video_sets := [] |}
             empty_project [] 1 None true 1 (py_range 33) (8 # 10)
             (py_range 26 ++ [sentinel; sentinel])
             (map (Z.add 26) (py_range 7))).
  - vm_compute. reflexivity.
  - unfold two_digit_fraction. vm_compute. repeat split; reflexivity.
  - apply Permutation_refl.
  - apply py_range_no_sentinel.
  - split; [vm_compute; reflexivity|intros H; vm_compute in H; discriminate H].
  - vm_compute. discriminate.
  - exact E.
  - vm_compute. reflexivity.
  - reflexivity.
  - vm_compute. reflexivity.
Defined.

(** ** Random splits of rejected fractions *)

Lemma collect_map {A B : Type} (f : A -> result (option B)) (g : A -> B)
    (l : list A) :
  (forall a : A, In a l -> f a = Return (Some (g a))) ->
  collect f l = Return (map g l).
Proof.
  induction l as [|a l IH]; intros H; [reflexivity|].
  cbn [collect map]. rewrite (H a) by (left; reflexivity). cbn [bind].
  rewrite IH by (intros b Hb; apply H; right; exact Hb). reflexivity.
Qed.

Section RejectedFractions.

Variable str_isdigit : string -> bool.
Variable str_int : string -> result Z.
Variable float_mul : Z -> Q -> Q.
Variable float_div : Z -> Z -> Q.
Variable permutation : list Z -> list Z.
Variable world : Type.
Variable prelude : world -> world * result (option DataFrame).
Variable materialize : world -> split_entry -> world * result unit.

Lemma materialize_all_empty_train (w : world) (splits : list split_entry) :
  Forall (fun entry : split_entry => fst (snd entry) = []) splits ->
  materialize_all world materialize w splits = (w, Return tt).
Proof.
  intros H. induction H as [|[[f s] [tr te]] rest E _ IH]; [reflexivity|].
  cbn in E. subst tr. cbn [materialize_all]. exact IH.
Qed.

(** X18.  Train fractions that [SplitTrials] rejects abort nothing in
    [create_training_dataset]: when every fraction of the configuration is
    rejected, the call raises no error and creates no file or folder after
    the prelude, and returns one entry with an empty split for each
    fraction and shuffle. *)
Theorem create_training_dataset_rejected_fractions
    (w w' : world) (cfg : config) (proj : project) (Data : DataFrame)
    (num_shuffles : Z) (shuffles : option (list pyval)) (userfeedback : bool)
    (Shuffles : list Z) :
  prelude w = (w', Return (Some Data)) ->
  validate_shuffles str_isdigit str_int float_mul proj shuffles
    num_shuffles userfeedback
  = Return Shuffles ->
  (forall f : Q, In f (TrainingFraction cfg) -> ~ accepted_fraction f) ->
  create_training_dataset str_isdigit str_int float_mul float_div
    permutation world prelude materialize
    w cfg proj num_shuffles shuffles userfeedback None None
  = (w', Return (Some (map (fun fs : Q * Z => (fst fs, snd fs, ([], [])))
                         (list_prod (TrainingFraction cfg) Shuffles)))).
Proof.
  intros Hpre Hval Hrej.
  unfold create_training_dataset. rewrite Hpre, Hval. unfold random_splits.
  rewrite (collect_map _ (fun fs : Q * Z => (fst fs, snd fs, ([], [])))).
  - rewrite materialize_all_empty_train; [reflexivity|].
    apply Forall_forall. intros entry Hin. apply in_map_iff in Hin.
    destruct Hin as (fs & <- & _). reflexivity.
  - intros [f s] Hin. apply in_prod_iff in Hin. destruct Hin as [Hf _].
    cbn [fst snd].
    rewrite (SplitTrials_rejected float_mul permutation _ f false
               (Hrej f Hf)).
    reflexivity.
Qed.

End RejectedFractions.

(** X18 for the fraction 1.05 and two shuffles: nothing is materialised,
    even by a body that would raise. *)
Lemma create_training_dataset_rejected_fractions_witness :
  create_training_dataset isdigit int_of_string binary64_mul binary64_div
    (fun l => l) nat
    (fun w => (w, Return (Some [])))
    (fun w _ => (S w, Raise TypeError))
    O {| TrainingFraction := [105 # 100]; video_sets := [] |}
    empty_project 2 None true None None
  = (O, Return (Some [(105 # 100, 1, ([], [])); (105 # 100, 2, ([], []))])).
Proof.
  apply (create_training_dataset_rejected_fractions isdigit int_of_string
           binary64_mul binary64_div (fun l => l)
           nat (fun w => (w, Return (Some [])))
           (fun w _ => (S w, Raise TypeError))
           O O {| TrainingFraction := [105 # 100]; video_sets := [] |}
           empty_project [] 2 None true [1; 2]).
  - reflexivity.
  - vm_compute. reflexivity.
  - intros f [<-|[]] (_ & H & _). vm_compute in H. apply H. reflexivity.
Defined.
